(** * Data Alchemist: validation, normalisation, search, corrections and export

    A shallow embedding of [src/app/page.tsx] and the properties of its
    data pipeline.

    Modelling conventions.
    - A JavaScript number is an IEEE 754 binary64 value: [spec_float] at
      precision 53 and maximal exponent 1024, with the operations of
      [SpecFloat].
    - A JavaScript string is a [string]; its characters are read as
      one-byte code units.
    - A runtime value of type [any] (a spreadsheet cell, the result of
      [JSON.parse]) is a [Json] tree.  A missing property ([undefined])
      is the absence of a key.
    - An exception is the [Throw] completion.  The loop of
      [parsePhases] runs on fuel, and [Diverge] is the fuel of the model
      running out: with more fuel than an array has elements the loop
      always ends, by returning or by throwing.
    - An array holds at most [Array_maxLength] elements, a constant of
      the host that the language bounds by [2^32 - 1]; [push] on a full
      array throws a RangeError.
    - The built-ins the page calls but does not define ([JSON.parse],
      [JSON.stringify], the conversion of a number to a string) are the
      methods of the class [JsRuntime].
    - [forEach] loops that push onto [errors] thread the array, and the
      [Set] they fill, through a left fold.
    - The records of the state are typed records; where the page
      rebuilds them as objects (export, the edit of a cell, a
      correction) they are [Object]s, lists of properties in insertion
      order, since an edit may store a value that is not of the type of
      its field.
    - [Date.now()] is an argument of the function that reads it.
    - The regular expressions of the page are matched by functions
      that follow their greedy runs, from the leftmost position on. *)

From Stdlib Require Import ZArith List String Ascii Bool Lia.
From Stdlib Require Import Floats.SpecFloat.
From stdpp Require Import base decidable option list gmap strings pretty.

Set Default Proof Using "Type".

(** ** Completions *)

Inductive Completion (A : Type) : Type :=
  | Normal (a : A)
  | Throw (error : string)
  | Diverge.
Arguments Normal {A} a.
Arguments Throw {A} error.
Arguments Diverge {A}.

Definition cbind {A B} (c : Completion A) (k : A → Completion B) : Completion B :=
  match c with
  | Normal a => k a
  | Throw e => Throw e
  | Diverge => Diverge
  end.

Notation "x ←! c ; k" := (cbind c (λ x, k))
  (at level 20, c at level 100, k at level 200, right associativity,
   format "x  ←!  c ;  '/' k").

Fixpoint cmapi_from {A B} (f : nat → A → Completion B) (i : nat) (l : list A)
    : Completion (list B) :=
  match l with
  | [] => Normal []
  | a :: l' => b ←! f i a; bs ←! cmapi_from f (S i) l'; Normal (b :: bs)
  end.

(** [Array.prototype.map] with a callback that may throw. *)
Definition cmapi {A B} (f : nat → A → Completion B) (l : list A) : Completion (list B) :=
  cmapi_from f 0 l.

(** ** Numbers *)

Module JsNumber.
Local Open Scope Z_scope.

Definition prec : Z := 53.
Definition emax : Z := 1024.

Abbreviation number := spec_float.

Definition NaN : number := S754_nan.
Definition ofZ (z : Z) : number := binary_normalize prec emax z 0 false.
Definition ofNat (n : nat) : number := ofZ (Z.of_nat n).

Definition add : number → number → number := SFadd prec emax.
Definition sub : number → number → number := SFsub prec emax.
Definition mul : number → number → number := SFmul prec emax.
Definition div : number → number → number := SFdiv prec emax.

(** [x < y], [x > y], [x <= y]: false as soon as one side is NaN. *)
Definition lt (x y : number) : bool := SFltb x y.
Definition gt (x y : number) : bool := SFltb y x.
Definition le (x y : number) : bool := SFleb x y.

Definition isNaN (x : number) : bool :=
  match x with S754_nan => true | _ => false end.

Definition isZero (x : number) : bool :=
  match x with S754_zero _ => true | _ => false end.

(** [Math.max] and [Math.min] of two arguments: NaN is contagious and
    [-0] is below [+0]. *)
Definition Math_max (x y : number) : number :=
  match x, y with
  | S754_nan, _ | _, S754_nan => S754_nan
  | S754_zero sx, S754_zero sy => S754_zero (sx && sy)
  | _, _ => if lt x y then y else x
  end.

Definition Math_min (x y : number) : number :=
  match x, y with
  | S754_nan, _ | _, S754_nan => S754_nan
  | S754_zero sx, S754_zero sy => S754_zero (sx || sy)
  | _, _ => if lt y x then y else x
  end.

(** [Math.round]: the integer nearest to [x], ties towards [+∞], that
    is [floor (x + 1/2)] computed exactly; the sign of a zero result
    is the sign of [x]. *)
Definition Math_round (x : number) : number :=
  match x with
  | S754_finite s m e =>
      let n := cond_Zopp s (Zpos m) in
      let k := if 0 <=? e then n * 2 ^ e
               else (2 * n + 2 ^ (- e)) / 2 ^ (- e + 1) in
      binary_normalize prec emax k 0 s
  | _ => x
  end.

(** The integers a binary64 value holds exactly without gaps. *)
Definition MAX_SAFE : Z := 2 ^ 53.
End JsNumber.
Export JsNumber.

(** ** Strings *)

Module JsString.
Local Open Scope string_scope.

Definition codeOf (c : ascii) : N := N_of_ascii c.

(** White space and line terminators among the one-byte code units. *)
Definition isWhiteSpace (c : ascii) : bool :=
  let n := codeOf c in
  ((9 <=? n) && (n <=? 13) || (n =? 32) || (n =? 160))%N.

Fixpoint trimStart (s : string) : string :=
  match s with
  | "" => ""
  | String c r => if isWhiteSpace c then trimStart r else s
  end.

Fixpoint trimEnd (s : string) : string :=
  match s with
  | "" => ""
  | String c r =>
      match trimEnd r with
      | "" => if isWhiteSpace c then "" else String c ""
      | r' => String c r'
      end
  end.

Definition trim (s : string) : string := trimEnd (trimStart s).

(** [s.split(sep)] for a separator of one character. *)
Fixpoint split (sep : ascii) (s : string) : list string :=
  match s with
  | "" => [""]
  | String c r =>
      if Ascii.eqb c sep then "" :: split sep r
      else match split sep r with
           | h :: t => String c h :: t
           | [] => [String c ""]
           end
  end.

Definition startsWith (s p : string) : bool := String.prefix p s.

(** [s.includes(sub)]. *)
Fixpoint includes (s sub : string) : bool :=
  String.prefix sub s ||
  match s with
  | "" => false
  | String _ r => includes r sub
  end.

Fixpoint endsWith (s p : string) : bool :=
  String.eqb s p ||
  match s with
  | "" => false
  | String _ r => endsWith r p
  end.

(** [array.join(sep)] on an array of strings. *)
Fixpoint join (sep : string) (l : list string) : string :=
  match l with
  | [] => ""
  | [s] => s
  | s :: l' => s +:+ sep +:+ join sep l'
  end.

Definition lowerChar (c : ascii) : ascii :=
  let n := codeOf c in
  if ((65 <=? n) && (n <=? 90) ||
      (192 <=? n) && (n <=? 222) && negb (n =? 215))%N
  then ascii_of_N (n + 32) else c.

Fixpoint toLowerCase (s : string) : string :=
  match s with
  | "" => ""
  | String c r => String (lowerChar c) (toLowerCase r)
  end.

(** [s.replace(/```json|```/g, '')]: [skip] counts the characters of
    the current match that are still to be dropped. *)
Fixpoint stripFences_from (skip : nat) (s : string) : string :=
  match s with
  | "" => ""
  | String c r =>
      match skip with
      | S k => stripFences_from k r
      | O =>
          if String.prefix "```json" s then stripFences_from 6 r
          else if String.prefix "```" s then stripFences_from 2 r
          else String c (stripFences_from 0 r)
      end
  end.

Definition stripFences (s : string) : string := stripFences_from 0 s.

(** The longest prefix of [s] that ends with [c], if [c] occurs. *)
Fixpoint upToLast (c : ascii) (s : string) : option string :=
  match s with
  | "" => None
  | String d r =>
      match upToLast c r with
      | Some p => Some (String d p)
      | None => if Ascii.eqb d c then Some (String d "") else None
      end
  end.

(** [s.match(/\[[\s\S]*\]/)]: from the first opening bracket to the
    last closing bracket after it. *)
Fixpoint matchBrackets (s : string) : option string :=
  match s with
  | "" => None
  | String c r =>
      if Ascii.eqb c "[" then
        match upToLast "]" r with
        | Some p => Some (String c p)
        | None => None
        end
      else matchBrackets r
  end.

(** The value of a digit in radix 10 or 16. *)
Definition digitValue (radix : Z) (c : ascii) : option Z :=
  let n := Z.of_N (codeOf c) in
  let v := if ((48 <=? n) && (n <=? 57))%Z then Some (n - 48)%Z
           else if ((97 <=? n) && (n <=? 102))%Z then Some (n - 87)%Z
           else if ((65 <=? n) && (n <=? 70))%Z then Some (n - 55)%Z
           else None in
  match v with
  | Some d => if (d <? radix)%Z then Some d else None
  | None => None
  end.

(** The value of the longest prefix of digits, [None] when it is empty. *)
Fixpoint parseDigits (radix : Z) (s : string) (acc : option Z) : option Z :=
  match s with
  | "" => acc
  | String c r =>
      match digitValue radix c with
      | Some d => parseDigits radix r (Some (radix * default 0%Z acc + d)%Z)
      | None => acc
      end
  end.

(** [parseInt(s)] without a radix argument. *)
Definition parseIntString (s : string) : number :=
  let s := trimStart s in
  let '(negative, s) :=
    match s with
    | String "-" r => (true, r)
    | String "+" r => (false, r)
    | _ => (false, s)
    end in
  let '(radix, s) :=
    match s with
    | String "0" (String "x" r) | String "0" (String "X" r) => (16%Z, r)
    | _ => (10%Z, s)
    end in
  match parseDigits radix s None with
  | None => NaN
  | Some n => binary_normalize prec emax (if negative then - n else n)%Z 0 negative
  end.
End JsString.
Export JsString.

(** ** Runtime values *)

#[warnings="-register-all"]
Inductive Json : Type :=
  | JNull
  | JBool (b : bool)
  | JNum (n : number)
  | JStr (s : string)
  | JArr (items : list Json)
  | JObj (fields : list (string * Json)).

(** The built-ins of the host that the page relies on. *)
Class JsRuntime := {
  JSON_parse : string → option Json;          (* [None]: SyntaxError *)
  JSON_stringify : Json → string;
  JSON_stringify_indent : Json → nat → string; (* [JSON.stringify(v, null, n)] *)
  Number_toString : number → string;
  Array_maxLength : Z;                         (* the elements an array can hold *)
  Array_maxLength_bound : (0 <= Array_maxLength <= 4294967295)%Z
}.

(** Truthiness, and [a || b] where [a] is a property that may be missing. *)
Definition truthy (v : Json) : bool :=
  match v with
  | JNull => false
  | JBool b => b
  | JNum n => negb (isZero n || isNaN n)
  | JStr s => negb (String.eqb s "")
  | JArr _ | JObj _ => true
  end.

Definition orElse (a : option Json) (b : Json) : Json :=
  match a with
  | Some v => if truthy v then v else b
  | None => b
  end.

Section Conversions.
Context `{JsRuntime}.

(** [String(v)]. *)
Fixpoint ToString (v : Json) : string :=
  match v with
  | JNull => "null"
  | JBool true => "true"
  | JBool false => "false"
  | JNum n => Number_toString n
  | JStr s => s
  | JArr items =>
      join "," ((fix each (l : list Json) : list string :=
                   match l with
                   | [] => []
                   | JNull :: l' => ""%string :: each l'
                   | x :: l' => ToString x :: each l'
                   end) items)
  | JObj _ => "[object Object]"
  end.

(** [parseInt(v)]. *)
Definition parseInt (v : Json) : number := parseIntString (ToString v).

End Conversions.

(** ** Types *)

Record Client := {
  ClientID : string;
  ClientName : string;
  PriorityLevel : number;
  RequestedTaskIDs : list string;
  GroupTag : string;
  AttributesJSON : Json
}.

(** [AvailableSlots] is declared [number[]] and holds whatever
    [parseSlots] returned, which may be the result of [JSON.parse]. *)
Record Worker := {
  WorkerID : string;
  WorkerName : string;
  Skills : list string;
  AvailableSlots : Json;
  MaxLoadPerPhase : number;
  WorkerGroup : string;
  QualificationLevel : number
}.

Record Task := {
  TaskID : string;
  TaskName : string;
  Category : string;
  Duration : number;
  RequiredSkills : list string;
  PreferredPhases : Json;
  MaxConcurrent : number
}.

Inductive Severity := error | warning.

Module ValidationError.
Record t := {
  id : string;
  type : Severity;
  entityId : string;
  field : option string;
  message : string;
  suggestion : option string
}.
End ValidationError.
Abbreviation ValidationError := ValidationError.t.

Module Rule.
Record t := {
  id : string;
  type : string;
  name : string;
  description : string;
  config : Json;
  active : bool
}.
End Rule.
Abbreviation Rule := Rule.t.

Inductive EntityType := clients | workers | tasks.

Inductive Entity :=
  | EClient (c : Client)
  | EWorker (w : Worker)
  | ETask (t : Task).

(** A raw row of a parsed sheet: column name to cell. *)
Abbreviation RawRow := (gmap string Json).

(** ** Normalisation *)

Section Normalisation.
Context `{JsRuntime}.

(** [parseSlots(slotsString)]; the argument is what the caller passed,
    a string or not. *)
Definition parseSlots (slotsString : Json) : Completion Json :=
  match slotsString with
  | JStr s =>
      if startsWith s "[" && endsWith s "]" then
        match JSON_parse s with
        | Some v => Normal v
        | None => Normal (JArr [])
        end
      else
        Normal (JArr (JNum <$> List.filter (λ n, negb (isNaN n))
                        ((λ s, parseIntString (trim s)) <$> split "," s)))
  | _ => Throw "TypeError: slotsString.startsWith is not a function"
  end.

(** [array.push(x)] on an array that grows without a known bound: an
    array that holds [Array_maxLength] elements cannot grow. *)
Definition push {A} (array : list A) (x : A) : Completion (list A) :=
  if (Z.of_nat (length array) <? Array_maxLength)%Z then Normal (array ++ [x])
  else Throw "RangeError: Invalid array length".

(** [for (let i = start; i <= end; i++) result.push(i)]. *)
Fixpoint phaseLoop (fuel : nat) (i end_ : number) (result : list number)
    : Completion (list number) :=
  match fuel with
  | O => Diverge
  | S fuel' =>
      if le i end_ then
        result ←! push result i;
        phaseLoop fuel' (add i (ofZ 1)) end_ result
      else Normal result
  end.

Definition parsePhases (fuel : nat) (phasesString : Json) : Completion Json :=
  match phasesString with
  | JStr s =>
      if includes s "-" then
        match (λ s, parseIntString (trim s)) <$> split "-" s with
        | start :: end_ :: _ =>
            result ←! phaseLoop fuel start end_ []; Normal (JArr (JNum <$> result))
        | _ => Normal (JArr [])
        end
      else parseSlots phasesString
  | _ => Throw "TypeError: phasesString.includes is not a function"
  end.

(** [(cell || '').split(',').map(s => s.trim()).filter(Boolean)]. *)
Definition splitList (cell : option Json) : Completion (list string) :=
  match orElse cell (JStr "") with
  | JStr s => Normal (List.filter (λ s, negb (String.eqb s "")) (trim <$> split "," s))
  | _ => Throw "TypeError: split is not a function"
  end.

Definition parseAttributes (cell : option Json) : Json :=
  match cell with
  | Some (JStr s) =>
      match JSON_parse s with
      | Some v => v
      | None => JObj []
      end
  | _ => orElse cell (JObj [])
  end.

Definition normalizeRow (fuel : nat) (type : EntityType) (index : nat) (row : RawRow)
    : Completion Entity :=
  match type with
  | clients =>
      requested ←! splitList (row !! "RequestedTaskIDs");
      Normal (EClient {|
        ClientID := ToString (orElse (row !! "ClientID") (JStr ("C" +:+ pretty (index + 1))));
        ClientName := ToString (orElse (row !! "ClientName") (JStr "Unknown"));
        PriorityLevel := parseInt (orElse (row !! "PriorityLevel") (JStr "1"));
        RequestedTaskIDs := requested;
        GroupTag := ToString (orElse (row !! "GroupTag") (JStr "Default"));
        AttributesJSON := parseAttributes (row !! "AttributesJSON")
      |})
  | workers =>
      skills ←! splitList (row !! "Skills");
      slots ←! parseSlots (orElse (row !! "AvailableSlots") (JStr "[]"));
      Normal (EWorker {|
        WorkerID := ToString (orElse (row !! "WorkerID") (JStr ("W" +:+ pretty (index + 1))));
        WorkerName := ToString (orElse (row !! "WorkerName") (JStr "Unknown"));
        Skills := skills;
        AvailableSlots := slots;
        MaxLoadPerPhase := parseInt (orElse (row !! "MaxLoadPerPhase") (JStr "1"));
        WorkerGroup := ToString (orElse (row !! "WorkerGroup") (JStr "Default"));
        QualificationLevel := parseInt (orElse (row !! "QualificationLevel") (JStr "1"))
      |})
  | tasks =>
      skills ←! splitList (row !! "RequiredSkills");
      phases ←! parsePhases fuel (orElse (row !! "PreferredPhases") (JStr "[]"));
      Normal (ETask {|
        TaskID := ToString (orElse (row !! "TaskID") (JStr ("T" +:+ pretty (index + 1))));
        TaskName := ToString (orElse (row !! "TaskName") (JStr "Unknown"));
        Category := ToString (orElse (row !! "Category") (JStr "General"));
        Duration := parseInt (orElse (row !! "Duration") (JStr "1"));
        RequiredSkills := skills;
        PreferredPhases := phases;
        MaxConcurrent := parseInt (orElse (row !! "MaxConcurrent") (JStr "1"))
      |})
  end.

Definition normalizeData (fuel : nat) (rawData : list RawRow) (type : EntityType)
    : Completion (list Entity) :=
  cmapi (normalizeRow fuel type) rawData.

End Normalisation.

(** ** Validation *)

Section Validation.
Context `{JsRuntime}.

Definition dupClientError (client : Client) : ValidationError := {|
  ValidationError.id := "dup-client-" +:+ ClientID client;
  ValidationError.type := error;
  ValidationError.entityId := ClientID client;
  ValidationError.field := Some "ClientID";
  ValidationError.message := "Duplicate Client ID: " +:+ ClientID client;
  ValidationError.suggestion := Some "Use unique IDs for each client"
|}.

Definition priorityError (client : Client) : ValidationError := {|
  ValidationError.id := "priority-" +:+ ClientID client;
  ValidationError.type := error;
  ValidationError.entityId := ClientID client;
  ValidationError.field := Some "PriorityLevel";
  ValidationError.message :=
    "Priority must be 1-5, got " +:+ Number_toString (PriorityLevel client);
  ValidationError.suggestion := Some "Set priority between 1 and 5"
|}.

Definition unknownTaskError (client : Client) (taskId : string) : ValidationError := {|
  ValidationError.id := "unknown-task-" +:+ ClientID client +:+ "-" +:+ taskId;
  ValidationError.type := error;
  ValidationError.entityId := ClientID client;
  ValidationError.field := Some "RequestedTaskIDs";
  ValidationError.message := "Unknown task ID: " +:+ taskId;
  ValidationError.suggestion := Some "Remove invalid task ID or add corresponding task"
|}.

Definition dupWorkerError (worker : Worker) : ValidationError := {|
  ValidationError.id := "dup-worker-" +:+ WorkerID worker;
  ValidationError.type := error;
  ValidationError.entityId := WorkerID worker;
  ValidationError.field := Some "WorkerID";
  ValidationError.message := "Duplicate Worker ID: " +:+ WorkerID worker;
  ValidationError.suggestion := Some "Use unique IDs for each worker"
|}.

Definition qualificationError (worker : Worker) : ValidationError := {|
  ValidationError.id := "qual-" +:+ WorkerID worker;
  ValidationError.type := error;
  ValidationError.entityId := WorkerID worker;
  ValidationError.field := Some "QualificationLevel";
  ValidationError.message :=
    "Qualification must be 1-5, got " +:+ Number_toString (QualificationLevel worker);
  ValidationError.suggestion := Some "Set qualification between 1 and 5"
|}.

Definition durationError (task : Task) : ValidationError := {|
  ValidationError.id := "duration-" +:+ TaskID task;
  ValidationError.type := error;
  ValidationError.entityId := TaskID task;
  ValidationError.field := Some "Duration";
  ValidationError.message :=
    "Duration must be at least 1, got " +:+ Number_toString (Duration task);
  ValidationError.suggestion := Some "Set duration to positive number"
|}.

(** [x < 1 || x > 5]. *)
Definition outOfRange (x : number) : bool := lt x (ofZ 1) || gt x (ofZ 5).

(** Body of the first [clients.forEach]: the state is the set
    [clientIds] and the array [errors]. *)
Definition checkClient (st : gset string * list ValidationError) (client : Client)
    : gset string * list ValidationError :=
  let '(clientIds, errors) := st in
  let errors :=
    if decide (ClientID client ∈ clientIds)
    then errors ++ [dupClientError client] else errors in
  let clientIds := {[ClientID client]} ∪ clientIds in
  let errors :=
    if outOfRange (PriorityLevel client)
    then errors ++ [priorityError client] else errors in
  (clientIds, errors).

(** Body of the second [clients.forEach].  [RequestedTaskIDs] is an
    array by its type, so [Array.isArray] selects the first branch. *)
Definition checkTaskReferences (taskIds : gset string)
    (errors : list ValidationError) (client : Client) : list ValidationError :=
  let requestedTaskIds := RequestedTaskIDs client in
  foldl (λ errors taskId,
           if decide (taskId ∉ taskIds)
           then errors ++ [unknownTaskError client taskId] else errors)
        errors requestedTaskIds.

Definition checkWorker (st : gset string * list ValidationError) (worker : Worker)
    : gset string * list ValidationError :=
  let '(workerIds, errors) := st in
  let errors :=
    if decide (WorkerID worker ∈ workerIds)
    then errors ++ [dupWorkerError worker] else errors in
  let workerIds := {[WorkerID worker]} ∪ workerIds in
  let errors :=
    if outOfRange (QualificationLevel worker)
    then errors ++ [qualificationError worker] else errors in
  (workerIds, errors).

Definition checkTask (errors : list ValidationError) (task : Task)
    : list ValidationError :=
  if lt (Duration task) (ofZ 1) then errors ++ [durationError task] else errors.

Definition validateData (clients : list Client) (workers : list Worker)
    (tasks : list Task) : list ValidationError :=
  let errors : list ValidationError := [] in
  let '(clientIds, errors) := foldl checkClient (∅, errors) clients in
  let taskIds : gset string := list_to_set (TaskID <$> tasks) in
  let errors := foldl (checkTaskReferences taskIds) errors clients in
  let '(workerIds, errors) := foldl checkWorker (∅, errors) workers in
  let errors := foldl checkTask errors tasks in
  errors.

End Validation.

(** ** Gemini client *)

Definition dquote : string := String (ascii_of_nat 34) "".
Definition newline : string := String (ascii_of_nat 10) "".

(** What the HTTP request of [generateContent] may come to. *)
Inductive FetchOutcome :=
  | FetchRejects                                  (* [fetch] or [response.json()] throws *)
  | FetchNotOk (status : Z) (errorText : string)  (* [!response.ok] *)
  | FetchOk (text : option string).               (* [candidates?.[0]?.content?.parts?.[0]?.text] *)

Record GeminiAI := {
  apiKey : option string;
  fetch : string → string → FetchOutcome   (* key, prompt *)
}.

Inductive SearchSource := ai | local.

Record SearchResult := {
  results : list Json;
  source : SearchSource
}.

Section Gemini.
Context `{JsRuntime}.

Definition generateContent (this : GeminiAI) (prompt : string) : string :=
  match apiKey this with
  | None | Some "" => "API key not configured"
  | Some key =>
      match fetch this key prompt with
      | FetchRejects | FetchNotOk _ _ => "AI temporarily unavailable"
      | FetchOk None | FetchOk (Some "") => "AI temporarily unavailable"
      | FetchOk (Some result) => result
      end
  end.

Definition searchPrompt (query : string) (data : list Json) : string :=
  newline +:+
  "    Search this data based on the query: " +:+ dquote +:+ query +:+ dquote +:+ newline +:+
  "    " +:+ newline +:+
  "    Data: " +:+ JSON_stringify (JArr (take 20 data)) +:+ newline +:+
  "    " +:+ newline +:+
  "    Return matching items as JSON array. Look for:
    - Text matches in names, categories, skills
    - Numeric comparisons (>, <, =)
    - Skill requirements
    - Phase preferences
    - Priority levels
    - Duration values
    
    Query examples:
    - " +:+ dquote +:+ "tasks with duration > 2" +:+ dquote +:+ "
    - " +:+ dquote +:+ "workers with coding skills" +:+ dquote +:+ "
    - " +:+ dquote +:+ "clients with priority 5" +:+ dquote +:+ "
    - " +:+ dquote +:+ "high priority clients" +:+ dquote +:+ "
    - " +:+ dquote +:+ "short duration tasks" +:+ dquote +:+ "
    
    Return only the matching items as a JSON array. If no matches found, return empty array [].
    ".

(** The [try] block of [searchData]. *)
Definition aiSearch (this : GeminiAI) (query : string) (data : list Json)
    : Completion (list Json) :=
  let response := generateContent this (searchPrompt query data) in
  if String.eqb response "API key not configured"
     || String.eqb response "AI temporarily unavailable"
  then Throw response
  else
    let cleanedResponse := trim (stripFences response) in
    parsedResults ←!
      match JSON_parse cleanedResponse with
      | Some v => Normal v
      | None =>
          match matchBrackets cleanedResponse with
          | Some jsonMatch =>
              match JSON_parse jsonMatch with
              | Some v => Normal v
              | None => Throw "SyntaxError"
              end
          | None => Throw "No valid JSON found in response"
          end
      end;
    match parsedResults with
    | JArr items => Normal (take 20 items)
    | _ => Throw "Response is not an array"
    end.

(** The [catch] block of [searchData]. *)
Definition localSearch (query : string) (data : list Json) : list Json :=
  take 20 (List.filter (λ item,
             let searchLower := toLowerCase query in
             let itemString := toLowerCase (JSON_stringify item) in
             includes itemString searchLower) data).

Definition searchData (this : GeminiAI) (query : string) (data : list Json)
    : SearchResult :=
  if String.eqb (trim query) "" || (length data =? 0)%nat then
    {| results := []; source := local |}
  else
    match aiSearch this query data with
    | Normal parsed => {| results := parsed; source := ai |}
    | _ => {| results := localSearch query data; source := local |}
    end.

End Gemini.

(** ** The component: state, upload, export, data quality *)

Record PriorityWeights := {
  priorityLevel : number;
  taskFulfillment : number;
  fairness : number;
  workloadBalance : number;
  skillMatch : number
}.

Module State.
Record t := {
  clients : list Client;
  workers : list Worker;
  tasks : list Task;
  errors : list ValidationError;
  rules : list Rule;
  priorityWeights : PriorityWeights
}.
End State.
Abbreviation State := State.t.

(** An object is its properties in insertion order; a sheet is the row
    objects handed to [json_to_sheet]; a workbook is its sheets in the
    order they were appended. *)
Abbreviation Object := (list (string * Json)).
Definition Sheet := list Object.
Definition Workbook := list (string * Sheet).

Definition json_to_sheet (rows : list Object) : Sheet := rows.
Definition book_new : Workbook := [].
Definition book_append_sheet (workbook : Workbook) (sheet : Sheet) (name : string)
    : Workbook :=
  workbook ++ [(name, sheet)].

(** [{...o, [key]: value}]: an existing property keeps its place. *)
Fixpoint setProperty (key : string) (value : Json) (o : Object) : Object :=
  match o with
  | [] => [(key, value)]
  | (k, v) :: o' =>
      if String.eqb k key then (k, value) :: o' else (k, v) :: setProperty key value o'
  end.

Definition getProperty (key : string) (o : Object) : option Json :=
  snd <$> List.find (λ kv, String.eqb (fst kv) key) o.

Definition strings (l : list string) : Json := JArr (JStr <$> l).

Definition clientObject (c : Client) : Object :=
  [ ("ClientID", JStr (ClientID c)); ("ClientName", JStr (ClientName c));
    ("PriorityLevel", JNum (PriorityLevel c));
    ("RequestedTaskIDs", strings (RequestedTaskIDs c));
    ("GroupTag", JStr (GroupTag c)); ("AttributesJSON", AttributesJSON c) ].

Definition workerObject (w : Worker) : Object :=
  [ ("WorkerID", JStr (WorkerID w)); ("WorkerName", JStr (WorkerName w));
    ("Skills", strings (Skills w)); ("AvailableSlots", AvailableSlots w);
    ("MaxLoadPerPhase", JNum (MaxLoadPerPhase w));
    ("WorkerGroup", JStr (WorkerGroup w));
    ("QualificationLevel", JNum (QualificationLevel w)) ].

Definition taskObject (t : Task) : Object :=
  [ ("TaskID", JStr (TaskID t)); ("TaskName", JStr (TaskName t));
    ("Category", JStr (Category t)); ("Duration", JNum (Duration t));
    ("RequiredSkills", strings (RequiredSkills t));
    ("PreferredPhases", PreferredPhases t);
    ("MaxConcurrent", JNum (MaxConcurrent t)) ].

Definition ruleObject (r : Rule) : Object :=
  [ ("id", JStr (Rule.id r)); ("type", JStr (Rule.type r));
    ("name", JStr (Rule.name r)); ("description", JStr (Rule.description r));
    ("config", Rule.config r); ("active", JBool (Rule.active r)) ].

Definition weightsObject (w : PriorityWeights) : Object :=
  [ ("priorityLevel", JNum (priorityLevel w));
    ("taskFulfillment", JNum (taskFulfillment w));
    ("fairness", JNum (fairness w));
    ("workloadBalance", JNum (workloadBalance w));
    ("skillMatch", JNum (skillMatch w)) ].

Definition asClients (l : list Entity) : list Client :=
  omap (λ e, match e with EClient c => Some c | _ => None end) l.
Definition asWorkers (l : list Entity) : list Worker :=
  omap (λ e, match e with EWorker w => Some w | _ => None end) l.
Definition asTasks (l : list Entity) : list Task :=
  omap (λ e, match e with ETask t => Some t | _ => None end) l.

Section Component.
Context `{JsRuntime}.

(** [handleFileUpload] once the file is parsed into [rawData]: the
    state after the deferred validation has run.  An exception is
    caught and leaves the data as it was. *)
Definition handleFileUpload (fuel : nat) (rawData : list RawRow) (type : EntityType)
    (st : State) : Completion State :=
  match normalizeData fuel rawData type with
  | Normal normalizedData =>
      let clients' := match type with clients => asClients normalizedData
                                    | _ => State.clients st end in
      let workers' := match type with workers => asWorkers normalizedData
                                    | _ => State.workers st end in
      let tasks' := match type with tasks => asTasks normalizedData
                                  | _ => State.tasks st end in
      Normal {| State.clients := clients';
                State.workers := workers';
                State.tasks := tasks';
                State.errors := validateData clients' workers' tasks';
                State.rules := State.rules st;
                State.priorityWeights := State.priorityWeights st |}
  | Throw _ => Normal st
  | Diverge => Diverge
  end.

Definition clientRow (c : Client) : Object :=
  setProperty "AttributesJSON" (JStr (JSON_stringify (AttributesJSON c)))
    (setProperty "RequestedTaskIDs" (JStr (join "," (RequestedTaskIDs c)))
       (clientObject c)).

Definition workerRow (w : Worker) : Object :=
  setProperty "AvailableSlots" (JStr (JSON_stringify (AvailableSlots w)))
    (setProperty "Skills" (JStr (join "," (Skills w))) (workerObject w)).

Definition taskRow (t : Task) : Object :=
  setProperty "PreferredPhases" (JStr (JSON_stringify (PreferredPhases t)))
    (setProperty "RequiredSkills" (JStr (join "," (RequiredSkills t))) (taskObject t)).

(** [exportData]: the workbook written to [data-alchemist-export.xlsx]
    and the text of [rules-config.json]. *)
Definition exportData (st : State) : Workbook * string :=
  let workbook := book_new in
  let clientsSheet := json_to_sheet (clientRow <$> State.clients st) in
  let workbook := book_append_sheet workbook clientsSheet "Clients" in
  let workersSheet := json_to_sheet (workerRow <$> State.workers st) in
  let workbook := book_append_sheet workbook workersSheet "Workers" in
  let tasksSheet := json_to_sheet (taskRow <$> State.tasks st) in
  let workbook := book_append_sheet workbook tasksSheet "Tasks" in
  let rulesBlob :=
    JSON_stringify_indent
      (JObj [ ("rules", JArr (JObj <$> (ruleObject <$> State.rules st)));
              ("priorityWeights", JObj (weightsObject (State.priorityWeights st))) ])
      2 in
  (workbook, rulesBlob).

End Component.

Definition totalRecords (st : State) : number :=
  ofNat (length (State.clients st) + length (State.workers st) + length (State.tasks st)).

Definition isError (e : ValidationError) : bool :=
  match ValidationError.type e with error => true | warning => false end.
Definition isWarning (e : ValidationError) : bool :=
  match ValidationError.type e with warning => true | error => false end.

Definition errorCount (st : State) : number :=
  ofNat (length (List.filter isError (State.errors st))).
Definition warningCount (st : State) : number :=
  ofNat (length (List.filter isWarning (State.errors st))).

(** [calculateDataQuality], with the three counts it closes over as
    arguments. *)
Definition calculateDataQuality (totalRecords errorCount warningCount : number)
    : number :=
  if SFeqb totalRecords (ofZ 0) then ofZ 100
  else
    let validRecords := sub totalRecords errorCount in
    let baseQuality := Math_max (ofZ 0) (mul (div validRecords totalRecords) (ofZ 100)) in
    let warningPenalty := mul (div warningCount totalRecords) (ofZ 10) in
    Math_max (ofZ 0) (Math_min (ofZ 100) (Math_round (sub baseQuality warningPenalty))).

Definition dataQuality (st : State) : number :=
  calculateDataQuality (totalRecords st) (errorCount st) (warningCount st).

(** ** Vocabulary of the properties *)

(** The errors are told apart by the field they report. *)
Definition hasField (f : string) (e : ValidationError) : bool :=
  match ValidationError.field e with
  | Some g => String.eqb g f
  | None => false
  end.

(** The elements of [l], read from index [i] of [whole], whose key
    occurs among the first elements of [whole], before their own index. *)
Fixpoint repeatedFrom {A} (key : A → string) (whole : list A) (i : nat) (l : list A)
    : list A :=
  match l with
  | [] => []
  | x :: l' =>
      (if bool_decide (key x ∈ key <$> take i whole) then [x] else [])
        ++ repeatedFrom key whole (S i) l'
  end.

Definition repeated {A} (key : A → string) (l : list A) : list A :=
  repeatedFrom key l 0 l.

(** What one iteration of each loop pushes. *)
Section Pushes.
Context `{JsRuntime}.

Definition clientPushes (clientIds : gset string) (client : Client)
    : list ValidationError :=
  (if decide (ClientID client ∈ clientIds) then [dupClientError client] else [])
    ++ (if outOfRange (PriorityLevel client) then [priorityError client] else []).

Definition workerPushes (workerIds : gset string) (worker : Worker)
    : list ValidationError :=
  (if decide (WorkerID worker ∈ workerIds) then [dupWorkerError worker] else [])
    ++ (if outOfRange (QualificationLevel worker) then [qualificationError worker] else []).

Fixpoint clientErrors (seen : gset string) (l : list Client) : list ValidationError :=
  match l with
  | [] => []
  | c :: l' => clientPushes seen c ++ clientErrors ({[ClientID c]} ∪ seen) l'
  end.

Fixpoint workerErrors (seen : gset string) (l : list Worker) : list ValidationError :=
  match l with
  | [] => []
  | w :: l' => workerPushes seen w ++ workerErrors ({[WorkerID w]} ∪ seen) l'
  end.

Definition unknownTasks (tasks : list Task) (client : Client) : list ValidationError :=
  unknownTaskError client
    <$> List.filter (λ taskId, bool_decide (taskId ∉ TaskID <$> tasks))
          (RequestedTaskIDs client).

Definition durationErrors (tasks : list Task) : list ValidationError :=
  durationError <$> List.filter (λ t, lt (Duration t) (ofZ 1)) tasks.

End Pushes.

(** ** A small host, for the examples *)

Module Demo.

(** Prints the integers; any other number prints as [NaN]. *)
Definition numberToString (n : number) : string :=
  match n with
  | S754_zero _ => "0"
  | S754_finite s m e =>
      let v := (if (0 <=? e)%Z then Zpos m * 2 ^ e
                else if (Zpos m mod 2 ^ (- e) =? 0)%Z then Zpos m / 2 ^ (- e)
                else -1)%Z in
      if (v <? 0)%Z then "NaN"
      else (if s then "-" else "") +:+ pretty v
  | S754_infinity s => (if s then "-" else "") +:+ "Infinity"
  | S754_nan => "NaN"
  end.

Fixpoint stringify (v : Json) : string :=
  match v with
  | JNull => "null"
  | JBool true => "true"
  | JBool false => "false"
  | JNum n => numberToString n
  | JStr s => dquote +:+ s +:+ dquote
  | JArr items =>
      "[" +:+ join "," ((fix each (l : list Json) : list string :=
                           match l with
                           | [] => []
                           | x :: l' => stringify x :: each l'
                           end) items) +:+ "]"
  | JObj fields =>
      "{" +:+ join "," ((fix each (l : list (string * Json)) : list string :=
                           match l with
                           | [] => []
                           | (k, x) :: l' =>
                               (dquote +:+ k +:+ dquote +:+ ":" +:+ stringify x) :: each l'
                           end) fields) +:+ "}"
  end.

(** Parses the empty array and the empty object, and rejects the rest. *)
Definition parse (s : string) : option Json :=
  if String.eqb s "[]" then Some (JArr [])
  else if String.eqb s "{}" then Some (JObj [])
  else None.

Definition runtime : JsRuntime := {|
  JSON_parse := parse;
  JSON_stringify := stringify;
  JSON_stringify_indent := λ v _, stringify v;
  Number_toString := numberToString;
  Array_maxLength := 4294967295;
  Array_maxLength_bound := ltac:(split; intros Hgt; discriminate Hgt)
|}.

End Demo.

(** The setters of the two configuration values. *)
Definition setRules (rules : list Rule) (st : State) : State := {|
  State.clients := State.clients st;
  State.workers := State.workers st;
  State.tasks := State.tasks st;
  State.errors := State.errors st;
  State.rules := rules;
  State.priorityWeights := State.priorityWeights st
|}.

Definition setPriorityWeights (weights : PriorityWeights) (st : State) : State := {|
  State.clients := State.clients st;
  State.workers := State.workers st;
  State.tasks := State.tasks st;
  State.errors := State.errors st;
  State.rules := State.rules st;
  State.priorityWeights := weights
|}.

(** The part of the state that holds the data and its errors. *)
Definition dataOf (st : State)
    : list Client * list Worker * list Task * list ValidationError :=
  (State.clients st, State.workers st, State.tasks st, State.errors st).

Definition cmap {A B} (f : A → B) (c : Completion A) : Completion B :=
  x ←! c; Normal (f x).

(** Sample records for the examples. *)
Module Sample.

Definition row : RawRow :=
  {[ "TaskID" := JStr "T1"; "PreferredPhases" := JNum (ofZ 2) ]}.

Definition alice : Json := JObj [("ClientName", JStr "Alice")].
Definition bob : Json := JObj [("ClientName", JStr "Bob")].

Definition offline : GeminiAI :=
  {| apiKey := None; fetch := λ _ _, FetchRejects |}.

Definition client (id : string) (priority : Z) (requested : list string) : Client :=
  {| ClientID := id; ClientName := "Acme"; PriorityLevel := ofZ priority;
     RequestedTaskIDs := requested; GroupTag := "GroupA"; AttributesJSON := JObj [] |}.

Definition worker (id : string) (qualification : Z) : Worker :=
  {| WorkerID := id; WorkerName := "Ada"; Skills := ["coding"];
     AvailableSlots := JArr [JNum (ofZ 1)]; MaxLoadPerPhase := ofZ 2;
     WorkerGroup := "GroupA"; QualificationLevel := ofZ qualification |}.

Definition task (id : string) (duration : Z) : Task :=
  {| TaskID := id; TaskName := "Build"; Category := "ETL"; Duration := ofZ duration;
     RequiredSkills := ["coding"]; PreferredPhases := JArr [JNum (ofZ 1)];
     MaxConcurrent := ofZ 1 |}.

End Sample.

(** The binary64 representation of the integer [p], signed by [s], for
    [p] of at most 53 binary digits. *)
Definition canon (s : bool) (p : positive) : number :=
  let d := Zpos (digits2_pos p) in
  S754_finite s (Z.to_pos (Zpos p * 2 ^ (prec - d))) (d - prec).

(** A number that is a zero or finite, of magnitude below [2^B]. *)
Definition magLe (B : Z) (x : number) : Prop :=
  match x with
  | S754_zero _ => True
  | S754_finite _ m e => (Zpos (digits2_pos m) + e <= B)%Z
  | _ => False
  end.

(** A number that is not NaN, with its sign when it is not a zero. *)
Definition signed (s : bool) (x : number) : Prop :=
  match x with
  | S754_zero _ => True
  | S754_finite s' _ _ | S754_infinity s' => s' = s
  | S754_nan => False
  end.


(** Membership of a concrete field in a concrete list of fields. *)
Ltac field_in_list := apply list_elem_of_In; cbn; tauto.

(** The four outcomes of an iteration over a client or a worker. *)
Ltac pushes_cases :=
  unfold clientPushes, workerPushes;
  destruct (decide _), (outOfRange _); cbn [app].

(** ** Gemini client: rules and corrections *)

Definition quoted (s : string) : string := dquote +:+ s +:+ dquote.

Definition severityName (s : Severity) : string :=
  match s with error => "error" | warning => "warning" end.

(** A validation error as the object the page builds; an optional
    property that was not given is absent. *)
Definition errorObject (e : ValidationError) : Object :=
  [ ("id", JStr (ValidationError.id e));
    ("type", JStr (severityName (ValidationError.type e)));
    ("entityId", JStr (ValidationError.entityId e)) ]
  ++ match ValidationError.field e with Some f => [("field", JStr f)] | None => [] end
  ++ [ ("message", JStr (ValidationError.message e)) ]
  ++ match ValidationError.suggestion e with
     | Some s => [("suggestion", JStr s)]
     | None => []
     end.

(** [a || b] for an optional string [a]. *)
Definition orText (a : option string) (b : string) : string :=
  match a with
  | Some s => if String.eqb s "" then b else s
  | None => b
  end.

(** [{...v}]: the own enumerable properties of [v], in the order the
    spread copies them. *)
Definition spread (v : Json) : Object :=
  match v with
  | JObj fields => fields
  | JArr items => imap (λ i x, (pretty i, x)) items
  | JStr s => imap (λ i c, (pretty i, JStr (String c ""))) (list_ascii_of_string s)
  | _ => []
  end.

Section Assistant.
Context `{JsRuntime}.

Definition rulePrompt (description : string) : string :=
  "
    Convert this business rule description to a structured rule:
    " +:+ quoted description +:+ "
    
    Return JSON with:
    {
      " +:+ quoted "type" +:+ ": " +:+ quoted "coRun|loadLimit|phaseWindow|slotRestriction" +:+ ",
      " +:+ quoted "name" +:+ ": " +:+ quoted "rule name" +:+ ",
      " +:+ quoted "description" +:+ ": " +:+ quoted "clear description" +:+ ", 
      " +:+ quoted "config" +:+ ": " +:+ quoted "rule configuration" +:+ "
    }
    
    Examples:
    - " +:+ quoted "Tasks T1 and T2 should run together" +:+ " → coRun rule
    - " +:+ quoted "GroupA workers max 2 tasks per phase" +:+ " → loadLimit rule
    ".

Definition customRule (now : number) (description : string) : gmap string Json :=
  {[ "id" := JStr ("rule-" +:+ Number_toString now);
     "type" := JStr "custom";
     "name" := JStr "Custom Rule";
     "description" := JStr description;
     "config" := JObj [];
     "active" := JBool true ]}.

(** [convertToRule(description)], with the value of [Date.now()] as
    [now].  The rule is the object the method returns, as the map of
    its properties. *)
Definition convertToRule (this : GeminiAI) (now : number) (description : string)
    : gmap string Json :=
  let response := generateContent this (rulePrompt description) in
  match JSON_parse (stripFences response) with
  | Some parsed =>
      <["active" := JBool true]>
        (foldl (λ rule kv, <[kv.1 := kv.2]> rule)
               {[ "id" := JStr ("rule-" +:+ Number_toString now) ]}
               (spread parsed))
  | None => customRule now description
  end.

Definition correctionsPrompt (errors : list ValidationError) : string :=
  "
    Suggest corrections for these data errors. Analyze ALL errors and provide fixes for each one:
    " +:+ JSON_stringify (JArr (JObj <$> (errorObject <$> errors))) +:+ "
    
    Return JSON array with corrections for ALL errors. Each correction should have:
    {
      " +:+ quoted "entityId" +:+ ": " +:+ quoted "ID" +:+ ",
      " +:+ quoted "field" +:+ ": " +:+ quoted "field name" +:+ ", 
      " +:+ quoted "currentValue" +:+ ": " +:+ quoted "current value" +:+ ",
      " +:+ quoted "suggestedValue" +:+ ": " +:+ quoted "suggested fix" +:+ ",
      " +:+ quoted "reason" +:+ ": " +:+ quoted "why this fix" +:+ "
    }
    
    Error Type Guidelines:
    - Duplicate IDs: Suggest unique alternatives (e.g., C1 → C1_updated)
    - Invalid Priority/Qualification: Suggest values between 1-5
    - Unknown Task IDs: Suggest removing invalid IDs or valid alternatives
    - Invalid Duration: Suggest positive numbers
    - Missing Skills: Suggest common skills or empty array
    - Invalid Arrays: Suggest proper array format
    
    Important:
    - Provide fixes for ALL " +:+ Number_toString (ofNat (length errors)) +:+ " errors, not just some
    - Each error must have exactly one correction
    - Return exactly " +:+ Number_toString (ofNat (length errors)) +:+ " corrections
    - Make suggestions practical and actionable
    ".

(** The [try] block of [suggestCorrections]. *)
Definition aiCorrections (this : GeminiAI) (errors : list ValidationError)
    : Completion (list Json) :=
  let response := generateContent this (correctionsPrompt errors) in
  let cleanedResponse := trim (stripFences response) in
  parsedResults ←!
    match JSON_parse cleanedResponse with
    | Some v => Normal v
    | None =>
        match matchBrackets cleanedResponse with
        | Some jsonMatch =>
            match JSON_parse jsonMatch with
            | Some v => Normal v
            | None => Throw "SyntaxError"
            end
        | None => Throw "No valid JSON found in response"
        end
    end;
  match parsedResults with
  | JArr items => Normal items
  | _ => Throw "Response is not an array"
  end.

(** The correction the [catch] block builds for one error. *)
Definition basicCorrection (error : ValidationError) : Object :=
  [ ("entityId", JStr (ValidationError.entityId error));
    ("field", JStr (orText (ValidationError.field error) "unknown"));
    ("currentValue", JStr "unknown");
    ("suggestedValue", JStr (orText (ValidationError.suggestion error) "Fix manually"));
    ("reason", JStr (ValidationError.message error)) ].

Definition suggestCorrections (this : GeminiAI) (errors : list ValidationError)
    : list Json :=
  if (length errors =? 0)%nat then []
  else
    match aiCorrections this errors with
    | Normal parsedResults => parsedResults
    | _ => JObj <$> (basicCorrection <$> errors)
    end.

(** [handleSearch]: the new values of [searchResults] and
    [searchSource]. *)
Definition allData (st : State) : list Json :=
  JObj <$> ((clientObject <$> State.clients st)
            ++ (workerObject <$> State.workers st)
            ++ (taskObject <$> State.tasks st)).

Definition handleSearch (this : GeminiAI) (searchQuery : string) (st : State)
    : list Json * option SearchSource :=
  if String.eqb (trim searchQuery) "" then ([], None)
  else
    let allData := allData st in
    let found := searchData this searchQuery allData in
    (results found, Some (source found)).

End Assistant.

(** ** Editing a cell *)

Section CellEdit.
Context `{JsRuntime}.

(** [value.split(',').map(s => s.trim()).filter(Boolean)]. *)
Definition splitText (value : string) : list string :=
  List.filter (λ s, negb (String.eqb s "")) (trim <$> split "," value).

(** [normalizeFieldValue] of [handleCellEdit]. *)
Definition normalizeFieldValue (field : string) (value : Json) : Json :=
  if String.eqb field "RequestedTaskIDs" then
    match value with
    | JArr _ => value
    | JStr s => strings (splitText s)
    | _ => JArr []
    end
  else if String.eqb field "Skills" || String.eqb field "RequiredSkills" then
    match value with
    | JArr _ => value
    | JStr s => strings (splitText s)
    | _ => JArr []
    end
  else if String.eqb field "AvailableSlots" || String.eqb field "PreferredPhases" then
    match value with
    | JArr _ => value
    | JStr s =>
        match JSON_parse s with
        | Some v => v
        | None =>
            JArr (JNum <$> List.filter (λ n, negb (isNaN n))
                    ((λ s, parseIntString (trim s)) <$> split "," s))
        end
    | _ => JArr []
    end
  else if String.eqb field "PriorityLevel" || String.eqb field "QualificationLevel"
          || String.eqb field "Duration" || String.eqb field "MaxLoadPerPhase"
          || String.eqb field "MaxConcurrent" then
    let numValue := parseInt value in
    JNum (if isNaN numValue then ofZ 1 else numValue)
  else value.

(** [c.ClientID === entityId], for the key [key] of the kind of record. *)
Definition hasId (key entityId : string) (o : Object) : bool :=
  match getProperty key o with
  | Some (JStr s) => String.eqb s entityId
  | _ => false
  end.

(** [records.map(c => c[key] === entityId ? {...c, [field]: ...} : c)]. *)
Definition editRecords (key entityId field : string) (newValue : Json)
    (records : list Object) : list Object :=
  (λ c, if hasId key entityId c
        then setProperty field (normalizeFieldValue field newValue) c
        else c) <$> records.

(** The data after [handleCellEdit]: the records of [clients],
    [workers] and [tasks].  The validation the function schedules
    runs, as in [applyCorrection], on the records it was created
    with, not on this result. *)
Definition handleCellEdit (entityId field : string) (newValue : Json)
    (data : list Object * list Object * list Object)
    : list Object * list Object * list Object :=
  let '(cs, ws, ts) := data in
  if existsb (hasId "ClientID" entityId) cs then
    (editRecords "ClientID" entityId field newValue cs, ws, ts)
  else if existsb (hasId "WorkerID" entityId) ws then
    (cs, editRecords "WorkerID" entityId field newValue ws, ts)
  else if existsb (hasId "TaskID" entityId) ts then
    (cs, ws, editRecords "TaskID" entityId field newValue ts)
  else data.

End CellEdit.

(** ** The quality label *)

(** [x >= y]. *)
Definition ge (x y : number) : bool := SFleb y x.

Record QualityInfo := {
  color : string;
  status : string
}.

Definition getDataQualityInfo (quality : number) : QualityInfo :=
  if ge quality (ofZ 90) then {| color := "text-green-600"; status := "Excellent" |}
  else if ge quality (ofZ 75) then {| color := "text-blue-600"; status := "Good" |}
  else if ge quality (ofZ 50) then {| color := "text-yellow-600"; status := "Fair" |}
  else if ge quality (ofZ 25) then {| color := "text-orange-600"; status := "Poor" |}
  else {| color := "text-red-600"; status := "Critical" |}.

(** The request of [generateContent] brings no text: the key is
    missing or empty, [fetch] rejects, the response is not [ok], or it
    has no candidate text. *)
Definition noAnswer (this : GeminiAI) (prompt : string) : Prop :=
  match apiKey this with
  | None | Some "" => True
  | Some key =>
      match fetch this key prompt with
      | FetchOk (Some (String _ _)) => False
      | _ => True
      end
  end.

(** A list entry as [splitList] yields them: not empty, trimmed, and
    free of commas. *)
Definition cleanEntry (s : string) : Prop :=
  s ≠ "" ∧ trim s = s ∧ includes s "," = false.

(** A cell that is missing or falsy, so that [cell || fallback] is the
    fallback. *)
Definition blank (cell : option Json) : Prop :=
  ∀ v, cell = Some v → truthy v = false.

(** The ID column of each kind of record, the letter of its generated
    IDs, and the ID of a record. *)
Definition idColumn (type : EntityType) : string :=
  match type with clients => "ClientID" | workers => "WorkerID" | tasks => "TaskID" end.

Definition idLetter (type : EntityType) : string :=
  match type with clients => "C" | workers => "W" | tasks => "T" end.

Definition idOf (e : Entity) : string :=
  match e with
  | EClient c => ClientID c
  | EWorker w => WorkerID w
  | ETask t => TaskID t
  end.

Definition generatedId (type : EntityType) (index : nat) : string :=
  idLetter type +:+ pretty (index + 1).

(** The label of an integer score. *)
Definition qualityBand (j : Z) : QualityInfo :=
  if (90 <=? j)%Z then {| color := "text-green-600"; status := "Excellent" |}
  else if (75 <=? j)%Z then {| color := "text-blue-600"; status := "Good" |}
  else if (50 <=? j)%Z then {| color := "text-yellow-600"; status := "Fair" |}
  else if (25 <=? j)%Z then {| color := "text-orange-600"; status := "Poor" |}
  else {| color := "text-red-600"; status := "Critical" |}.

(** What the edit of a cell does to one record: a record with the ID
    gets the value in the field and keeps its other properties, any
    other record is left as it is. *)
Definition edited (key entityId field : string) (value : Json) (o o' : Object) : Prop :=
  if hasId key entityId o
  then getProperty field o' = Some value
       ∧ ∀ k, k ≠ field → getProperty k o' = getProperty k o
  else o' = o.

Definition numericFields : list string :=
  ["PriorityLevel"; "QualificationLevel"; "Duration"; "MaxLoadPerPhase"; "MaxConcurrent"].

Definition listFields : list string := ["RequestedTaskIDs"; "Skills"; "RequiredSkills"].

(** ** Applying a correction *)

(** A correction in the shape the prompt of [suggestCorrections]
    dictates and its fallback builds; [applyCorrection] reads these
    three properties. *)
Module Correction.
Record t := {
  entityId : string;
  field : string;
  suggestedValue : Json
}.
End Correction.
Abbreviation Correction := Correction.t.

(** An element of the array of corrections, read as a correction when
    it has the three properties, the first two as strings. *)
Definition asCorrection (o : Object) : option Correction :=
  match getProperty "entityId" o, getProperty "field" o, getProperty "suggestedValue" o with
  | Some (JStr entityId), Some (JStr field), Some suggestedValue =>
      Some {| Correction.entityId := entityId; Correction.field := field;
              Correction.suggestedValue := suggestedValue |}
  | _, _, _ => None
  end.

Section ApplyCorrection.
Context `{JsRuntime}.

(** [normalizeFieldValue] of [applyCorrection]: it has no case for the
    numeric fields. *)
Definition normalizeSuggestedValue (field : string) (value : Json) : Json :=
  if String.eqb field "RequestedTaskIDs" then
    match value with
    | JArr _ => value
    | JStr s => strings (splitText s)
    | _ => JArr []
    end
  else if String.eqb field "Skills" || String.eqb field "RequiredSkills" then
    match value with
    | JArr _ => value
    | JStr s => strings (splitText s)
    | _ => JArr []
    end
  else if String.eqb field "AvailableSlots" || String.eqb field "PreferredPhases" then
    match value with
    | JArr _ => value
    | JStr s =>
        match JSON_parse s with
        | Some v => v
        | None =>
            JArr (JNum <$> List.filter (λ n, negb (isNaN n))
                    ((λ s, parseIntString (trim s)) <$> split "," s))
        end
    | _ => JArr []
    end
  else value.

(** [records.map(c => c[key] === correction.entityId ? {...} : c)]. *)
Definition correctRecords (key : string) (correction : Correction)
    (records : list Object) : list Object :=
  (λ c, if hasId key (Correction.entityId correction) c
        then setProperty (Correction.field correction)
               (normalizeSuggestedValue (Correction.field correction)
                  (Correction.suggestedValue correction)) c
        else c) <$> records.

(** [applyCorrection] on the records [cs], [ws] and [ts] of the state:
    the records after it, which a correction may leave with a value
    that is not of the type of its field, and the new value of
    [errors], computed from the records the function was created
    with. *)
Definition applyCorrection (correction : Correction)
    (cs : list Client) (ws : list Worker) (ts : list Task)
    : (list Object * list Object * list Object) * list ValidationError :=
  let clientRecords := clientObject <$> cs in
  let workerRecords := workerObject <$> ws in
  let taskRecords := taskObject <$> ts in
  let data :=
    if existsb (hasId "ClientID" (Correction.entityId correction)) clientRecords then
      (correctRecords "ClientID" correction clientRecords, workerRecords, taskRecords)
    else if existsb (hasId "WorkerID" (Correction.entityId correction)) workerRecords then
      (clientRecords, correctRecords "WorkerID" correction workerRecords, taskRecords)
    else if existsb (hasId "TaskID" (Correction.entityId correction)) taskRecords then
      (clientRecords, workerRecords, correctRecords "TaskID" correction taskRecords)
    else (clientRecords, workerRecords, taskRecords) in
  let newErrors := validateData cs ws ts in
  (data, newErrors).

End ApplyCorrection.

(** What an edit does to the three kinds of records: it reaches the
    first kind, in the order clients, workers, tasks, that has a
    record with the ID. *)
Definition editedData (entityId field : string) (value : Json)
    (data data' : list Object * list Object * list Object) : Prop :=
  let '(cs, ws, ts) := data in
  let '(cs', ws', ts') := data' in
  if existsb (hasId "ClientID" entityId) cs then
    Forall2 (edited "ClientID" entityId field value) cs cs' ∧ ws' = ws ∧ ts' = ts
  else if existsb (hasId "WorkerID" entityId) ws then
    cs' = cs ∧ Forall2 (edited "WorkerID" entityId field value) ws ws' ∧ ts' = ts
  else
    cs' = cs ∧ ws' = ws ∧ Forall2 (edited "TaskID" entityId field value) ts ts'.

(** The value a fallback correction brings into a field: the advice
    of the error, as text, or as a list of one text. *)
Definition adviceValue (field advice : string) : Json :=
  if String.eqb field "RequestedTaskIDs" then strings [advice] else JStr advice.

(** The row object of an exported sheet, read back as a raw row. *)
Definition sheetRow (o : Object) : RawRow := list_to_map o.

Section RoundTrip.
Context `{JsRuntime}.

(** A numeric cell that import reads back as the number written: it
    is truthy, so no default replaces it, and [parseInt] of its
    printed form is the number. *)
Definition numberReadBack (n : number) : Prop :=
  truthy (JNum n) = true ∧ parseIntString (Number_toString n) = n.

(** A value whose serialisation parses back to it. *)
Definition jsonReadBack (v : Json) : Prop :=
  JSON_parse (JSON_stringify v) = Some v.

End RoundTrip.

(** A text that [parseSlots] hands to [JSON.parse]. *)
Definition bracketed (s : string) : Prop :=
  startsWith s "[" && endsWith s "]" = true.

(** ** The search as you type *)

(** [\d], and the line terminators that [.] excludes, among the
    one-byte code units; [\s] is [isWhiteSpace]. *)
Definition isDigit (c : ascii) : bool :=
  let n := codeOf c in ((48 <=? n) && (n <=? 57))%N.

Definition isLineTerminator (c : ascii) : bool :=
  let n := codeOf c in ((n =? 10) || (n =? 13))%N.

(** The longest prefix of characters that satisfy [p], and the rest. *)
Fixpoint span (p : ascii → bool) (s : string) : string * string :=
  match s with
  | "" => ("", "")
  | String c r =>
      if p c then let '(run, rest) := span p r in (String c run, rest)
      else ("", s)
  end.

(** The rest of [s] after the prefix [p]. *)
Fixpoint stripPrefix (p s : string) : option string :=
  match p, s with
  | "", _ => Some s
  | String a p', String b s' => if Ascii.eqb a b then stripPrefix p' s' else None
  | String _ _, "" => None
  end.

(** [\s*([><=])\s*(\d+)] at the start of [s]: the operator and the
    digits.  The three classes are disjoint, so the greedy runs are
    the only way to match. *)
Definition comparisonHere (s : string) : option (ascii * string) :=
  match (span isWhiteSpace s).2 with
  | String operator r =>
      if Ascii.eqb operator ">" || Ascii.eqb operator "<" || Ascii.eqb operator "="
      then
        let digits := (span isDigit (span isWhiteSpace r).2).1 in
        if String.eqb digits "" then None else Some (operator, digits)
      else None
  | "" => None
  end.

(** [s.match(/word\s*([><=])\s*(\d+)/)]: the groups of the leftmost
    match. *)
Fixpoint matchComparison (word s : string) : option (ascii * string) :=
  match (match stripPrefix word s with
         | Some r => comparisonHere r
         | None => None
         end) with
  | Some groups => Some groups
  | None =>
      match s with
      | "" => None
      | String _ r => matchComparison word r
      end
  end.

(** The last character of [s] that is not a line terminator. *)
Fixpoint lastOnLine (s : string) : option ascii :=
  match s with
  | "" => None
  | String c r =>
      match lastOnLine r with
      | Some d => Some d
      | None => if isLineTerminator c then None else Some c
      end
  end.

(** [\s+(.+)] at the start of [s]: the group.  The white space is
    taken whole when a character follows it; at the end of the text
    it gives back its last character that [.] accepts. *)
Definition skillHere (s : string) : option string :=
  let '(space, rest) := span isWhiteSpace s in
  match space, rest with
  | "", _ => None
  | String _ _, String _ _ => Some (span (λ c, negb (isLineTerminator c)) rest).1
  | String _ space', "" =>
      match lastOnLine space' with
      | Some c => Some (String c "")
      | None => None
      end
  end.

(** [s.match(/skills?\s+(.+)/)]: the group of the leftmost match. *)
Fixpoint matchSkill (s : string) : option string :=
  match (match stripPrefix "skill" s with
         | Some (String "s" r) => skillHere r
         | Some r => skillHere r
         | None => None
         end) with
  | Some group => Some group
  | None =>
      match s with
      | "" => None
      | String _ r => matchSkill r
      end
  end.

(** The [switch] on the operator. *)
Definition compareBy (operator : ascii) (x y : number) : bool :=
  if Ascii.eqb operator ">" then gt x y
  else if Ascii.eqb operator "<" then lt x y
  else if Ascii.eqb operator "=" then SFeqb x y
  else false.

Definition entityObject (e : Entity) : Object :=
  match e with
  | EClient c => clientObject c
  | EWorker w => workerObject w
  | ETask t => taskObject t
  end.

Definition allEntities (st : State) : list Entity :=
  (EClient <$> State.clients st) ++ (EWorker <$> State.workers st)
  ++ (ETask <$> State.tasks st).

Section SearchChange.
Context `{JsRuntime}.

Definition hasSkill (searchLower : string) (skills : list string) : bool :=
  match matchSkill searchLower with
  | Some group =>
      let requiredSkill := trim group in
      existsb (λ skill, includes (toLowerCase skill) requiredSkill) skills
  | None => false
  end.

(** The callback of the [filter] of [handleSearchChange]. *)
Definition searchMatches (value : string) (item : Entity) : bool :=
  let searchLower := toLowerCase value in
  let itemString := toLowerCase (JSON_stringify (JObj (entityObject item))) in
  if includes itemString searchLower then true
  else
    match item with
    | ETask t =>
        match (if truthy (JStr (TaskID t)) then matchComparison "duration" searchLower
               else None) with
        | Some (operator, digits) =>
            let value := parseIntString digits in
            let duration := parseInt (JNum (Duration t)) in
            compareBy operator duration value
        | None =>
            if truthy (JStr (TaskID t)) then hasSkill searchLower (RequiredSkills t)
            else false
        end
    | EClient c =>
        match (if truthy (JStr (ClientID c)) then matchComparison "priority" searchLower
               else None) with
        | Some (operator, digits) =>
            let value := parseIntString digits in
            let priority := parseInt (JNum (PriorityLevel c)) in
            compareBy operator priority value
        | None => false
        end
    | EWorker w =>
        if truthy (JStr (WorkerID w)) then hasSkill searchLower (Skills w) else false
    end.

(** [handleSearchChange]: the new values of [searchQuery],
    [searchResults] and [searchSource]. *)
Definition handleSearchChange (value : string) (st : State)
    : string * list Json * option SearchSource :=
  if String.eqb (trim value) "" then (value, [], None)
  else
    let allData := allEntities st in
    let localResults := take 10 (List.filter (searchMatches value) allData) in
    (value, (λ item, JObj (entityObject item)) <$> localResults, Some local).

End SearchChange.

(** Texts made of characters of one class, and texts that do not
    start with one. *)
Fixpoint allChars (p : ascii → bool) (s : string) : bool :=
  match s with
  | "" => true
  | String c r => p c && allChars p r
  end.

Definition startsWithout (p : ascii → bool) (s : string) : bool :=
  match s with
  | "" => true
  | String c _ => negb (p c)
  end.

(** The comparison an operator stands for, on integers. *)
Definition compareZ (operator : ascii) (x y : Z) : bool :=
  if Ascii.eqb operator ">" then (y <? x)%Z
  else if Ascii.eqb operator "<" then (x <? y)%Z
  else (x =? y)%Z.

Definition isOperator (c : ascii) : bool :=
  Ascii.eqb c ">" || Ascii.eqb c "<" || Ascii.eqb c "=".



(** * Properties *)

(** ** The model on sample inputs *)

Example split_commas : split "," "a, b,,c" = ["a"; " b"; ""; "c"].
Proof. reflexivity. Qed.

Example split_empty : split "," "" = [""].
Proof. reflexivity. Qed.

Example trim_spaces : trim "  a b  " = "a b".
Proof. reflexivity. Qed.

Example parseInt_prefix : parseIntString "  42abc" = ofZ 42.
Proof. reflexivity. Qed.

Example parseInt_hexadecimal : parseIntString "0x1F" = ofZ 31.
Proof. reflexivity. Qed.

Example parseInt_negative_zero : parseIntString "-0" = S754_zero true.
Proof. reflexivity. Qed.

Example parseInt_no_digit : parseIntString "abc" = NaN.
Proof. reflexivity. Qed.

Example Math_round_half : Math_round (div (ofZ 5) (ofZ 2)) = ofZ 3.
Proof. reflexivity. Qed.

Example Math_round_negative_half : Math_round (div (ofZ (-5)) (ofZ 2)) = ofZ (-2).
Proof. reflexivity. Qed.

Example stripFences_block : stripFences "```json[1,2]``` x" = "[1,2] x".
Proof. reflexivity. Qed.

Example matchBrackets_greedy :
  matchBrackets "here: [1, [2], 3] and ] then" = Some "[1, [2], 3] and ]".
Proof. reflexivity. Qed.

Example validateData_sample :
  ValidationError.id
    <$> validateData (H := Demo.runtime)
          [Sample.client "C1" 3 ["T1"; "T9"]; Sample.client "C1" 7 []]
          [Sample.worker "W1" 0]
          [Sample.task "T1" 0; Sample.task "T1" 2]
  = ["dup-client-C1"; "priority-C1"; "unknown-task-C1-T9"; "qual-W1"; "duration-T1"].
Proof. reflexivity. Qed.

Example normalizeData_sample :
  normalizeData (H := Demo.runtime) 10
    [ {[ "ClientID" := JStr "C7"; "RequestedTaskIDs" := JStr "T1, T2,, T3 " ]}; ∅ ]
    clients
  = Normal
      [ EClient {| ClientID := "C7"; ClientName := "Unknown"; PriorityLevel := ofZ 1;
                   RequestedTaskIDs := ["T1"; "T2"; "T3"]; GroupTag := "Default";
                   AttributesJSON := JObj [] |};
        EClient {| ClientID := "C2"; ClientName := "Unknown"; PriorityLevel := ofZ 1;
                   RequestedTaskIDs := []; GroupTag := "Default";
                   AttributesJSON := JObj [] |} ].
Proof. reflexivity. Qed.

Example parsePhases_sample :
  parsePhases (H := Demo.runtime) 10 (JStr "1 - 3")
  = Normal (JArr [JNum (ofZ 1); JNum (ofZ 2); JNum (ofZ 3)]).
Proof. reflexivity. Qed.

Example parseSlots_sample :
  parseSlots (H := Demo.runtime) (JStr "1, x, 3")
  = Normal (JArr [JNum (ofZ 1); JNum (ofZ 3)]).
Proof. reflexivity. Qed.

Example calculateDataQuality_sample :
  calculateDataQuality (ofNat 10) (ofNat 3) (ofNat 1) = ofZ 69.
Proof. reflexivity. Qed.

Example calculateDataQuality_more_errors_than_records :
  calculateDataQuality (ofNat 3) (ofNat 100) (ofNat 0) = ofZ 0.
Proof. reflexivity. Qed.

Example searchData_blank_query :
  searchData (H := Demo.runtime) Sample.offline "  " [Sample.alice]
  = {| results := []; source := local |}.
Proof. reflexivity. Qed.

(** ** Validation: the shape of the error array *)

Section ValidationFacts.
Context `{JsRuntime}.

Lemma checkClient_pushes ids errs c :
  checkClient (ids, errs) c = ({[ClientID c]} ∪ ids, errs ++ clientPushes ids c).
Proof.
  unfold checkClient, clientPushes.
  destruct (decide _), (outOfRange _); simpl;
    rewrite <- ?app_assoc, ?app_nil_r; reflexivity.
Qed.

Lemma checkWorker_pushes ids errs w :
  checkWorker (ids, errs) w = ({[WorkerID w]} ∪ ids, errs ++ workerPushes ids w).
Proof.
  unfold checkWorker, workerPushes.
  destruct (decide _), (outOfRange _); simpl;
    rewrite <- ?app_assoc, ?app_nil_r; reflexivity.
Qed.

Lemma foldl_checkClient l : ∀ ids errs,
  (foldl checkClient (ids, errs) l).2 = errs ++ clientErrors ids l.
Proof.
  induction l as [|c l IH]; intros ids errs; cbn [foldl clientErrors workerErrors].
  - by rewrite app_nil_r.
  - rewrite checkClient_pushes, IH. by rewrite app_assoc.
Qed.

Lemma foldl_checkWorker l : ∀ ids errs,
  (foldl checkWorker (ids, errs) l).2 = errs ++ workerErrors ids l.
Proof.
  induction l as [|w l IH]; intros ids errs; cbn [foldl clientErrors workerErrors].
  - by rewrite app_nil_r.
  - rewrite checkWorker_pushes, IH. by rewrite app_assoc.
Qed.

Lemma checkTaskReferences_pushes ts c errs :
  checkTaskReferences (list_to_set (TaskID <$> ts)) errs c = errs ++ unknownTasks ts c.
Proof.
  unfold checkTaskReferences, unknownTasks.
  generalize (RequestedTaskIDs c) as ids. intros ids. revert errs.
  induction ids as [|taskId ids IH]; intros errs; cbn [foldl List.filter].
  - by rewrite app_nil_r.
  - rewrite IH. destruct (decide _) as [Hn|Hn].
    + rewrite bool_decide_eq_true_2.
      * cbn [fmap list_fmap]. by rewrite <- app_assoc.
      * intros Hin. apply Hn. by apply elem_of_list_to_set.
    + rewrite bool_decide_eq_false_2; [done|].
      intros Hnot. apply Hn. intros Hin. apply Hnot.
      by apply elem_of_list_to_set in Hin.
Qed.

Lemma foldl_checkTaskReferences ts l : ∀ errs,
  foldl (checkTaskReferences (list_to_set (TaskID <$> ts))) errs l
  = errs ++ flat_map (unknownTasks ts) l.
Proof.
  induction l as [|c l IH]; intros errs; cbn [foldl flat_map].
  - by rewrite app_nil_r.
  - rewrite checkTaskReferences_pushes, IH. by rewrite app_assoc.
Qed.

Lemma foldl_checkTask l : ∀ errs,
  foldl checkTask errs l = errs ++ durationErrors l.
Proof.
  unfold durationErrors.
  induction l as [|t l IH]; intros errs; cbn [foldl List.filter].
  - by rewrite app_nil_r.
  - rewrite IH. unfold checkTask. destruct (lt _ _); cbn [fmap list_fmap].
    + by rewrite <- app_assoc.
    + done.
Qed.

(** The four loops push four consecutive segments. *)
Lemma validateData_segments cs ws ts :
  validateData cs ws ts
  = clientErrors ∅ cs ++ flat_map (unknownTasks ts) cs
      ++ workerErrors ∅ ws ++ durationErrors ts.
Proof.
  unfold validateData.
  pose proof (foldl_checkClient cs ∅ []) as Hc.
  destruct (foldl checkClient (∅, []) cs) as [ids1 e1]. simpl in Hc. subst e1.
  rewrite foldl_checkTaskReferences.
  pose proof (foldl_checkWorker ws ∅ (clientErrors ∅ cs ++ flat_map (unknownTasks ts) cs)) as Hw.
  destruct (foldl checkWorker _ ws) as [ids2 e2]. simpl in Hw. subst e2.
  rewrite foldl_checkTask. by rewrite <- !app_assoc.
Qed.

Lemma filter_hasField_nil f (l : list ValidationError) :
  Forall (λ e, hasField f e = false) l → List.filter (hasField f) l = [].
Proof.
  induction 1 as [|e l He _ IH]; [done|]. cbn [List.filter]. by rewrite He.
Qed.

Lemma hasField_other f g e :
  ValidationError.field e = Some g → f ≠ g → hasField f e = false.
Proof.
  unfold hasField. intros -> Hne. apply String.eqb_neq. congruence.
Qed.

Lemma clientErrors_fields seen l :
  Forall (λ e, ValidationError.field e = Some "ClientID"
               ∨ ValidationError.field e = Some "PriorityLevel") (clientErrors seen l).
Proof.
  revert seen. induction l as [|c l IH]; intros seen; cbn [clientErrors]; [constructor|].
  apply Forall_app. split; [|apply IH].
  pushes_cases;
    repeat first [apply List.Forall_nil
                 | apply List.Forall_cons; [first [by left | by right]|]].
Qed.

Lemma workerErrors_fields seen l :
  Forall (λ e, ValidationError.field e = Some "WorkerID"
               ∨ ValidationError.field e = Some "QualificationLevel") (workerErrors seen l).
Proof.
  revert seen. induction l as [|w l IH]; intros seen; cbn [workerErrors]; [constructor|].
  apply Forall_app. split; [|apply IH].
  pushes_cases;
    repeat first [apply List.Forall_nil
                 | apply List.Forall_cons; [first [by left | by right]|]].
Qed.

Lemma unknownTasks_fields ts cs :
  Forall (λ e, ValidationError.field e = Some "RequestedTaskIDs")
         (flat_map (unknownTasks ts) cs).
Proof.
  induction cs as [|c cs IH]; cbn [flat_map]; [constructor|].
  apply Forall_app. split; [|apply IH].
  unfold unknownTasks. apply Forall_fmap, Forall_forall. done.
Qed.

Lemma durationErrors_fields ts :
  Forall (λ e, ValidationError.field e = Some "Duration") (durationErrors ts).
Proof. unfold durationErrors. apply Forall_fmap, Forall_forall. done. Qed.

Lemma clientErrors_other f seen l :
  f ≠ "ClientID" → f ≠ "PriorityLevel" →
  List.filter (hasField f) (clientErrors seen l) = [].
Proof.
  intros H1 H2. apply filter_hasField_nil.
  eapply Forall_impl; [apply clientErrors_fields|].
  intros e [He|He]; eapply hasField_other; eauto.
Qed.

Lemma workerErrors_other f seen l :
  f ≠ "WorkerID" → f ≠ "QualificationLevel" →
  List.filter (hasField f) (workerErrors seen l) = [].
Proof.
  intros H1 H2. apply filter_hasField_nil.
  eapply Forall_impl; [apply workerErrors_fields|].
  intros e [He|He]; eapply hasField_other; eauto.
Qed.

Lemma unknownTasks_other f ts cs :
  f ≠ "RequestedTaskIDs" →
  List.filter (hasField f) (flat_map (unknownTasks ts) cs) = [].
Proof.
  intros H1. apply filter_hasField_nil.
  eapply Forall_impl; [apply unknownTasks_fields|].
  intros e He; cbn beta in He; eapply hasField_other; eauto.
Qed.

Lemma durationErrors_other f ts :
  f ≠ "Duration" → List.filter (hasField f) (durationErrors ts) = [].
Proof.
  intros H1. apply filter_hasField_nil.
  eapply Forall_impl; [apply durationErrors_fields|].
  intros e He; cbn beta in He; eapply hasField_other; eauto.
Qed.

Lemma filter_hasField_all f (l : list ValidationError) :
  Forall (λ e, ValidationError.field e = Some f) l → List.filter (hasField f) l = l.
Proof.
  induction 1 as [|e l He _ IH]; [done|]. cbn [List.filter].
  unfold hasField at 1. rewrite He, String.eqb_refl. by rewrite IH.
Qed.

Lemma clientErrors_duplicates whole pre l seen :
  whole = pre ++ l → (∀ x, x ∈ seen ↔ x ∈ ClientID <$> pre) →
  List.filter (hasField "ClientID") (clientErrors seen l)
  = dupClientError <$> repeatedFrom ClientID whole (length pre) l.
Proof.
  revert pre seen. induction l as [|c l IH]; intros pre seen Hw Hseen; [done|].
  cbn [clientErrors repeatedFrom]. rewrite List.filter_app, fmap_app.
  rewrite (IH (pre ++ [c])).
  - rewrite length_app, Nat.add_1_r. f_equal.
    subst whole. rewrite take_app_length.
    unfold clientPushes.
    destruct (decide (ClientID c ∈ seen)) as [Hin|Hin].
    + rewrite bool_decide_eq_true_2 by (by apply Hseen).
      by destruct (outOfRange _).
    + rewrite bool_decide_eq_false_2 by (by rewrite <- Hseen).
      by destruct (outOfRange _).
  - by rewrite <- app_assoc.
  - intros x. rewrite fmap_app, elem_of_app, elem_of_union, elem_of_singleton, Hseen.
    cbn. rewrite list_elem_of_singleton. tauto.
Qed.

Lemma workerErrors_duplicates whole pre l seen :
  whole = pre ++ l → (∀ x, x ∈ seen ↔ x ∈ WorkerID <$> pre) →
  List.filter (hasField "WorkerID") (workerErrors seen l)
  = dupWorkerError <$> repeatedFrom WorkerID whole (length pre) l.
Proof.
  revert pre seen. induction l as [|w l IH]; intros pre seen Hw Hseen; [done|].
  cbn [workerErrors repeatedFrom]. rewrite List.filter_app, fmap_app.
  rewrite (IH (pre ++ [w])).
  - rewrite length_app, Nat.add_1_r. f_equal.
    subst whole. rewrite take_app_length.
    unfold workerPushes.
    destruct (decide (WorkerID w ∈ seen)) as [Hin|Hin].
    + rewrite bool_decide_eq_true_2 by (by apply Hseen).
      by destruct (outOfRange _).
    + rewrite bool_decide_eq_false_2 by (by rewrite <- Hseen).
      by destruct (outOfRange _).
  - by rewrite <- app_assoc.
  - intros x. rewrite fmap_app, elem_of_app, elem_of_union, elem_of_singleton, Hseen.
    cbn. rewrite list_elem_of_singleton. tauto.
Qed.

Lemma clientErrors_priority seen l :
  List.filter (hasField "PriorityLevel") (clientErrors seen l)
  = priorityError <$> List.filter (λ c, outOfRange (PriorityLevel c)) l.
Proof.
  revert seen. induction l as [|c l IH]; intros seen; [done|].
  cbn [clientErrors List.filter]. rewrite List.filter_app, IH.
  by pushes_cases.
Qed.

Lemma workerErrors_qualification seen l :
  List.filter (hasField "QualificationLevel") (workerErrors seen l)
  = qualificationError <$> List.filter (λ w, outOfRange (QualificationLevel w)) l.
Proof.
  revert seen. induction l as [|w l IH]; intros seen; [done|].
  cbn [workerErrors List.filter]. rewrite List.filter_app, IH.
  by pushes_cases.
Qed.

End ValidationFacts.

(** ** Elements that repeat an earlier key *)

Section Repeated.
Context {A : Type} (key : A → string).

Lemma elem_of_repeatedFrom whole l : ∀ i x,
  x ∈ repeatedFrom key whole i l
  ↔ ∃ k, l !! k = Some x ∧ key x ∈ key <$> take (i + k) whole.
Proof.
  induction l as [|y l IH]; intros i x; cbn [repeatedFrom].
  - split; [by intros ?%elem_of_nil|]. by intros (k & Hk & _).
  - rewrite elem_of_app, IH. split.
    + intros [Hx|(k & Hk & Hin)].
      * case_bool_decide as Hy; [|by apply elem_of_nil in Hx].
        apply list_elem_of_singleton in Hx as ->.
        exists 0. by rewrite Nat.add_0_r.
      * exists (S k). by rewrite Nat.add_succ_r.
    + intros ([|k] & Hk & Hin).
      * left. injection Hk as ->. rewrite Nat.add_0_r in Hin.
        rewrite bool_decide_eq_true_2 by done. by apply list_elem_of_singleton.
      * right. exists k. by rewrite Nat.add_succ_r in Hin.
Qed.

Lemma elem_of_repeated l x :
  x ∈ repeated key l
  ↔ ∃ i j y, i < j ∧ l !! i = Some y ∧ l !! j = Some x ∧ key y = key x.
Proof.
  unfold repeated. rewrite elem_of_repeatedFrom. split.
  - intros (j & Hj & Hin). cbn in Hin.
    apply list_elem_of_fmap in Hin as (y & Hy & Hin).
    apply elem_of_take in Hin as (i & Hi & Hlt). by exists i, j, y.
  - intros (i & j & y & Hlt & Hi & Hj & Hy). exists j. split; [done|].
    cbn. apply list_elem_of_fmap. exists y. split; [done|].
    apply elem_of_take. by exists i.
Qed.

Lemma repeated_NoDup l : NoDup (key <$> l) → repeated key l = [].
Proof.
  intros Hnd. destruct (repeated key l) as [|x r] eqn:Hr; [done|].
  assert (x ∈ repeated key l) as Hx by (rewrite Hr; left).
  apply elem_of_repeated in Hx as (i & j & y & Hlt & Hi & Hj & Hy).
  assert (i = j); [|lia].
  eapply (NoDup_lookup (key <$> l) i j (key x)); [done| |].
  - by rewrite list_lookup_fmap, Hi, <- Hy.
  - by rewrite list_lookup_fmap, Hj.
Qed.

End Repeated.

(** ** The claims on [validateData] *)

Section ValidationClaims.
Context `{JsRuntime}.

Lemma unknownTaskError_inj c c' t t' :
  unknownTaskError c t = unknownTaskError c' t' → ClientID c = ClientID c' ∧ t = t'.
Proof.
  unfold unknownTaskError. intros Heq. injection Heq as _ Hid Hmsg.
  split; [done|]. cbn in Hmsg. by simplify_eq.
Qed.

Lemma unknownTaskError_ext c c' t :
  ClientID c = ClientID c' → unknownTaskError c t = unknownTaskError c' t.
Proof. unfold unknownTaskError. by intros ->. Qed.

Lemma elem_of_unknownTasks ts cs e :
  e ∈ flat_map (unknownTasks ts) cs
  ↔ ∃ c taskId, c ∈ cs ∧ taskId ∈ RequestedTaskIDs c
                ∧ (taskId ∉ TaskID <$> ts) ∧ e = unknownTaskError c taskId.
Proof.
  rewrite list_elem_of_In, in_flat_map. unfold unknownTasks. split.
  - intros (c & Hc & He).
    apply list_elem_of_In, list_elem_of_fmap in He as (t & -> & Ht).
    apply list_elem_of_In, filter_In in Ht as [Ht Hno].
    apply bool_decide_eq_true in Hno.
    exists c, t. repeat split; [by apply list_elem_of_In..|done].
  - intros (c & t & Hc & Ht & Hno & ->). exists c.
    split; [by apply list_elem_of_In|].
    apply list_elem_of_In, list_elem_of_fmap. exists t. split; [done|].
    apply list_elem_of_In, filter_In. split; [by apply list_elem_of_In|].
    by apply bool_decide_eq_true.
Qed.

Lemma filter_requested cs ws ts :
  List.filter (hasField "RequestedTaskIDs") (validateData cs ws ts)
  = flat_map (unknownTasks ts) cs.
Proof.
  rewrite validateData_segments, !List.filter_app.
  rewrite clientErrors_other, workerErrors_other, durationErrors_other by done.
  rewrite filter_hasField_all by apply unknownTasks_fields.
  by rewrite app_nil_r.
Qed.

(** C1. Referential integrity between clients and tasks: the errors on
    [RequestedTaskIDs] are, client by client and in the order of the
    requests, one [Unknown task ID] error for each requested id that no
    task carries; such an error is present for a client id and a task
    id exactly when a client of that id requests the task id and no
    task has it; and none is produced when every requested id is the
    id of a task. *)
Theorem referential_integrity cs ws ts :
  List.filter (hasField "RequestedTaskIDs") (validateData cs ws ts)
  = flat_map (λ c, unknownTaskError c
                     <$> List.filter (λ taskId, bool_decide (taskId ∉ (TaskID <$> ts)))
                           (RequestedTaskIDs c)) cs
  ∧ (∀ c taskId,
       unknownTaskError c taskId ∈ validateData cs ws ts
       ↔ ∃ c', c' ∈ cs ∧ ClientID c' = ClientID c
               ∧ taskId ∈ RequestedTaskIDs c' ∧ taskId ∉ (TaskID <$> ts))
  ∧ ((∀ c taskId, c ∈ cs → taskId ∈ RequestedTaskIDs c → taskId ∈ (TaskID <$> ts))
     → List.filter (hasField "RequestedTaskIDs") (validateData cs ws ts) = []).
Proof.
  split; [apply filter_requested|]. split.
  - intros c taskId.
    assert (unknownTaskError c taskId ∈ validateData cs ws ts
            ↔ unknownTaskError c taskId ∈ flat_map (unknownTasks ts) cs) as ->.
    { rewrite <- (filter_requested cs ws ts), !list_elem_of_In, filter_In.
      split; [|by intros [? _]]. intros Hin. split; [done|]. reflexivity. }
    rewrite elem_of_unknownTasks. split.
    + intros (c' & t' & Hc' & Ht' & Hno & Heq).
      apply unknownTaskError_inj in Heq as [Hid ->]. by exists c'.
    + intros (c' & Hc' & Hid & Ht & Hno). exists c', taskId.
      repeat split; try done. by apply unknownTaskError_ext.
  - intros Hall. rewrite filter_requested.
    destruct (flat_map (unknownTasks ts) cs) as [|e r] eqn:He; [done|].
    assert (e ∈ flat_map (unknownTasks ts) cs) as Hin by (rewrite He; left).
    apply elem_of_unknownTasks in Hin as (c & t & Hc & Ht & Hno & _).
    destruct Hno. by eapply Hall.
Qed.

(** C2. Duplicate-ID detection: the errors on [ClientID] are, in order,
    one duplicate error for each client whose id is the id of a client
    at a smaller index, and likewise for workers on [WorkerID]; when the
    ids are pairwise distinct there is none. *)
Theorem duplicate_id_detection cs ws ts :
  List.filter (hasField "ClientID") (validateData cs ws ts)
  = dupClientError <$> repeated ClientID cs
  ∧ List.filter (hasField "WorkerID") (validateData cs ws ts)
    = dupWorkerError <$> repeated WorkerID ws
  ∧ (∀ c, c ∈ repeated ClientID cs
          ↔ ∃ i j c', i < j ∧ cs !! i = Some c' ∧ cs !! j = Some c
                      ∧ ClientID c' = ClientID c)
  ∧ (∀ w, w ∈ repeated WorkerID ws
          ↔ ∃ i j w', i < j ∧ ws !! i = Some w' ∧ ws !! j = Some w
                      ∧ WorkerID w' = WorkerID w)
  ∧ (NoDup (ClientID <$> cs) → NoDup (WorkerID <$> ws)
     → List.filter (hasField "ClientID") (validateData cs ws ts) = []
       ∧ List.filter (hasField "WorkerID") (validateData cs ws ts) = []).
Proof.
  assert (List.filter (hasField "ClientID") (validateData cs ws ts)
          = dupClientError <$> repeated ClientID cs) as Hc.
  { rewrite validateData_segments, !List.filter_app.
    rewrite unknownTasks_other, workerErrors_other, durationErrors_other by done.
    rewrite (clientErrors_duplicates cs [] cs) by (done || set_solver).
    by rewrite !app_nil_r. }
  assert (List.filter (hasField "WorkerID") (validateData cs ws ts)
          = dupWorkerError <$> repeated WorkerID ws) as Hw.
  { rewrite validateData_segments, !List.filter_app.
    rewrite unknownTasks_other, clientErrors_other, durationErrors_other by done.
    rewrite (workerErrors_duplicates ws [] ws) by (done || set_solver).
    by rewrite !app_nil_r. }
  repeat split; try done.
  - by apply elem_of_repeated.
  - by apply elem_of_repeated.
  - by apply elem_of_repeated.
  - by apply elem_of_repeated.
  - rewrite Hc, repeated_NoDup; done.
  - rewrite Hw, repeated_NoDup; done.
Qed.

(** C3. Numeric range checks: the errors on [PriorityLevel] are, in
    order, one for each client whose level is below 1 or above 5; the
    errors on [QualificationLevel] one for each such worker; the errors
    on [Duration] one for each task whose duration is below 1. *)
Theorem range_checks cs ws ts :
  List.filter (hasField "PriorityLevel") (validateData cs ws ts)
  = priorityError
      <$> List.filter (λ c, lt (PriorityLevel c) (ofZ 1) || gt (PriorityLevel c) (ofZ 5)) cs
  ∧ List.filter (hasField "QualificationLevel") (validateData cs ws ts)
    = qualificationError
        <$> List.filter (λ w, lt (QualificationLevel w) (ofZ 1)
                              || gt (QualificationLevel w) (ofZ 5)) ws
  ∧ List.filter (hasField "Duration") (validateData cs ws ts)
    = durationError <$> List.filter (λ t, lt (Duration t) (ofZ 1)) ts.
Proof.
  repeat split; rewrite validateData_segments, !List.filter_app.
  - rewrite unknownTasks_other, workerErrors_other, durationErrors_other by done.
    rewrite clientErrors_priority. by rewrite !app_nil_r.
  - rewrite unknownTasks_other, clientErrors_other, durationErrors_other by done.
    rewrite workerErrors_qualification. by rewrite !app_nil_r.
  - rewrite unknownTasks_other, clientErrors_other, workerErrors_other by done.
    rewrite filter_hasField_all by apply durationErrors_fields. done.
Qed.

Lemma unknownTasks_duplicate_task ts t c :
  TaskID t ∈ TaskID <$> ts → unknownTasks (ts ++ [t]) c = unknownTasks ts c.
Proof.
  intros Hdup. unfold unknownTasks. f_equal.
  apply List.filter_ext. intros taskId. apply bool_decide_ext.
  rewrite fmap_app, elem_of_app. cbn. rewrite list_elem_of_singleton.
  split; [tauto|]. intros Hno [Hin| ->]; by apply Hno.
Qed.

(** C8. Duplicate task ids are never flagged: no error reports the
    field [TaskID]; the array is client and worker errors followed by
    the [Duration] errors of the tasks, which are all that the task
    loop pushes; and appending a task whose id is already the id of a
    task adds nothing but that task's own [Duration] error. *)
Theorem duplicate_task_ids_unflagged cs ws ts :
  (∀ e, e ∈ validateData cs ws ts → ValidationError.field e ≠ Some "TaskID")
  ∧ (∃ others,
       validateData cs ws ts
       = others ++ (durationError <$> List.filter (λ t, lt (Duration t) (ofZ 1)) ts)
       ∧ Forall (λ e, ValidationError.field e
                      ∈ [Some "ClientID"; Some "PriorityLevel"; Some "RequestedTaskIDs";
                         Some "WorkerID"; Some "QualificationLevel"]) others)
  ∧ validateData [] [] ts
    = durationError <$> List.filter (λ t, lt (Duration t) (ofZ 1)) ts
  ∧ (∀ t, TaskID t ∈ TaskID <$> ts
          → validateData cs ws (ts ++ [t])
            = validateData cs ws ts
                ++ (if lt (Duration t) (ofZ 1) then [durationError t] else [])).
Proof.
  assert (Forall (λ e, ValidationError.field e
                      ∈ [Some "ClientID"; Some "PriorityLevel"; Some "RequestedTaskIDs";
                         Some "WorkerID"; Some "QualificationLevel"])
            (clientErrors ∅ cs ++ flat_map (unknownTasks ts) cs ++ workerErrors ∅ ws))
    as Hothers.
  { rewrite !Forall_app. repeat split.
    - eapply Forall_impl; [apply clientErrors_fields|].
      intros e [-> | ->]; field_in_list.
    - eapply Forall_impl; [apply unknownTasks_fields|].
      intros e He; cbn beta in He; rewrite He; field_in_list.
    - eapply Forall_impl; [apply workerErrors_fields|].
      intros e [-> | ->]; field_in_list. }
  repeat split.
  - intros e. rewrite validateData_segments, !app_assoc, elem_of_app.
    rewrite <- !app_assoc. intros [Hin|Hin].
    + eapply Forall_forall in Hothers; [|done]. intros Heq. rewrite Heq in Hothers.
      apply list_elem_of_In in Hothers. cbn in Hothers. intuition discriminate.
    + pose proof (durationErrors_fields ts) as Hd.
      eapply Forall_forall in Hd; [|done]. cbn beta in Hd. by rewrite Hd.
  - eexists. split; [|exact Hothers].
    rewrite validateData_segments. by rewrite !app_assoc.
  - by rewrite validateData_segments.
  - intros t Hdup. rewrite !validateData_segments. clear Hothers.
    assert (flat_map (unknownTasks (ts ++ [t])) cs = flat_map (unknownTasks ts) cs) as ->.
    { induction cs as [|c cs' IH]; [done|]. cbn [flat_map].
      rewrite unknownTasks_duplicate_task by done. by f_equal. }
    unfold durationErrors. rewrite List.filter_app, fmap_app, <- !app_assoc.
    do 3 f_equal. cbn [List.filter]. by destruct (lt _ _).
Qed.

End ValidationClaims.

Lemma referential_integrity_witness :
  List.filter (hasField "RequestedTaskIDs")
    (validateData (H := Demo.runtime)
       [Sample.client "C1" 3 ["T1"]] [] [Sample.task "T1" 2])
  = [].
Proof.
  apply (referential_integrity (H := Demo.runtime)).
  intros c taskId Hc Ht.
  apply list_elem_of_singleton in Hc as ->.
  apply list_elem_of_singleton in Ht as ->.
  apply list_elem_of_singleton. reflexivity.
Defined.

Lemma duplicate_id_detection_witness :
  List.filter (hasField "ClientID")
    (validateData (H := Demo.runtime)
       [Sample.client "C1" 3 []; Sample.client "C2" 3 []] [Sample.worker "W1" 2] [])
  = [].
Proof.
  apply (duplicate_id_detection (H := Demo.runtime)).
  - apply (bool_decide_unpack (NoDup _)). vm_compute. exact I.
  - apply (bool_decide_unpack (NoDup _)). vm_compute. exact I.
Defined.

Lemma duplicate_task_ids_unflagged_witness :
  validateData (H := Demo.runtime) [] [] ([Sample.task "T1" 2] ++ [Sample.task "T1" 0])
  = validateData (H := Demo.runtime) [] [] [Sample.task "T1" 2]
      ++ [durationError (H := Demo.runtime) (Sample.task "T1" 0)].
Proof.
  apply (duplicate_task_ids_unflagged (H := Demo.runtime) [] [] [Sample.task "T1" 2]).
  apply list_elem_of_singleton. reflexivity.
Defined.

(** ** Strings: what [includes] decides *)

Lemma prefix_app p s : String.prefix p s = true ↔ ∃ post, s = p +:+ post.
Proof.
  revert s. induction p as [|a p IH]; intros [|b s]; cbn.
  - split; [|done]. intros _. by exists "".
  - split; [|done]. intros _. by exists (String b s).
  - split; [done|by intros [? ?]].
  - destruct (ascii_dec a b) as [->|Hne].
    + rewrite IH. split; intros [post Hp]; exists post.
      * by rewrite Hp.
      * by injection Hp.
    + split; [done|]. intros [post Hp]. by injection Hp.
Qed.

Lemma includes_substring s sub :
  includes s sub = true ↔ ∃ pre post, s = pre +:+ sub +:+ post.
Proof.
  induction s as [|a s IH]; cbn [includes].
  - rewrite orb_false_r, prefix_app. split.
    + intros [post Hp]. by exists "", post.
    + intros (pre & post & Hp). destruct pre; [by exists post|done].
  - rewrite orb_true_iff, prefix_app, IH. split.
    + intros [[post Hp]|(pre & post & Hp)].
      * by exists "", post.
      * exists (String a pre), post. cbn. by rewrite Hp.
    + intros ([|b pre] & post & Hp).
      * left. by exists post.
      * right. exists pre, post. cbn in Hp. by injection Hp.
Qed.

(** ** The claim on the search fallback *)

Section SearchClaims.
Context `{JsRuntime}.

(** A missing key makes the attempt fail. *)
Lemma aiSearch_no_key this query data :
  apiKey this = None → aiSearch this query data = Throw "API key not configured".
Proof. intros Hk. unfold aiSearch, generateContent. by rewrite Hk. Qed.

(** So does a response from which no JSON text can be read. *)
Lemma aiSearch_unparseable this query data :
  let cleaned := trim (stripFences (generateContent this (searchPrompt query data))) in
  JSON_parse cleaned = None →
  (∀ m, matchBrackets cleaned = Some m → JSON_parse m = None) →
  ∀ parsed, aiSearch this query data ≠ Normal parsed.
Proof.
  intros cleaned Hp Hm parsed. unfold aiSearch.
  destruct (_ || _); [done|]. fold cleaned. rewrite Hp.
  destruct (matchBrackets cleaned) as [m|]; [|done]. by rewrite (Hm m).
Qed.

(** C4. AI search fallback: for a query that is not blank (so that the
    AI is called), when the attempt fails [searchData] returns the
    items whose lowercased serialisation includes the lowercased query,
    cut to the first 20, from the source [local]. *)
Theorem search_fallback this query data :
  String.eqb (trim query) "" = false →
  (∀ parsed, aiSearch this query data ≠ Normal parsed) →
  searchData this query data
  = {| results :=
         take 20 (List.filter
                    (λ item, includes (toLowerCase (JSON_stringify item))
                                      (toLowerCase query)) data);
       source := local |}.
Proof.
  intros Hq Hfail. unfold searchData. rewrite Hq. cbn [orb].
  destruct data as [|item data]; [done|]. cbn [length Nat.eqb].
  destruct (aiSearch this query (item :: data)) as [parsed| |] eqn:Hai; try done.
  by destruct (Hfail parsed).
Qed.

End SearchClaims.

Lemma search_fallback_witness :
  searchData (H := Demo.runtime) Sample.offline "ALI" [Sample.alice; Sample.bob]
  = {| results := [Sample.alice]; source := local |}.
Proof.
  rewrite (search_fallback (H := Demo.runtime)).
  - reflexivity.
  - reflexivity.
  - intros parsed. by rewrite aiSearch_no_key.
Defined.

(** ** The claims on the configuration and on the export *)

Section ComponentClaims.
Context `{JsRuntime}.

(** C5. Priority weights and rules are inert: under any two settings of
    the rules and of the weights, the data, the errors [validateData]
    reports on it, the data and errors an upload leaves, and the
    exported workbook are the same; the text of [rules-config.json] is
    the serialisation of the object made of the current rules and the
    current weights, and of nothing else. *)
Theorem config_inert fuel rawData type st rules1 weights1 rules2 weights2 :
  let st1 := setPriorityWeights weights1 (setRules rules1 st) in
  let st2 := setPriorityWeights weights2 (setRules rules2 st) in
  dataOf st1 = dataOf st2
  ∧ validateData (State.clients st1) (State.workers st1) (State.tasks st1)
    = validateData (State.clients st2) (State.workers st2) (State.tasks st2)
  ∧ cmap dataOf (handleFileUpload fuel rawData type st1)
    = cmap dataOf (handleFileUpload fuel rawData type st2)
  ∧ (exportData st1).1 = (exportData st2).1
  ∧ (exportData st1).2
    = JSON_stringify_indent
        (JObj [ ("rules", JArr (JObj <$> (ruleObject <$> rules1)));
                ("priorityWeights", JObj (weightsObject weights1)) ]) 2.
Proof.
  cbn zeta. repeat split.
  unfold handleFileUpload.
  by destruct (normalizeData fuel rawData type) as [normalized|e|].
Qed.

(** C6. Export shape: the workbook has the sheets [Clients], [Workers]
    and [Tasks], in this order; each holds one row per record, in the
    order of the records; a row has the fields of its record with the
    lists of strings joined by commas and [AvailableSlots],
    [PreferredPhases] and [AttributesJSON] serialised, the other fields
    as they are. *)
Theorem export_shape st :
  (exportData st).1
  = [ ("Clients", clientRow <$> State.clients st);
      ("Workers", workerRow <$> State.workers st);
      ("Tasks", taskRow <$> State.tasks st) ]
  ∧ (∀ c, clientRow c
          = [ ("ClientID", JStr (ClientID c)); ("ClientName", JStr (ClientName c));
              ("PriorityLevel", JNum (PriorityLevel c));
              ("RequestedTaskIDs", JStr (join "," (RequestedTaskIDs c)));
              ("GroupTag", JStr (GroupTag c));
              ("AttributesJSON", JStr (JSON_stringify (AttributesJSON c))) ])
  ∧ (∀ w, workerRow w
          = [ ("WorkerID", JStr (WorkerID w)); ("WorkerName", JStr (WorkerName w));
              ("Skills", JStr (join "," (Skills w)));
              ("AvailableSlots", JStr (JSON_stringify (AvailableSlots w)));
              ("MaxLoadPerPhase", JNum (MaxLoadPerPhase w));
              ("WorkerGroup", JStr (WorkerGroup w));
              ("QualificationLevel", JNum (QualificationLevel w)) ])
  ∧ (∀ t, taskRow t
          = [ ("TaskID", JStr (TaskID t)); ("TaskName", JStr (TaskName t));
              ("Category", JStr (Category t)); ("Duration", JNum (Duration t));
              ("RequiredSkills", JStr (join "," (RequiredSkills t)));
              ("PreferredPhases", JStr (JSON_stringify (PreferredPhases t)));
              ("MaxConcurrent", JNum (MaxConcurrent t)) ])
  ∧ length (clientRow <$> State.clients st) = length (State.clients st)
  ∧ length (workerRow <$> State.workers st) = length (State.workers st)
  ∧ length (taskRow <$> State.tasks st) = length (State.tasks st).
Proof. repeat split; by rewrite ?length_fmap. Qed.

End ComponentClaims.

(** ** The claim on normalisation *)

Section NormalisationClaims.
Context `{JsRuntime}.



(** The defaults of a row with no cell. *)
Lemma normalizeRow_defaults fuel index :
  normalizeRow fuel clients index ∅
  = Normal (EClient {| ClientID := "C" +:+ pretty (index + 1);
                       ClientName := "Unknown";
                       PriorityLevel := ofZ 1;
                       RequestedTaskIDs := [];
                       GroupTag := "Default";
                       AttributesJSON := JObj [] |})
  ∧ normalizeRow fuel workers index ∅
    = Normal (EWorker {| WorkerID := "W" +:+ pretty (index + 1);
                         WorkerName := "Unknown";
                         Skills := [];
                         AvailableSlots :=
                           match JSON_parse "[]" with Some v => v | None => JArr [] end;
                         MaxLoadPerPhase := ofZ 1;
                         WorkerGroup := "Default";
                         QualificationLevel := ofZ 1 |})
  ∧ normalizeRow fuel tasks index ∅
    = Normal (ETask {| TaskID := "T" +:+ pretty (index + 1);
                       TaskName := "Unknown";
                       Category := "General";
                       Duration := ofZ 1;
                       RequiredSkills := [];
                       PreferredPhases :=
                         match JSON_parse "[]" with Some v => v | None => JArr [] end;
                       MaxConcurrent := ofZ 1 |}).
Proof.
  unfold normalizeRow. rewrite !lookup_empty. cbn.
  repeat split; by destruct (JSON_parse "[]").
Qed.






(** C7. Normalisation is not total: a row whose [PreferredPhases] cell
    is a number, as a sheet yields for a numeric cell, makes
    [normalizeData] throw instead of returning a record. *)
Theorem normalizeData_numeric_cell fuel :
  normalizeData fuel [Sample.row] tasks
  = Throw "TypeError: phasesString.includes is not a function".
Proof. reflexivity. Qed.

End NormalisationClaims.

(** ** Binary64 arithmetic *)

Section FloatFacts.
Local Open Scope Z_scope.

Lemma digits2_pos_size p : digits2_pos p = Pos.size p.
Proof. induction p as [p IH|p IH|]; cbn; by rewrite ?IH. Qed.

Lemma Zdigits2_log2 p : Zpos (digits2_pos p) = Z.log2 (Zpos p) + 1.
Proof.
  destruct p as [p|p|]; cbn [digits2_pos Z.log2]; rewrite ?digits2_pos_size; lia.
Qed.

Lemma digits_bounds p :
  2 ^ (Zpos (digits2_pos p) - 1) <= Zpos p < 2 ^ Zpos (digits2_pos p).
Proof.
  rewrite Zdigits2_log2.
  pose proof (Z.log2_spec (Zpos p) eq_refl) as Hs.
  replace (Z.log2 (Zpos p) + 1 - 1) with (Z.log2 (Zpos p)) by lia.
  replace (Z.log2 (Zpos p) + 1) with (Z.succ (Z.log2 (Zpos p))) by lia. done.
Qed.

Lemma digits_unique p d :
  2 ^ (d - 1) <= Zpos p < 2 ^ d → Zpos (digits2_pos p) = d.
Proof.
  intros Hb. rewrite Zdigits2_log2.
  assert (0 < d).
  { destruct (Z.lt_trichotomy d 0) as [Hd|[->|Hd]]; [|cbn in Hb; lia|done].
    rewrite (Z.pow_neg_r 2 d) in Hb by done. lia. }
  rewrite (Z.log2_unique (Zpos p) (d - 1)); [lia|lia|].
  by replace (Z.succ (d - 1)) with d by lia.
Qed.

Lemma Zpos_iter_xO p k : Zpos (Pos.iter xO p k) = Zpos p * 2 ^ Zpos k.
Proof.
  induction k as [|k IH] using Pos.peano_ind.
  - cbn. lia.
  - rewrite Pos.iter_succ, Pos2Z.inj_xO, IH, Pos2Z.inj_succ, Z.pow_succ_r by lia. lia.
Qed.

Lemma iter_pos_nat {A} (f : A → A) n : ∀ x,
  SpecFloat.iter_pos f n x = Nat.iter (Pos.to_nat n) f x.
Proof.
  induction n as [n IH|n IH|]; intros x; cbn [SpecFloat.iter_pos].
  - rewrite !IH, Pos2Nat.inj_xI, <- Nat.iter_succ_r, <- Nat.iter_add.
    f_equal. lia.
  - rewrite !IH, Pos2Nat.inj_xO, <- Nat.iter_add. f_equal. lia.
  - done.
Qed.

Lemma shr_1_nonneg m r s :
  0 <= m →
  shr_1 {| shr_m := m; shr_r := r; shr_s := s |}
  = {| shr_m := m / 2; shr_r := Z.odd m; shr_s := r || s |}.
Proof.
  intros Hm. rewrite <- Z.div2_div. by destruct m as [|[p|p|]|p].
Qed.

(** Shifting right divides the mantissa. *)
Lemma shr_iter_m k : ∀ m r s,
  0 <= m →
  shr_m (Nat.iter k shr_1 {| shr_m := m; shr_r := r; shr_s := s |})
  = m / 2 ^ Z.of_nat k.
Proof.
  induction k as [|k IH]; intros m r s Hm.
  - cbn [Nat.iter shr_m Z.of_nat]. by rewrite Z.pow_0_r, Z.div_1_r.
  - rewrite Nat.iter_succ_r, shr_1_nonneg by done.
    rewrite IH by (apply Z.div_pos; lia).
    rewrite Z.div_div by lia. f_equal.
    by rewrite Nat2Z.inj_succ, Z.pow_succ_r by lia.
Qed.

(** Shifting out zeros is exact. *)
Lemma shr_iter_exact k : ∀ m,
  0 <= m →
  Nat.iter k shr_1 {| shr_m := m * 2 ^ Z.of_nat k; shr_r := false; shr_s := false |}
  = {| shr_m := m; shr_r := false; shr_s := false |}.
Proof.
  induction k as [|k IH]; intros m Hm.
  - cbn [Z.of_nat]. by rewrite Z.pow_0_r, Z.mul_1_r.
  - rewrite Nat.iter_succ_r, shr_1_nonneg
      by (apply Z.mul_nonneg_nonneg; [lia|apply Z.pow_nonneg; lia]).
    rewrite Nat2Z.inj_succ, Z.pow_succ_r by lia.
    replace (m * (2 * 2 ^ Z.of_nat k)) with ((m * 2 ^ Z.of_nat k) * 2) by lia.
    rewrite Z.div_mul by lia. rewrite Z.odd_mul. cbn [Z.odd]. rewrite andb_false_r.
    by apply IH.
Qed.


Lemma fexp_eq x : fexp prec emax x = Z.max (x - 53) (-1074).
Proof. reflexivity. Qed.

Lemma shr_zero mrs e : shr mrs e 0 = (mrs, e).
Proof. reflexivity. Qed.

Lemma shr_pos mrs e n :
  0 < n → shr mrs e n = (Nat.iter (Z.to_nat n) shr_1 mrs, e + n).
Proof.
  intros Hn. destruct n as [|k|k]; try lia.
  cbn [shr]. by rewrite iter_pos_nat.
Qed.

Lemma Zdigits2_pos_mul_pow2 m n :
  0 <= n → Zdigits2 (Zpos m * 2 ^ n) = Zpos (digits2_pos m) + n.
Proof.
  intros Hn. assert (0 < Zpos m * 2 ^ n) as Hpos by (apply Z.mul_pos_pos; lia).
  destruct (Zpos m * 2 ^ n) as [|P|P] eqn:HP; try lia.
  cbn [Zdigits2]. rewrite !Zdigits2_log2, <- HP, Z.log2_mul_pow2 by lia. lia.
Qed.

(** A mantissa of 53 digits followed by zeros rounds to itself. *)
Lemma shr_fexp_exact m0 n e :
  Zpos (digits2_pos m0) = 53 → 0 <= n → -1074 <= e + n →
  shr_fexp prec emax (Zpos m0 * 2 ^ n) e loc_Exact
  = ({| shr_m := Zpos m0; shr_r := false; shr_s := false |}, e + n).
Proof.
  intros Hd Hn He. unfold shr_fexp.
  rewrite Zdigits2_pos_mul_pow2, Hd, fexp_eq by done.
  replace (Z.max (53 + n + e - 53) (-1074) - e) with n by lia.
  cbn [shr_record_of_loc].
  destruct (Z.eq_dec n 0) as [->|Hn0].
  - rewrite shr_zero, Z.pow_0_r, Z.mul_1_r, Z.add_0_r. done.
  - rewrite shr_pos by lia.
    replace (2 ^ n) with (2 ^ Z.of_nat (Z.to_nat n)) by (f_equal; lia).
    by rewrite shr_iter_exact.
Qed.

Lemma round_aux_exact s m0 n e :
  Zpos (digits2_pos m0) = 53 → 0 <= n → -1074 <= e + n <= 971 →
  binary_round_aux prec emax s (Zpos m0 * 2 ^ n) e loc_Exact
  = S754_finite s m0 (e + n).
Proof.
  intros Hd Hn He. unfold binary_round_aux.
  rewrite shr_fexp_exact by (done || lia).
  cbn [shr_m loc_of_shr_record round_nearest_even].
  pose proof (shr_fexp_exact m0 0 (e + n) Hd) as H0.
  rewrite Z.pow_0_r, Z.mul_1_r, Z.add_0_r in H0. rewrite H0 by lia.
  cbn [shr_m]. unfold prec, emax.
  destruct (Z.leb_spec (e + n) (1024 - 53)); [done|lia].
Qed.

(** Rounding the integer [p * 2^k], written with exponent [-k]. *)
Lemma binary_round_scaled s p k :
  Zpos (digits2_pos p) <= 53 → 0 <= k <= 1000 →
  binary_round prec emax s (Z.to_pos (Zpos p * 2 ^ k)) (- k) = canon s p.
Proof.
  intros Hd Hk. unfold binary_round, canon.
  set (d := Zpos (digits2_pos p)) in *.
  assert (0 < d) as Hd0 by (unfold d; lia).
  assert (0 < Zpos p * 2 ^ k) as HP by (apply Z.mul_pos_pos; lia).
  assert (Zpos (digits2_pos (Z.to_pos (Zpos p * 2 ^ k))) = d + k) as HdP.
  { unfold d. rewrite <- (Zdigits2_pos_mul_pow2 p k) by lia.
    destruct (Zpos p * 2 ^ k) eqn:E; try lia. done. }
  rewrite HdP, fexp_eq.
  replace (Z.max (d + k + - k - 53) (-1074)) with (d - 53) by lia.
  assert (Zpos (digits2_pos (Z.to_pos (Zpos p * 2 ^ (prec - d)))) = 53) as Hcanon.
  { apply digits_unique. rewrite Z2Pos.id by (apply Z.mul_pos_pos; unfold prec; lia).
    pose proof (digits_bounds p) as Hb. fold d in Hb. unfold prec.
    assert (0 < 2 ^ (53 - d)) by (apply Z.pow_pos_nonneg; lia).
    assert (2 ^ (53 - 1) = 2 ^ (d - 1) * 2 ^ (53 - d)) as ->
      by (rewrite <- Z.pow_add_r by lia; f_equal; lia).
    assert (2 ^ 53 = 2 ^ d * 2 ^ (53 - d)) as ->
      by (rewrite <- Z.pow_add_r by lia; f_equal; lia).
    split; [apply Z.mul_le_mono_nonneg_r|apply Z.mul_lt_mono_pos_r]; lia. }
  unfold shl_align.
  destruct (d - 53 - - k) as [|j|j] eqn:Hj.
  - (* the mantissa already has 53 digits *)
    assert (k = 53 - d) as -> by lia.
    pose proof (round_aux_exact s _ 0 (- (53 - d)) Hcanon) as Hr.
    rewrite Z.pow_0_r, Z.mul_1_r, Z.add_0_r in Hr.
    unfold prec in *. rewrite Z2Pos.id in Hr by done. rewrite Z2Pos.id by done.
    rewrite Hr by lia. f_equal. lia.
  - (* zeros to shift out *)
    pose proof (round_aux_exact s _ (Zpos j) (- k) Hcanon) as Hr.
    rewrite Z2Pos.id in Hr by (apply Z.mul_pos_pos; unfold prec; lia).
    rewrite Z2Pos.id by done.
    replace (Zpos p * 2 ^ k) with (Zpos p * 2 ^ (prec - d) * 2 ^ Zpos j).
    + rewrite Hr by lia. f_equal. unfold prec. lia.
    + rewrite <- Z.mul_assoc, <- Z.pow_add_r by (unfold prec; lia).
      do 2 f_equal. unfold prec. lia.
  - (* digits to make up *)
    pose proof (round_aux_exact s _ 0 (d - 53) Hcanon) as Hr.
    rewrite Z.pow_0_r, Z.mul_1_r, Z.add_0_r in Hr.
    rewrite Zpos_iter_xO, Z2Pos.id by done.
    replace (Zpos p * 2 ^ k * 2 ^ Zpos j) with (Zpos p * 2 ^ (prec - d)).
    + change (d - prec) with (d - 53). rewrite <- Hr by lia.
      by rewrite Z2Pos.id by (apply Z.mul_pos_pos; unfold prec; lia).
    + rewrite <- Z.mul_assoc, <- Z.pow_add_r by lia.
      do 2 f_equal. unfold prec. lia.
Qed.


Lemma digits_le_53 p : Zpos p < 2 ^ 53 → Zpos (digits2_pos p) <= 53.
Proof.
  intros Hp. rewrite Zdigits2_log2.
  assert (Z.log2 (Zpos p) < 53); [|lia]. by apply Z.log2_lt_pow2.
Qed.

Lemma ofZ_pos p : Zpos p < 2 ^ 53 → ofZ (Zpos p) = canon false p.
Proof.
  intros Hp. unfold ofZ, binary_normalize.
  rewrite <- (binary_round_scaled false p 0) by first [by apply digits_le_53 | lia].
  by rewrite Z.pow_0_r, Z.mul_1_r.
Qed.

Lemma ofZ_neg p : Zpos p < 2 ^ 53 → ofZ (Zneg p) = canon true p.
Proof.
  intros Hp. unfold ofZ, binary_normalize.
  rewrite <- (binary_round_scaled true p 0) by first [by apply digits_le_53 | lia].
  by rewrite Z.pow_0_r, Z.mul_1_r.
Qed.

(** The integers below [2^53] in absolute value are rounded exactly,
    whatever the exponent they are written with. *)
Lemma normalize_scaled z k :
  Z.abs z < 2 ^ 53 → 0 <= k <= 1000 →
  binary_normalize prec emax (z * 2 ^ k) (- k) false = ofZ z.
Proof.
  intros Hz Hk. assert (0 < 2 ^ k) as H2 by (apply Z.pow_pos_nonneg; lia).
  destruct z as [|p|p].
  - done.
  - rewrite ofZ_pos by lia.
    rewrite <- (binary_round_scaled false p k) by first [apply digits_le_53; lia | lia].
    unfold binary_normalize. destruct (Zpos p * 2 ^ k) eqn:E; try lia. done.
  - rewrite ofZ_neg by lia.
    rewrite <- (binary_round_scaled true p k) by first [apply digits_le_53; lia | lia].
    unfold binary_normalize.
    assert (Zneg p * 2 ^ k = - (Zpos p * 2 ^ k)) as -> by lia.
    destruct (Zpos p * 2 ^ k) eqn:E; try lia. done.
Qed.

Lemma shl_align_value m e ez :
  ez <= e → Zpos (shl_align m e ez).1 = Zpos m * 2 ^ (e - ez).
Proof.
  intros He. unfold shl_align. destruct (ez - e) as [|j|j] eqn:Hj; try lia.
  - cbn [fst]. replace (e - ez) with 0 by lia. lia.
  - cbn [fst]. rewrite Zpos_iter_xO. do 2 f_equal. lia.
Qed.

(** The value of a canonical representation. *)
Lemma canon_value s p :
  Zpos (digits2_pos p) <= 53 →
  ∃ m e, canon s p = S754_finite s m e ∧ -52 <= e <= 0
         ∧ Zpos (digits2_pos m) = 53 ∧ Zpos m = Zpos p * 2 ^ (- e)
         ∧ e = Zpos (digits2_pos p) - 53.
Proof.
  intros Hd. unfold canon, prec. set (d := Zpos (digits2_pos p)) in *.
  assert (0 < d) by (unfold d; lia).
  assert (0 < Zpos p * 2 ^ (53 - d)) by (apply Z.mul_pos_pos; lia).
  eexists _, _. split; [done|]. split; [lia|]. split.
  - apply digits_unique. rewrite Z2Pos.id by done.
    pose proof (digits_bounds p) as Hb. fold d in Hb.
    assert (0 < 2 ^ (53 - d)) by (apply Z.pow_pos_nonneg; lia).
    assert (2 ^ (53 - 1) = 2 ^ (d - 1) * 2 ^ (53 - d)) as ->
      by (rewrite <- Z.pow_add_r by lia; f_equal; lia).
    assert (2 ^ 53 = 2 ^ d * 2 ^ (53 - d)) as ->
      by (rewrite <- Z.pow_add_r by lia; f_equal; lia).
    split; [apply Z.mul_le_mono_nonneg_r|apply Z.mul_lt_mono_pos_r]; lia.
  - split; [|done]. rewrite Z2Pos.id by done. do 2 f_equal. lia.
Qed.


Lemma aligned_value p m e ez k :
  Zpos m = Zpos p * 2 ^ (- e) → e <= 0 → ez <= e → k = - ez →
  Zpos (shl_align m e ez).1 = Zpos p * 2 ^ k.
Proof.
  intros Hm He Hez ->. rewrite shl_align_value, Hm by done.
  rewrite <- Z.mul_assoc, <- Z.pow_add_r by lia. do 2 f_equal. lia.
Qed.

(** Sums and differences of integers below [2^53] are exact. *)
Lemma add_sub_ofZ a b :
  0 <= a < 2 ^ 53 → 0 <= b < 2 ^ 53 →
  (a + b < 2 ^ 53 → add (ofZ a) (ofZ b) = ofZ (a + b))
  ∧ sub (ofZ a) (ofZ b) = ofZ (a - b).
Proof.
  intros Ha Hb. destruct a as [|pa|pa]; [|destruct b as [|pb|pb]|]; try lia.
  - destruct b as [|pb|pb]; try lia; [by split|].
    change (0 + Zpos pb) with (Zpos pb). change (0 - Zpos pb) with (Zneg pb).
    rewrite ofZ_pos, ofZ_neg by lia. by split.
  - rewrite Z.add_0_r, Z.sub_0_r, ofZ_pos by lia. by split.
  - rewrite !ofZ_pos by lia.
    destruct (canon_value false pa) as (ma & ea & -> & Hea & _ & Hma & _);
      [apply digits_le_53; lia|].
    destruct (canon_value false pb) as (mb & eb & -> & Heb & _ & Hmb & _);
      [apply digits_le_53; lia|].
    unfold add, sub. cbn [SFadd SFsub cond_Zopp].
    set (k := - Z.min ea eb).
    rewrite (aligned_value pa ma ea _ k), (aligned_value pb mb eb _ k) by (done || lia).
    replace (Z.min ea eb) with (- k) by lia.
    split.
    + intros Hsum.
      replace (Zpos pa * 2 ^ k + Zpos pb * 2 ^ k) with ((Zpos pa + Zpos pb) * 2 ^ k) by lia.
      apply normalize_scaled; lia.
    + replace (Zpos pa * 2 ^ k - Zpos pb * 2 ^ k) with ((Zpos pa - Zpos pb) * 2 ^ k) by lia.
      apply normalize_scaled; lia.
Qed.

Lemma add_ofZ_1 i : 0 <= i < 2 ^ 53 → add (ofZ i) (ofZ 1) = ofZ (i + 1).
Proof.
  intros Hi. destruct (Z.eq_dec i (2 ^ 53 - 1)) as [->|Hne]; [by vm_compute|].
  apply add_sub_ofZ; lia.
Qed.

(** Comparing canonical representations compares the integers. *)
Lemma compare_canon a b :
  Zpos a < 2 ^ 53 → Zpos b < 2 ^ 53 →
  SFcompare (canon false a) (canon false b) = Some (Zpos a ?= Zpos b).
Proof.
  intros Ha Hb.
  destruct (canon_value false a) as (ma & ea & -> & Hea & _ & Hma & Hda);
    [by apply digits_le_53|].
  destruct (canon_value false b) as (mb & eb & -> & Heb & _ & Hmb & Hdb);
    [by apply digits_le_53|].
  pose proof (digits_bounds a) as Ba. pose proof (digits_bounds b) as Bb.
  cbn [SFcompare]. f_equal.
  destruct (Z.compare_spec ea eb) as [Heq|Hlt|Hgt].
  - rewrite Pos.compare_cont_spec, Pos2Z.inj_compare, Hma, Hmb, <- Heq.
    rewrite <- (Zmult_compare_compat_r (Zpos a) (Zpos b) (2 ^ (- ea)))
      by (apply Z.lt_gt, Z.pow_pos_nonneg; lia).
    by destruct (Zpos a ?= Zpos b).
  - symmetry. apply Z.compare_lt_iff.
    assert (2 ^ Zpos (digits2_pos a) <= 2 ^ (Zpos (digits2_pos b) - 1))
      by (apply Z.pow_le_mono_r; lia). lia.
  - symmetry. apply Z.compare_gt_iff.
    assert (2 ^ Zpos (digits2_pos b) <= 2 ^ (Zpos (digits2_pos a) - 1))
      by (apply Z.pow_le_mono_r; lia). lia.
Qed.

Lemma compare_ofZ a b :
  0 <= a < 2 ^ 53 → 0 <= b < 2 ^ 53 → SFcompare (ofZ a) (ofZ b) = Some (a ?= b).
Proof.
  intros Ha Hb. destruct a as [|pa|pa], b as [|pb|pb]; try lia.
  - done.
  - rewrite ofZ_pos by lia. unfold canon. done.
  - rewrite ofZ_pos by lia. unfold canon. done.
  - rewrite !ofZ_pos by lia. apply compare_canon; lia.
Qed.

Lemma le_ofZ a b :
  0 <= a <= 2 ^ 53 → 0 <= b < 2 ^ 53 → le (ofZ a) (ofZ b) = (a <=? b).
Proof.
  intros Ha Hb. unfold le, SFleb.
  destruct (Z.eq_dec a (2 ^ 53)) as [->|Hne].
  - destruct b as [|pb|pb]; try lia; [done|].
    rewrite ofZ_pos by lia.
    destruct (canon_value false pb) as (mb & eb & -> & Heb & _);
      [apply digits_le_53; lia|].
    change (ofZ (2 ^ 53)) with (S754_finite false 4503599627370496 1).
    cbn [SFcompare]. destruct (Z.compare_spec 1 eb); lia.
  - rewrite compare_ofZ by lia. unfold Z.leb. by destruct (a ?= b).
Qed.

End FloatFacts.

(** ** Strings: splitting at a character *)

Lemma includes_char_cons c a s :
  includes (String a s) (String c "") = false
  ↔ a ≠ c ∧ includes s (String c "") = false.
Proof.
  cbn [includes String.prefix]. destruct (ascii_dec c a) as [->|Hne].
  - assert (String.prefix "" s = true) as -> by (by destruct s).
    cbn. split; [done|]. by intros [? _].
  - cbn. split; [|by intros [_ ?]]. intros Hs. split; [congruence|done].
Qed.

Lemma split_no_separator c s :
  includes s (String c "") = false → split c s = [s].
Proof.
  induction s as [|a s IH]; [done|].
  intros [Hne Hs]%includes_char_cons. cbn [split].
  rewrite (proj2 (Ascii.eqb_neq a c)) by done. by rewrite IH.
Qed.

Lemma split_at_separator c s1 s2 :
  includes s1 (String c "") = false →
  split c (s1 +:+ String c s2) = s1 :: split c s2.
Proof.
  induction s1 as [|a s1 IH].
  - intros _. change ("" +:+ String c s2) with (String c s2).
    cbn [split]. by rewrite Ascii.eqb_refl.
  - intros [Hne Hs]%includes_char_cons.
    change (String a s1 +:+ String c s2) with (String a (s1 +:+ String c s2)).
    cbn [split]. rewrite (proj2 (Ascii.eqb_neq a c)) by done. by rewrite IH.
Qed.

Lemma includes_separator c s1 s2 :
  includes (s1 +:+ String c s2) (String c "") = true.
Proof. apply includes_substring. by exists s1, s2. Qed.

(** ** The claim on [parsePhases] *)

Section PhaseClaims.
Context `{JsRuntime}.
Local Open Scope Z_scope.

Lemma push_room {A} (array : list A) x :
  Z.of_nat (length array) < Array_maxLength → push array x = Normal (array ++ [x]).
Proof. intros Hroom. unfold push. by rewrite (proj2 (Z.ltb_lt _ _)). Qed.

Lemma push_full {A} (array : list A) x :
  Array_maxLength <= Z.of_nat (length array) →
  push array x = Throw "RangeError: Invalid array length".
Proof. intros Hfull. unfold push. by rewrite (proj2 (Z.ltb_ge _ _)). Qed.

(** Below [2^53] the loop counts from [a] to [b], as long as the array
    has room. *)
Lemma phaseLoop_range n : ∀ fuel a b acc,
  n = Z.to_nat (b - a + 1) → 0 <= a <= 2 ^ 53 → 0 <= b < 2 ^ 53 → (n < fuel)%nat →
  Z.of_nat (length acc) + Z.of_nat n <= Array_maxLength →
  phaseLoop fuel (ofZ a) (ofZ b) acc = Normal (acc ++ (ofZ <$> seqZ a (b - a + 1))).
Proof.
  induction n as [|n IH]; intros fuel a b acc Hn Ha Hb Hfuel Hroom;
    (destruct fuel as [|fuel]; [lia|]); cbn [phaseLoop]; rewrite le_ofZ by done.
  - rewrite (proj2 (Z.leb_gt a b)) by lia.
    rewrite seqZ_nil by lia. by rewrite app_nil_r.
  - rewrite (proj2 (Z.leb_le a b)) by lia.
    rewrite push_room by lia. cbn [cbind].
    rewrite add_ofZ_1 by lia. rewrite (IH fuel (a + 1) b).
    + rewrite (seqZ_cons a) by lia. cbn [fmap list_fmap]. rewrite <- app_assoc. cbn [app].
      repeat f_equal; lia.
    + lia.
    + lia.
    + lia.
    + lia.
    + rewrite length_app. cbn [length]. lia.
Qed.

(** A range with more numbers than the array has room for fills the
    array, and the next [push] throws. *)
Lemma phaseLoop_overflow n : ∀ fuel a b acc,
  n = Z.to_nat (Array_maxLength - Z.of_nat (length acc)) →
  Z.of_nat (length acc) <= Array_maxLength →
  0 <= a → a + Z.of_nat n <= b → b < 2 ^ 53 → (n < fuel)%nat →
  phaseLoop fuel (ofZ a) (ofZ b) acc = Throw "RangeError: Invalid array length".
Proof.
  induction n as [|n IH]; intros fuel a b acc Hn Hlen Ha Hab Hb Hfuel;
    (destruct fuel as [|fuel]; [lia|]); cbn [phaseLoop]; rewrite le_ofZ by lia;
    rewrite (proj2 (Z.leb_le a b)) by lia.
  - by rewrite push_full by lia.
  - rewrite push_room by lia. cbn [cbind]. rewrite add_ofZ_1 by lia.
    apply IH; rewrite ?length_app; cbn [length]; lia.
Qed.

(** At [2^53] the counter no longer advances: the loop pushes the same
    number until the array is full. *)
Lemma phaseLoop_stuck n : ∀ fuel acc,
  n = Z.to_nat (Array_maxLength - Z.of_nat (length acc)) → (n < fuel)%nat →
  phaseLoop fuel (ofZ (2 ^ 53)) (ofZ (2 ^ 53)) acc
  = Throw "RangeError: Invalid array length".
Proof.
  induction n as [|n IH]; intros fuel acc Hn Hfuel;
    (destruct fuel as [|fuel]; [lia|]); cbn [phaseLoop];
    change (le (ofZ (2 ^ 53)) (ofZ (2 ^ 53))) with true; cbv iota.
  - by rewrite push_full by lia.
  - rewrite push_room by lia. cbn [cbind].
    change (add (ofZ (2 ^ 53)) (ofZ 1)) with (ofZ (2 ^ 53)).
    apply IH; rewrite ?length_app; cbn [length]; lia.
Qed.

Lemma parsePhases_stuck fuel :
  (Z.to_nat Array_maxLength < fuel)%nat →
  parsePhases fuel (JStr "9007199254740992-9007199254740992")
  = Throw "RangeError: Invalid array length".
Proof.
  intros Hfuel.
  change (parsePhases fuel (JStr "9007199254740992-9007199254740992"))
    with (result ←! phaseLoop fuel (ofZ (2 ^ 53)) (ofZ (2 ^ 53)) [];
          Normal (JArr (JNum <$> result))).
  rewrite (phaseLoop_stuck (Z.to_nat Array_maxLength)); [done| |done].
  cbn [length]. f_equal. lia.
Qed.


(** However much fuel there is, a range that does not fit is not
    returned. *)
Lemma phaseLoop_too_long fuel : ∀ a b acc result,
  0 <= a <= b → b < 2 ^ 53 →
  Array_maxLength < Z.of_nat (length acc) + (b - a + 1) →
  phaseLoop fuel (ofZ a) (ofZ b) acc ≠ Normal result.
Proof.
  induction fuel as [|fuel IH]; intros a b acc result Hab Hb Hlong; [done|].
  cbn [phaseLoop]. rewrite le_ofZ by lia. rewrite (proj2 (Z.leb_le a b)) by lia.
  destruct (Z.ltb_spec (Z.of_nat (length acc)) Array_maxLength) as [Hroom|Hfull].
  - rewrite push_room by done. cbn [cbind]. rewrite add_ofZ_1 by lia.
    apply IH; rewrite ?length_app; cbn [length]; lia.
  - by rewrite push_full by done.
Qed.

(** The range from 0 to [2^32 - 1] has one number more than any array
    holds: it is never returned. *)
Lemma parsePhases_too_long fuel result :
  parsePhases fuel (JStr "0-4294967295") ≠ Normal result.
Proof.
  pose proof Array_maxLength_bound as Hcap.
  change (parsePhases fuel (JStr "0-4294967295"))
    with (result ←! phaseLoop fuel (ofZ 0) (ofZ 4294967295) [];
          Normal (JArr (JNum <$> result))).
  pose proof (phaseLoop_too_long fuel 0 4294967295 []) as Hl.
  destruct (phaseLoop fuel (ofZ 0) (ofZ 4294967295) []) as [r| |]; cbn [cbind]; try done.
  exfalso. apply (Hl r); [lia|lia| |done]. cbn [length]. lia.
Qed.

(** C9, amended. Phase-range expansion: for an input [a-b] whose two
    parts hold no further [-] and parse as the integers [a] and [b],
    both below [2^53], [parsePhases] returns the consecutive list from
    [a] to [b] when an array can hold that many numbers, and throws a
    RangeError when it cannot; the list is empty when [a > b]; an input
    without [-] is handed to [parseSlots], which returns the parsed
    JSON of a bracketed input (the empty list when it does not parse)
    and otherwise the numbers between the commas, those that are not
    numbers removed. *)
Theorem phase_ranges :
  (∀ fuel sa sb a b,
     includes sa "-" = false → includes sb "-" = false →
     parseIntString (trim sa) = ofZ a → parseIntString (trim sb) = ofZ b →
     0 <= a < 2 ^ 53 → 0 <= b < 2 ^ 53 →
     (Z.to_nat (b - a + 1) < fuel)%nat →
     (b - a + 1 <= Array_maxLength →
      parsePhases fuel (JStr (sa +:+ "-" +:+ sb))
      = Normal (JArr (JNum <$> (ofZ <$> seqZ a (b - a + 1)))))
     ∧ (Array_maxLength < b - a + 1 →
        parsePhases fuel (JStr (sa +:+ "-" +:+ sb))
        = Throw "RangeError: Invalid array length")
     ∧ (b < a → parsePhases fuel (JStr (sa +:+ "-" +:+ sb)) = Normal (JArr [])))
  ∧ (∀ fuel s, includes s "-" = false →
               parsePhases fuel (JStr s) = parseSlots (JStr s))
  ∧ (∀ s, parseSlots (JStr s)
          = Normal (if startsWith s "[" && endsWith s "]"
                    then default (JArr []) (JSON_parse s)
                    else JArr (JNum <$> List.filter (λ n, negb (isNaN n))
                                 ((λ x, parseIntString (trim x)) <$> split "," s)))).
Proof.
  pose proof Array_maxLength_bound as Hcap.
  split; [|split].
  - intros fuel sa sb a b Hsa Hsb Hpa Hpb Ha Hb Hfuel.
    assert (parsePhases fuel (JStr (sa +:+ "-" +:+ sb))
            = (result ←! phaseLoop fuel (ofZ a) (ofZ b) [];
               Normal (JArr (JNum <$> result)))) as ->.
    { unfold parsePhases. change (sa +:+ "-" +:+ sb) with (sa +:+ String "-" sb).
      rewrite includes_separator, split_at_separator, split_no_separator by done.
      cbn [fmap list_fmap]. by rewrite Hpa, Hpb. }
    assert (b - a + 1 <= Array_maxLength →
            phaseLoop fuel (ofZ a) (ofZ b) []
            = Normal (ofZ <$> seqZ a (b - a + 1))) as Hrun.
    { intros Hfit.
      rewrite (phaseLoop_range (Z.to_nat (b - a + 1)) fuel a b []); try done; try lia.
      cbn [length]. lia. }
    split; [|split].
    + intros Hfit. by rewrite Hrun.
    + intros Hlong.
      rewrite (phaseLoop_overflow (Z.to_nat Array_maxLength) fuel a b []); try done;
        cbn [length]; lia.
    + intros Hlt. rewrite Hrun by lia. by rewrite seqZ_nil by lia.
  - intros fuel s Hs. unfold parsePhases. by rewrite Hs.
  - intros s. unfold parseSlots.
    destruct (startsWith s "[" && endsWith s "]"); [|done].
    by destruct (JSON_parse s).
Qed.

End PhaseClaims.

Lemma phase_ranges_witness :
  parsePhases (H := Demo.runtime) 4 (JStr "2-4")
  = Normal (JArr [JNum (ofZ 2); JNum (ofZ 3); JNum (ofZ 4)]).
Proof.
  destruct (phase_ranges (H := Demo.runtime)) as [Hrange _].
  destruct (Hrange 4%nat "2" "4" 2%Z 4%Z) as [Hrun _];
    [reflexivity..|lia|lia|cbn; lia|apply Hrun; by cbn].
Defined.

(** The claim as first stated, without the restriction to unsigned
    parts, fails on [-1-3]: the text splits into three parts, the first
    of them empty. *)
Lemma phase_ranges_negative_start :
  ¬ (∀ sa sb a b,
       parseIntString (trim sa) = ofZ a → parseIntString (trim sb) = ofZ b →
       ∃ fuel, parsePhases (H := Demo.runtime) fuel (JStr (sa +:+ "-" +:+ sb))
               = Normal (JArr (JNum <$> (ofZ <$> seqZ a (b - a + 1))))).
Proof.
  intros Hclaim.
  destruct (Hclaim "-1" "3" (-1)%Z 3%Z eq_refl eq_refl) as [fuel Hrun].
  by destruct fuel.
Qed.

(** ** Binary64 arithmetic: magnitudes *)

Section Magnitudes.
Local Open Scope Z_scope.

Lemma Zdigits2_bound z : 0 <= z → z < 2 ^ Zdigits2 z.
Proof.
  intros Hz. destruct z as [|p|p]; [done| |lia].
  cbn [Zdigits2]. apply digits_bounds.
Qed.

Lemma Zdigits2_nonneg z : 0 <= Zdigits2 z.
Proof. destruct z; cbn; lia. Qed.

Lemma Zdigits2_le z d : 0 <= z → 0 <= d → z < 2 ^ d → Zdigits2 z <= d.
Proof.
  intros Hz Hd Hlt. destruct z as [|p|p]; [done| |lia].
  cbn [Zdigits2]. rewrite Zdigits2_log2.
  assert (Z.log2 (Zpos p) < d); [|lia]. by apply Z.log2_lt_pow2.
Qed.

Lemma Zdigits2_div_pow2 m n :
  0 <= m → 0 <= n → Zdigits2 (m / 2 ^ n) <= Z.max 0 (Zdigits2 m - n).
Proof.
  intros Hm Hn. pose proof (Zdigits2_bound m Hm) as Hb.
  pose proof (Zdigits2_nonneg m) as Hd.
  assert (0 < 2 ^ n) by (apply Z.pow_pos_nonneg; lia).
  destruct (Z_le_gt_dec n (Zdigits2 m)) as [Hle|Hgt].
  - apply Zdigits2_le; [apply Z.div_pos; lia|lia|].
    apply Z.div_lt_upper_bound; [done|].
    rewrite <- Z.pow_add_r by lia.
    by replace (n + Z.max 0 (Zdigits2 m - n)) with (Zdigits2 m) by lia.
  - rewrite Z.div_small; [cbn; lia|]. split; [done|].
    eapply Z.lt_le_trans; [done|]. apply Z.pow_le_mono_r; lia.
Qed.

Lemma Zdigits2_succ m : 0 <= m → Zdigits2 (m + 1) <= Zdigits2 m + 1.
Proof.
  intros Hm. pose proof (Zdigits2_bound m Hm) as Hb.
  pose proof (Zdigits2_nonneg m) as Hd.
  apply Zdigits2_le; [lia..|]. rewrite Z.pow_add_r, Z.pow_1_r by lia. lia.
Qed.

Lemma Zdigits2_mul a b :
  0 <= a → 0 <= b → Zdigits2 (a * b) <= Zdigits2 a + Zdigits2 b.
Proof.
  intros Ha Hb. pose proof (Zdigits2_bound a Ha). pose proof (Zdigits2_bound b Hb).
  pose proof (Zdigits2_nonneg a). pose proof (Zdigits2_nonneg b).
  apply Zdigits2_le; [lia..|]. rewrite Z.pow_add_r by lia.
  apply Z.mul_lt_mono_nonneg; lia.
Qed.

Lemma Zdigits2_mono a b : 0 <= a <= b → Zdigits2 a <= Zdigits2 b.
Proof.
  intros Hab. apply Zdigits2_le; [lia|apply Zdigits2_nonneg|].
  eapply Z.le_lt_trans; [apply Hab|]. apply Zdigits2_bound. lia.
Qed.

Lemma round_nearest_even_cases m l :
  round_nearest_even m l = m ∨ round_nearest_even m l = m + 1.
Proof. destruct l as [|[]]; cbn; try destruct (Z.even m); auto. Qed.

(** The first step of rounding: how far the mantissa is shifted. *)
Lemma shr_fexp_spec m e l :
  0 <= m →
  let n := Z.max 0 (Z.max (Zdigits2 m + e - 53) (-1074) - e) in
  ∃ mrs, shr_fexp prec emax m e l = (mrs, e + n) ∧ shr_m mrs = m / 2 ^ n.
Proof.
  intros Hm n. unfold shr_fexp. rewrite fexp_eq.
  assert (∃ r s, shr_record_of_loc m l = {| shr_m := m; shr_r := r; shr_s := s |})
    as (r & s & ->) by (destruct l as [|[]]; cbn; eauto).
  destruct (Z_lt_le_dec 0 (Z.max (Zdigits2 m + e - 53) (-1074) - e)) as [Hpos|Hneg].
  - rewrite shr_pos by done. eexists. split.
    + f_equal. unfold n. lia.
    + rewrite shr_iter_m by done. do 2 f_equal. unfold n. lia.
  - exists {| shr_m := m; shr_r := r; shr_s := s |}.
    replace n with 0 by (unfold n; lia). rewrite Z.add_0_r, Z.pow_0_r, Z.div_1_r.
    split; [|done]. by destruct (Z.max _ _ - e); try lia.
Qed.

Lemma shr_fexp_mag m e l mrs e' :
  0 <= m → shr_fexp prec emax m e l = (mrs, e') →
  0 <= shr_m mrs ∧ e <= e'
  ∧ Zdigits2 (shr_m mrs) + e' <= Z.max (Zdigits2 m + e) (-1074).
Proof.
  intros Hm Hs. destruct (shr_fexp_spec m e l Hm) as (mrs0 & Heq & Hmrs).
  rewrite Hs in Heq. injection Heq as <- ->.
  set (n := Z.max 0 (Z.max (Zdigits2 m + e - 53) (-1074) - e)) in *.
  assert (0 <= n) by (unfold n; lia).
  rewrite Hmrs. split; [apply Z.div_pos; [lia|apply Z.pow_pos_nonneg; lia]|].
  split; [lia|].
  pose proof (Zdigits2_div_pow2 m n Hm). pose proof (Zdigits2_nonneg m).
  unfold n in *. lia.
Qed.

(** Rounding a non-negative mantissa keeps the sign and never yields NaN;
    the exponent does not decrease. *)
Lemma round_aux_signed s mx ex lx :
  0 <= mx → signed s (binary_round_aux prec emax s mx ex lx).
Proof.
  intros Hm. unfold binary_round_aux.
  destruct (shr_fexp prec emax mx ex lx) as [mrs' e'] eqn:H1.
  destruct (shr_fexp_mag _ _ _ _ _ Hm H1) as (Hm' & _).
  destruct (shr_fexp prec emax _ e' loc_Exact) as [mrs'' e''] eqn:H2.
  apply shr_fexp_mag in H2 as (Hm'' & _).
  - destruct (shr_m mrs'') as [|m|m]; [done| |lia]. by destruct (_ <=? _).
  - destruct (round_nearest_even_cases (shr_m mrs') (loc_of_shr_record mrs')) as [-> | ->]; lia.
Qed.

Lemma round_aux_exponent s mx ex lx s' m e :
  0 <= mx → binary_round_aux prec emax s mx ex lx = S754_finite s' m e → ex <= e.
Proof.
  intros Hm. unfold binary_round_aux.
  destruct (shr_fexp prec emax mx ex lx) as [mrs' e'] eqn:H1.
  destruct (shr_fexp_mag _ _ _ _ _ Hm H1) as (Hm' & He' & _).
  destruct (shr_fexp prec emax _ e' loc_Exact) as [mrs'' e''] eqn:H2.
  apply shr_fexp_mag in H2 as (Hm'' & He'' & _).
  - destruct (shr_m mrs'') as [|m0|m0]; [done| |done].
    destruct (_ <=? _); [|done]. intros [= _ _ <-]. lia.
  - destruct (round_nearest_even_cases (shr_m mrs') (loc_of_shr_record mrs')) as [-> | ->]; lia.
Qed.

(** Rounding does not overflow far from the largest exponent, and adds
    at most one binary digit to the magnitude. *)
Lemma round_aux_bounded s mx ex lx B :
  0 <= mx → Zdigits2 mx + ex <= B → -1074 <= B <= 970 →
  magLe (B + 1) (binary_round_aux prec emax s mx ex lx).
Proof.
  intros Hm Hmag HB. unfold binary_round_aux.
  destruct (shr_fexp prec emax mx ex lx) as [mrs' e'] eqn:H1.
  destruct (shr_fexp_mag _ _ _ _ _ Hm H1) as (Hm' & _ & Hmag').
  set (m1 := round_nearest_even (shr_m mrs') (loc_of_shr_record mrs')).
  assert (0 <= m1 ∧ Zdigits2 m1 <= Zdigits2 (shr_m mrs') + 1) as [Hm1 Hd1].
  { unfold m1.
    destruct (round_nearest_even_cases (shr_m mrs') (loc_of_shr_record mrs')) as [-> | ->].
    - lia.
    - split; [lia|]. by apply Zdigits2_succ. }
  destruct (shr_fexp prec emax m1 e' loc_Exact) as [mrs'' e''] eqn:H2.
  apply shr_fexp_mag in H2 as (Hm'' & _ & Hmag''); [|done].
  destruct (shr_m mrs'') as [|m|m]; [done| |lia].
  cbn [Zdigits2] in Hmag''.
  destruct (Z.leb_spec e'' (emax - prec)) as [Hle|Hgt]; unfold emax, prec in *.
  - cbn [magLe]. lia.
  - lia.
Qed.


Lemma magLe_mono B B' x : magLe B x → B <= B' → magLe B' x.
Proof. destruct x; cbn; lia. Qed.

Lemma magLe_not_nan B x : magLe B x → x ≠ NaN.
Proof. by destruct x. Qed.

Lemma signed_not_nan s x : signed s x → x ≠ NaN.
Proof. by destruct x. Qed.

Lemma canon_magLe s p : Zpos (digits2_pos p) <= 53 → magLe 53 (canon s p).
Proof.
  intros Hd. destruct (canon_value s p Hd) as (m & e & -> & He & Hm & _ & Hde).
  cbn. lia.
Qed.

(** The integers below [2^53] in absolute value have magnitude at most 53. *)
Lemma ofZ_magLe z : Z.abs z < 2 ^ 53 → magLe 53 (ofZ z).
Proof.
  intros Hz. destruct z as [|p|p]; [done|..].
  - rewrite ofZ_pos by lia. apply canon_magLe, digits_le_53. lia.
  - rewrite ofZ_neg by lia. apply canon_magLe, digits_le_53. lia.
Qed.

Lemma div_core_spec m1 e1 m2 e2 mz ez lz :
  SFdiv_core_binary prec emax (Zpos m1) e1 (Zpos m2) e2 = (mz, ez, lz) →
  0 <= mz ∧ Zdigits2 mz + ez <= Zpos (digits2_pos m1) + e1 - e2.
Proof.
  unfold SFdiv_core_binary.
  set (e' := Z.min _ (e1 - e2)). set (s := e1 - e2 - e').
  assert (0 <= s) as Hs by (unfold s, e'; lia).
  assert (match s with
          | Z0 => Zpos m1
          | Zpos _ => Z.shiftl (Zpos m1) s
          | Zneg _ => 0
          end = Zpos m1 * 2 ^ s) as ->.
  { destruct s as [|k|k] eqn:Es; [lia| |lia]. by rewrite Z.shiftl_mul_pow2. }
  assert (0 < 2 ^ s) by (apply Z.pow_pos_nonneg; lia).
  pose proof (Z_div_mod (Zpos m1 * 2 ^ s) (Zpos m2) eq_refl) as Hdm.
  destruct (Z.div_eucl (Zpos m1 * 2 ^ s) (Zpos m2)) as [q r].
  intros [= <- <- _]. destruct Hdm as [Hq Hr].
  assert (0 <= q) as Hq0 by nia.
  split; [done|].
  assert (Zdigits2 q <= Zdigits2 (Zpos m1 * 2 ^ s)) as Hd by (apply Zdigits2_mono; nia).
  rewrite Zdigits2_pos_mul_pow2 in Hd by done. unfold s in Hd. lia.
Qed.

(** A quotient by a number whose exponent is at least [-52]. *)
Lemma div_bounded x sy my ey B :
  magLe B x → -52 <= ey → -1074 <= B + 52 <= 970 →
  magLe (B + 53) (div x (S754_finite sy my ey)).
Proof.
  intros Hx Hey HB. destruct x as [sx| | |sx mx ex]; try done.
  unfold div. cbn [SFdiv magLe] in *.
  destruct (SFdiv_core_binary prec emax (Zpos mx) ex (Zpos my) ey) as [[mz ez] lz] eqn:Hc.
  apply div_core_spec in Hc as [Hmz Hmag].
  replace (B + 53) with (B + 52 + 1) by lia.
  apply round_aux_bounded; lia.
Qed.

Lemma mul_bounded x y Bx By :
  magLe Bx x → magLe By y → -1074 <= Bx + By <= 970 →
  magLe (Bx + By + 1) (mul x y).
Proof.
  intros Hx Hy HB.
  destruct x as [sx| | |sx mx ex], y as [sy| | |sy my ey]; try done.
  unfold mul. cbn [SFmul magLe] in *.
  apply round_aux_bounded; [lia| |lia].
  rewrite Pos2Z.inj_mul.
  pose proof (Zdigits2_mul (Zpos mx) (Zpos my)) as Hd. cbn [Zdigits2] in Hd.
  change (Zdigits2 (Zpos mx * Zpos my)) with (Zdigits2 (Zpos (mx * my))) in Hd.
  rewrite <- Pos2Z.inj_mul. lia.
Qed.

Lemma Math_max_0_bounded B x : magLe B x → magLe B (Math_max (ofZ 0) x).
Proof.
  destruct x as [sx| | |sx mx ex]; try done.
  intros Hx. change (ofZ 0) with (S754_zero false). cbn [Math_max].
  by destruct (lt _ _).
Qed.

Lemma binary_round_signed s m e : signed s (binary_round prec emax s m e).
Proof.
  unfold binary_round. destruct (shl_align m e _) as [mz ez].
  by apply round_aux_signed.
Qed.

Lemma binary_normalize_not_nan z e sz : binary_normalize prec emax z e sz ≠ NaN.
Proof.
  destruct z as [|p|p]; [done|..]; cbn [binary_normalize];
    eapply signed_not_nan, binary_round_signed.
Qed.

(** A difference of finite numbers is not NaN. *)
Lemma sub_not_nan x y Bx By : magLe Bx x → magLe By y → sub x y ≠ NaN.
Proof.
  intros Hx Hy.
  destruct x as [sx| | |sx mx ex], y as [sy| | |sy my ey]; try done.
  - unfold sub. cbn [SFsub]. by destruct sx, sy.
  - unfold sub. cbn [SFsub]. apply binary_normalize_not_nan.
Qed.


(** *** Clamping to the interval from 0 to 100 *)

Lemma Math_min_100 r :
  r ≠ NaN → Math_min (ofZ 100) r = if lt r (ofZ 100) then r else ofZ 100.
Proof. by destruct r. Qed.

Lemma Math_max_0 r :
  r ≠ NaN →
  Math_max (ofZ 0) r
  = if isZero r then ofZ 0 else if lt (ofZ 0) r then r else ofZ 0.
Proof. intros Hr. destruct r as [[]| | |]; done. Qed.

(** Only an integer from 0 to 100 passes the two bounds unchanged. *)
Lemma clamp_cases r :
  r ≠ NaN →
  lt r (ofZ 100) = false
  ∨ isZero r = true
  ∨ lt (ofZ 0) r = false
  ∨ (∃ j, 0 <= j <= 100 ∧ r = ofZ j) →
  ∃ j, 0 <= j <= 100 ∧ Math_max (ofZ 0) (Math_min (ofZ 100) r) = ofZ j.
Proof.
  intros Hr Hcase. rewrite Math_min_100 by done.
  destruct (lt r (ofZ 100)) eqn:Hlt.
  - rewrite Math_max_0 by done.
    destruct (isZero r) eqn:Hz; [by exists 0|].
    destruct (lt (ofZ 0) r) eqn:Hpos; [|by exists 0].
    destruct Hcase as [?|[?|[?|(j & Hj & ->)]]]; try done. by exists j.
  - by exists 100.
Qed.

Lemma binary_round_large p :
  2 ^ 53 <= Zpos p →
  lt (binary_round prec emax false p 0) (ofZ 100) = false
  ∨ isZero (binary_round prec emax false p 0) = true.
Proof.
  intros Hp. unfold binary_round.
  assert (54 <= Zpos (digits2_pos p)) as Hd.
  { rewrite Zdigits2_log2. assert (53 <= Z.log2 (Zpos p)); [|lia].
    by apply Z.log2_le_pow2. }
  rewrite fexp_eq. unfold shl_align.
  destruct (Z.max (Zpos (digits2_pos p) + 0 - 53) (-1074) - 0) eqn:E; try lia.
  pose proof (round_aux_signed false (Zpos p) 0 loc_Exact ltac:(lia)) as Hs.
  pose proof (λ s' m e, round_aux_exponent false (Zpos p) 0 loc_Exact s' m e ltac:(lia))
    as He.
  destruct (binary_round_aux prec emax false (Zpos p) 0 loc_Exact) as [s0|s0| |s0 m e];
    cbn [signed] in Hs; try done.
  - by right.
  - left. by subst s0.
  - left. subst s0. specialize (He false m e eq_refl). unfold lt, SFltb.
    change (ofZ 100) with (S754_finite false 7036874417766400 (-46)).
    cbn [SFcompare]. destruct (Z.compare_spec e (-46)); try done; lia.
Qed.

Lemma binary_round_negative p :
  lt (ofZ 0) (binary_round prec emax true p 0) = false.
Proof.
  pose proof (binary_round_signed true p 0) as Hs.
  destruct (binary_round prec emax true p 0) as [s0|s0| |s0 m e];
    cbn [signed] in Hs; try done; by subst.
Qed.

Lemma clamp_normalize k s :
  ∃ j, 0 <= j <= 100
       ∧ Math_max (ofZ 0) (Math_min (ofZ 100) (binary_normalize prec emax k 0 s)) = ofZ j.
Proof.
  apply clamp_cases; [apply binary_normalize_not_nan|].
  destruct k as [|p|p]; cbn [binary_normalize].
  - right. by left.
  - destruct (Z_lt_le_dec (Zpos p) (2 ^ 53)) as [Hsmall|Hlarge].
    + change (binary_round prec emax false p 0) with (ofZ (Zpos p)).
      destruct (Z_lt_le_dec (Zpos p) 100) as [Hlt|Hge].
      * do 3 right. exists (Zpos p). split; [lia|done].
      * left. unfold lt, SFltb. rewrite compare_ofZ by lia.
        by destruct (Z.compare_spec (Zpos p) 100); try lia.
    + destruct (binary_round_large p Hlarge) as [Hl|Hz]; [by left|right; by left].
  - do 2 right. left. apply binary_round_negative.
Qed.

Lemma clamp_round x :
  x ≠ NaN →
  ∃ j, 0 <= j <= 100 ∧ Math_max (ofZ 0) (Math_min (ofZ 100) (Math_round x)) = ofZ j.
Proof.
  intros Hx. destruct x as [s|s| |s m e]; [| |done|].
  - apply clamp_cases; [done|]. right. by left.
  - apply clamp_cases; [done|]. destruct s; [do 2 right|]; by left.
  - apply clamp_normalize.
Qed.

End Magnitudes.

(** ** The claim on the data-quality score *)

Section QualityClaims.
Local Open Scope Z_scope.

(** The score, given counts below [2^53]. *)
Lemma calculateDataQuality_range t e w :
  0 <= t < 2 ^ 53 → 0 <= e < 2 ^ 53 → 0 <= w < 2 ^ 53 →
  ∃ j, 0 <= j <= 100 ∧ calculateDataQuality (ofZ t) (ofZ e) (ofZ w) = ofZ j.
Proof.
  intros Ht He Hw. unfold calculateDataQuality.
  destruct t as [|p|p]; [by exists 100| |lia].
  assert (SFeqb (ofZ (Zpos p)) (ofZ 0) = false) as ->.
  { unfold SFeqb. rewrite compare_ofZ by lia. done. }
  assert (∃ sy my ey, ofZ (Zpos p) = S754_finite sy my ey ∧ -52 <= ey)
    as (sy & my & ey & HT & Hey).
  { rewrite ofZ_pos by lia.
    destruct (canon_value false p) as (m & e0 & -> & He0 & _); [apply digits_le_53; lia|].
    eexists _, _, _. split; [done|lia]. }
  apply clamp_round.
  destruct (add_sub_ofZ (Zpos p) e) as [_ ->]; [lia..|].
  rewrite HT.
  eapply sub_not_nan.
  - apply Math_max_0_bounded. apply mul_bounded; [apply div_bounded| |];
      [apply ofZ_magLe; lia|done|lia|apply (ofZ_magLe 100); by cbn|lia].
  - apply mul_bounded; [apply div_bounded| |];
      [apply ofZ_magLe; lia|done|lia|apply (ofZ_magLe 10); by cbn|lia].
Qed.

(** The score shown for a state whose arrays are of ordinary length. *)
Lemma dataQuality_range st :
  Z.of_nat (length (State.clients st) + length (State.workers st)
            + length (State.tasks st)) < 2 ^ 53 →
  Z.of_nat (length (State.errors st)) < 2 ^ 53 →
  ∃ j, 0 <= j <= 100 ∧ dataQuality st = ofZ j.
Proof.
  intros Hrecords Herrors. unfold dataQuality, totalRecords, errorCount, warningCount, ofNat.
  pose proof (List.filter_length_le isError (State.errors st)).
  pose proof (List.filter_length_le isWarning (State.errors st)).
  apply calculateDataQuality_range; lia.
Qed.

(** C10. Data-quality score bounds: the score is 100 when there is no
    record, and for all counts of records, errors and warnings (below
    [2^53], as the lengths of arrays are) it is an integer from 0 to
    100. *)
Theorem data_quality_bounds (records errors warnings : nat) :
  Z.of_nat records < 2 ^ 53 → Z.of_nat errors < 2 ^ 53 → Z.of_nat warnings < 2 ^ 53 →
  (records = 0%nat
   → calculateDataQuality (ofNat records) (ofNat errors) (ofNat warnings) = ofZ 100)
  ∧ ∃ j, 0 <= j <= 100
         ∧ calculateDataQuality (ofNat records) (ofNat errors) (ofNat warnings) = ofZ j.
Proof.
  intros Hr He Hw. split.
  - by intros ->.
  - apply calculateDataQuality_range; lia.
Qed.

End QualityClaims.

Lemma data_quality_bounds_witness :
  ∃ j, (0 <= j <= 100)%Z
       ∧ calculateDataQuality (ofNat 10) (ofNat 3) (ofNat 1) = ofZ j.
Proof. refine (proj2 (data_quality_bounds 10 3 1 _ _ _)); reflexivity. Defined.

(** ** Further properties of [validateData] *)

Section ValidationExtras.
Context `{JsRuntime}.

Lemma clientPushes_nil seen c :
  clientPushes seen c = [] ↔ (ClientID c ∉ seen) ∧ outOfRange (PriorityLevel c) = false.
Proof. pushes_cases; split; try done; intros [? ?]; done. Qed.

Lemma workerPushes_nil seen w :
  workerPushes seen w = [] ↔ (WorkerID w ∉ seen) ∧ outOfRange (QualificationLevel w) = false.
Proof. pushes_cases; split; try done; intros [? ?]; done. Qed.

Lemma clientErrors_nil l : ∀ seen,
  clientErrors seen l = []
  ↔ (∀ c, c ∈ l → ClientID c ∉ seen) ∧ NoDup (ClientID <$> l)
    ∧ Forall (λ c, outOfRange (PriorityLevel c) = false) l.
Proof.
  induction l as [|c l IH]; intros seen; cbn [clientErrors].
  - split; [|done]. intros _. repeat split; [|constructor|constructor].
    by intros c ?%elem_of_nil.
  - rewrite app_nil, clientPushes_nil, IH, fmap_cons, NoDup_cons, Forall_cons.
    split.
    + intros [[Hc Hr] (Hseen & Hnd & Hall)]. repeat split; try done.
      * intros c' [->|Hc']%elem_of_cons; [done|].
        intros Hin. apply (Hseen c' Hc'), elem_of_union. by right.
      * intros (c' & Heq & Hc')%list_elem_of_fmap.
        apply (Hseen c' Hc'), elem_of_union. left. by apply elem_of_singleton.
    + intros (Hseen & [Hc Hnd] & [Hr Hall]). repeat split; try done.
      * apply Hseen. left.
      * intros c' Hc'. apply not_elem_of_union. split.
        -- intros Heq%elem_of_singleton. apply Hc. rewrite <- Heq.
           by apply list_elem_of_fmap_2.
        -- apply Hseen. by right.
Qed.

Lemma workerErrors_nil l : ∀ seen,
  workerErrors seen l = []
  ↔ (∀ w, w ∈ l → WorkerID w ∉ seen) ∧ NoDup (WorkerID <$> l)
    ∧ Forall (λ w, outOfRange (QualificationLevel w) = false) l.
Proof.
  induction l as [|c l IH]; intros seen; cbn [workerErrors].
  - split; [|done]. intros _. repeat split; [|constructor|constructor].
    by intros c ?%elem_of_nil.
  - rewrite app_nil, workerPushes_nil, IH, fmap_cons, NoDup_cons, Forall_cons.
    split.
    + intros [[Hc Hr] (Hseen & Hnd & Hall)]. repeat split; try done.
      * intros c' [->|Hc']%elem_of_cons; [done|].
        intros Hin. apply (Hseen c' Hc'), elem_of_union. by right.
      * intros (c' & Heq & Hc')%list_elem_of_fmap.
        apply (Hseen c' Hc'), elem_of_union. left. by apply elem_of_singleton.
    + intros (Hseen & [Hc Hnd] & [Hr Hall]). repeat split; try done.
      * apply Hseen. left.
      * intros c' Hc'. apply not_elem_of_union. split.
        -- intros Heq%elem_of_singleton. apply Hc. rewrite <- Heq.
           by apply list_elem_of_fmap_2.
        -- apply Hseen. by right.
Qed.

Lemma fmap_eq_nil {A B} (f : A → B) (l : list A) : f <$> l = [] ↔ l = [].
Proof. split; [apply fmap_nil_inv|by intros ->]. Qed.

Lemma unknownTasks_nil ts cs :
  flat_map (unknownTasks ts) cs = []
  ↔ Forall (λ c, Forall (λ taskId, taskId ∈ TaskID <$> ts) (RequestedTaskIDs c)) cs.
Proof.
  induction cs as [|c cs IH]; cbn [flat_map].
  - split; [constructor|done].
  - rewrite app_nil, IH, Forall_cons. apply and_iff_compat_r.
    unfold unknownTasks. rewrite fmap_eq_nil.
    generalize (RequestedTaskIDs c) as ids.
    induction ids as [|t ids IHids]; cbn [List.filter].
    + split; [constructor|done].
    + rewrite Forall_cons, <- IHids. case_bool_decide as Hin.
      * split; [done|]. by intros [? _].
      * tauto.
Qed.

Lemma durationErrors_nil ts :
  durationErrors ts = [] ↔ Forall (λ t, lt (Duration t) (ofZ 1) = false) ts.
Proof.
  unfold durationErrors. rewrite fmap_eq_nil.
  induction ts as [|t ts IH]; cbn [List.filter].
  - split; [constructor|done].
  - rewrite Forall_cons, <- IH. destruct (lt _ _); [|tauto].
    split; [done|]. by intros [? _].
Qed.

(** X1. [validateData] reports nothing exactly when the client IDs are
    pairwise distinct, the worker IDs are pairwise distinct, every
    priority and qualification level passes the range test, no
    duration is below 1 and every requested task ID is the ID of a
    task. *)
Theorem validateData_clean_iff cs ws ts :
  validateData cs ws ts = []
  ↔ NoDup (ClientID <$> cs)
    ∧ Forall (λ c, outOfRange (PriorityLevel c) = false) cs
    ∧ Forall (λ c, Forall (λ taskId, taskId ∈ TaskID <$> ts) (RequestedTaskIDs c)) cs
    ∧ NoDup (WorkerID <$> ws)
    ∧ Forall (λ w, outOfRange (QualificationLevel w) = false) ws
    ∧ Forall (λ t, lt (Duration t) (ofZ 1) = false) ts.
Proof.
  rewrite validateData_segments, !app_nil.
  rewrite clientErrors_nil, workerErrors_nil, unknownTasks_nil, durationErrors_nil.
  split.
  - intros ((_ & ? & ?) & ? & (_ & ? & ?) & ?). done.
  - intros (? & ? & ? & ? & ? & ?).
    repeat split; try done; intros ? _; apply not_elem_of_empty.
Qed.

End ValidationExtras.

(** ** Where an error comes from *)

Section ErrorOrigins.
Context `{JsRuntime}.

Lemma elem_of_clientErrors e l : ∀ seen,
  e ∈ clientErrors seen l → ∃ c, c ∈ l ∧ (e = dupClientError c ∨ e = priorityError c).
Proof.
  induction l as [|c l IH]; intros seen; cbn [clientErrors].
  - by intros ?%elem_of_nil.
  - intros [He|He]%elem_of_app.
    + exists c. split; [left|]. revert He.
      pushes_cases; rewrite ?elem_of_cons, ?elem_of_nil; tauto.
    + destruct (IH _ He) as (c' & Hc' & Hcase). exists c'. split; [by right|done].
Qed.

Lemma elem_of_workerErrors e l : ∀ seen,
  e ∈ workerErrors seen l → ∃ w, w ∈ l ∧ (e = dupWorkerError w ∨ e = qualificationError w).
Proof.
  induction l as [|w l IH]; intros seen; cbn [workerErrors].
  - by intros ?%elem_of_nil.
  - intros [He|He]%elem_of_app.
    + exists w. split; [left|]. revert He.
      pushes_cases; rewrite ?elem_of_cons, ?elem_of_nil; tauto.
    + destruct (IH _ He) as (w' & Hw' & Hcase). exists w'. split; [by right|done].
Qed.

Lemma elem_of_durationErrors e ts :
  e ∈ durationErrors ts → ∃ t, t ∈ ts ∧ e = durationError t.
Proof.
  unfold durationErrors. intros (t & -> & Ht)%list_elem_of_fmap.
  apply list_elem_of_In, filter_In in Ht as [Ht _].
  exists t. split; [by apply list_elem_of_In|done].
Qed.

(** Every error is one of the six kinds, built from a record of the
    data. *)
Lemma elem_of_validateData e cs ws ts :
  e ∈ validateData cs ws ts →
  (∃ c, c ∈ cs ∧ (e = dupClientError c ∨ e = priorityError c
                  ∨ ∃ taskId, taskId ∈ RequestedTaskIDs c ∧ e = unknownTaskError c taskId))
  ∨ (∃ w, w ∈ ws ∧ (e = dupWorkerError w ∨ e = qualificationError w))
  ∨ (∃ t, t ∈ ts ∧ e = durationError t).
Proof.
  rewrite validateData_segments, !elem_of_app.
  intros [He|[He|[He|He]]].
  - left. apply elem_of_clientErrors in He as (c & Hc & Hcase).
    exists c. split; [done|tauto].
  - left. apply elem_of_unknownTasks in He as (c & taskId & Hc & Ht & _ & ->).
    exists c. split; [done|]. right. right. by exists taskId.
  - right. left. by apply elem_of_workerErrors in He.
  - right. right. by apply elem_of_durationErrors in He.
Qed.

(** X2. Everything [validateData] reports has severity [error] and
    carries a field and a suggestion: the filter behind [warningCount]
    keeps nothing of its result and the filter behind [errorCount]
    keeps all of it. *)
Theorem validateData_errors_only cs ws ts :
  Forall (λ e, ValidationError.type e = error
               ∧ is_Some (ValidationError.field e)
               ∧ is_Some (ValidationError.suggestion e)) (validateData cs ws ts)
  ∧ List.filter isWarning (validateData cs ws ts) = []
  ∧ List.filter isError (validateData cs ws ts) = validateData cs ws ts.
Proof.
  assert (Forall (λ e, ValidationError.type e = error
                       ∧ is_Some (ValidationError.field e)
                       ∧ is_Some (ValidationError.suggestion e))
                 (validateData cs ws ts)) as Hall.
  { apply Forall_forall. intros e He.
    apply elem_of_validateData in He
      as [(c & _ & [-> | [-> | (t & _ & ->)]]) | [(w & _ & [-> | ->]) | (t & _ & ->)]];
      by repeat split. }
  split; [done|]. induction Hall as [|e l (Hty & _ & _) _ [IH1 IH2]]; [done|].
  cbn [List.filter]. unfold isWarning at 1, isError at 1. rewrite Hty.
  split; [done|]. by rewrite IH2.
Qed.

(** X3. Every error points at a record of the data and at one of its
    columns: an error on a client column carries the ID of a client of
    the data, an error on a worker column the ID of a worker, and an
    error on [Duration] the ID of a task. *)
Theorem validateData_entity_ids cs ws ts e :
  e ∈ validateData cs ws ts →
  (ValidationError.field e ∈ [Some "ClientID"; Some "PriorityLevel"; Some "RequestedTaskIDs"]
   ∧ ValidationError.entityId e ∈ ClientID <$> cs)
  ∨ (ValidationError.field e ∈ [Some "WorkerID"; Some "QualificationLevel"]
     ∧ ValidationError.entityId e ∈ WorkerID <$> ws)
  ∨ (ValidationError.field e = Some "Duration"
     ∧ ValidationError.entityId e ∈ TaskID <$> ts).
Proof.
  intros [(c & Hc & Hcase)|[(w & Hw & Hcase)|(t & Ht & ->)]]%elem_of_validateData.
  - left. split.
    + destruct Hcase as [-> | [-> | (t & _ & ->)]]; cbn; set_solver.
    + destruct Hcase as [-> | [-> | (t & _ & ->)]];
        exact (list_elem_of_fmap_2 ClientID _ _ Hc).
  - right. left. split.
    + destruct Hcase as [->| ->]; cbn; set_solver.
    + destruct Hcase as [->| ->]; exact (list_elem_of_fmap_2 WorkerID _ _ Hw).
  - right. right. split; [done|]. exact (list_elem_of_fmap_2 TaskID _ _ Ht).
Qed.

End ErrorOrigins.

Lemma validateData_entity_ids_witness :
  (ValidationError.field (priorityError (H := Demo.runtime) (Sample.client "C1" 7 []))
     ∈ [Some "ClientID"; Some "PriorityLevel"; Some "RequestedTaskIDs"]
   ∧ "C1" ∈ ClientID <$> [Sample.client "C1" 7 []])
  ∨ (ValidationError.field (priorityError (H := Demo.runtime) (Sample.client "C1" 7 []))
       ∈ [Some "WorkerID"; Some "QualificationLevel"]
     ∧ "C1" ∈ WorkerID <$> [Sample.worker "W1" 3])
  ∨ (ValidationError.field (priorityError (H := Demo.runtime) (Sample.client "C1" 7 []))
       = Some "Duration"
     ∧ "C1" ∈ TaskID <$> [Sample.task "T1" 2]).
Proof.
  apply (validateData_entity_ids (H := Demo.runtime)
           [Sample.client "C1" 7 []] [Sample.worker "W1" 3] [Sample.task "T1" 2]
           (priorityError (H := Demo.runtime) (Sample.client "C1" 7 []))).
  vm_compute. left.
Defined.

(** ** The assistant without an answer *)

Section AssistantFacts.
Context `{JsRuntime}.

(** Without an answer [generateContent] returns one of its two
    fixed texts. *)
Lemma generateContent_noAnswer this prompt :
  noAnswer this prompt →
  generateContent this prompt = "API key not configured"
  ∨ generateContent this prompt = "AI temporarily unavailable".
Proof.
  unfold noAnswer, generateContent.
  destruct (apiKey this) as [[|c key]|]; [by left| |by left].
  destruct (fetch this _ prompt) as [| |[[|d text]|]]; by right.
Qed.

Lemma suggestCorrections_basic this errors msg :
  aiCorrections this errors = Throw msg →
  suggestCorrections this errors = JObj <$> (basicCorrection <$> errors).
Proof.
  intros Hai. unfold suggestCorrections. rewrite Hai.
  by destruct errors.
Qed.

Lemma aiCorrections_noAnswer this errors :
  JSON_parse "API key not configured" = None →
  JSON_parse "AI temporarily unavailable" = None →
  noAnswer this (correctionsPrompt errors) →
  aiCorrections this errors = Throw "No valid JSON found in response".
Proof.
  intros Hp1 Hp2 Hno. unfold aiCorrections.
  destruct (generateContent_noAnswer _ _ Hno) as [-> | ->].
  - change (trim (stripFences "API key not configured")) with "API key not configured".
    by rewrite Hp1.
  - change (trim (stripFences "AI temporarily unavailable"))
      with "AI temporarily unavailable".
    by rewrite Hp2.
Qed.

(** X4. When the AI attempt of [suggestCorrections] fails on the
    errors of [validateData], there is one correction per error, in
    the order of the errors, and it carries the error's entity, field,
    suggestion and message: the placeholders [unknown] and
    [Fix manually] are never used for the field and the suggested
    value. *)
Theorem suggestCorrections_fallback this cs ws ts msg :
  aiCorrections this (validateData cs ws ts) = Throw msg →
  length (suggestCorrections this (validateData cs ws ts))
  = length (validateData cs ws ts)
  ∧ ∀ i e, validateData cs ws ts !! i = Some e →
      ∃ f s, ValidationError.field e = Some f ∧ f ≠ "unknown"
             ∧ ValidationError.suggestion e = Some s ∧ s ≠ "Fix manually"
             ∧ suggestCorrections this (validateData cs ws ts) !! i
               = Some (JObj [ ("entityId", JStr (ValidationError.entityId e));
                              ("field", JStr f);
                              ("currentValue", JStr "unknown");
                              ("suggestedValue", JStr s);
                              ("reason", JStr (ValidationError.message e)) ]).
Proof.
  intros Hai. rewrite (suggestCorrections_basic _ _ _ Hai). split.
  - by rewrite !length_fmap.
  - intros i e Hi. rewrite !list_lookup_fmap, Hi. cbn [fmap option_fmap option_map].
    apply list_elem_of_lookup_2, elem_of_validateData in Hi
      as [(c & _ & [-> | [-> | (t & _ & ->)]]) | [(w & _ & [-> | ->]) | (t & _ & ->)]];
      (do 2 eexists; split; [reflexivity|]; split; [done|];
       split; [reflexivity|]; split; [done|]; reflexivity).
Qed.

(** X5. [suggestCorrections] does not test for the two fixed texts of
    [generateContent]; as a JSON parser rejects them, a request without
    an answer still ends in the fallback: one basic correction per
    error.  With no error there is no correction, whatever the AI
    would say. *)
Theorem suggestCorrections_noAnswer this errors :
  JSON_parse "API key not configured" = None →
  JSON_parse "AI temporarily unavailable" = None →
  noAnswer this (correctionsPrompt errors) →
  suggestCorrections this errors = JObj <$> (basicCorrection <$> errors)
  ∧ suggestCorrections this [] = [].
Proof.
  intros Hp1 Hp2 Hno. split; [|done].
  eapply suggestCorrections_basic. by apply aiCorrections_noAnswer.
Qed.

End AssistantFacts.

Lemma suggestCorrections_fallback_witness :
  length (suggestCorrections (H := Demo.runtime) Sample.offline
            (validateData (H := Demo.runtime) [Sample.client "C1" 7 ["T9"]] [] []))
  = length (validateData (H := Demo.runtime) [Sample.client "C1" 7 ["T9"]] [] [])
  ∧ ∀ i e,
      validateData (H := Demo.runtime) [Sample.client "C1" 7 ["T9"]] [] [] !! i = Some e →
      ∃ f s, ValidationError.field e = Some f ∧ f ≠ "unknown"
             ∧ ValidationError.suggestion e = Some s ∧ s ≠ "Fix manually"
             ∧ suggestCorrections (H := Demo.runtime) Sample.offline
                 (validateData (H := Demo.runtime) [Sample.client "C1" 7 ["T9"]] [] []) !! i
               = Some (JObj [ ("entityId", JStr (ValidationError.entityId e));
                              ("field", JStr f);
                              ("currentValue", JStr "unknown");
                              ("suggestedValue", JStr s);
                              ("reason", JStr (ValidationError.message e)) ]).
Proof.
  apply (suggestCorrections_fallback (H := Demo.runtime) Sample.offline
           [Sample.client "C1" 7 ["T9"]] [] [] "No valid JSON found in response").
  vm_compute. reflexivity.
Defined.

Lemma suggestCorrections_noAnswer_witness :
  suggestCorrections (H := Demo.runtime) Sample.offline
    [priorityError (H := Demo.runtime) (Sample.client "C1" 7 [])]
  = JObj <$> (basicCorrection
                <$> [priorityError (H := Demo.runtime) (Sample.client "C1" 7 [])])
  ∧ suggestCorrections (H := Demo.runtime) Sample.offline [] = [].
Proof.
  apply (suggestCorrections_noAnswer (H := Demo.runtime) Sample.offline
           [priorityError (H := Demo.runtime) (Sample.client "C1" 7 [])]);
    [reflexivity | reflexivity | exact I].
Defined.

(** ** Rules from descriptions *)

Section RuleFacts.
Context `{JsRuntime}.

Lemma foldl_insert_notin (k : string) (l : list (string * Json)) : ∀ m : gmap string Json,
  k ∉ l.*1 → foldl (λ rule kv, <[kv.1 := kv.2]> rule) m l !! k = m !! k.
Proof.
  induction l as [|[k' v'] l IH]; intros m Hk; cbn [foldl]; [done|].
  rewrite fmap_cons, not_elem_of_cons in Hk. destruct Hk as [Hne Hk].
  rewrite IH by done. cbn. by rewrite lookup_insert_ne.
Qed.

Lemma foldl_insert_lookup (k : string) (v : Json) (l : list (string * Json)) :
  ∀ m : gmap string Json,
  NoDup l.*1 → (k, v) ∈ l → foldl (λ rule kv, <[kv.1 := kv.2]> rule) m l !! k = Some v.
Proof.
  induction l as [|[k' v'] l IH]; intros m Hnd Hin; cbn [foldl].
  - by apply elem_of_nil in Hin.
  - rewrite fmap_cons, NoDup_cons in Hnd. destruct Hnd as [Hk' Hnd].
    apply elem_of_cons in Hin as [Heq|Hin].
    + injection Heq as -> ->. rewrite foldl_insert_notin by done.
      cbn. by rewrite lookup_insert_eq.
    + by apply IH.
Qed.

Lemma foldl_insert_is_Some (k : string) (l : list (string * Json)) :
  ∀ m : gmap string Json,
  is_Some (m !! k) → is_Some (foldl (λ rule kv, <[kv.1 := kv.2]> rule) m l !! k).
Proof.
  induction l as [|[k' v'] l IH]; intros m Hm; cbn [foldl]; [done|].
  apply IH. cbn. destruct (decide (k' = k)) as [->|Hne].
  - rewrite lookup_insert_eq. by eexists.
  - by rewrite lookup_insert_ne.
Qed.

(** X6. The rule [convertToRule] returns is always active and always
    has an [id].  When the response parses, every property of the
    parsed value other than [active] reaches the rule as it is, so an
    [id] or a [description] sent by the AI replaces the generated ID
    and is what the rule keeps; the generated ID [rule-<now>] stays
    only when the parsed value has no [id]. *)
Theorem convertToRule_shape this now description :
  convertToRule this now description !! "active" = Some (JBool true)
  ∧ is_Some (convertToRule this now description !! "id")
  ∧ ∀ parsed,
      JSON_parse (stripFences (generateContent this (rulePrompt description)))
      = Some parsed →
      ("id" ∉ (spread parsed).*1
       → convertToRule this now description !! "id"
         = Some (JStr ("rule-" +:+ Number_toString now)))
      ∧ ∀ k v, k ≠ "active" → NoDup (spread parsed).*1 → (k, v) ∈ spread parsed →
               convertToRule this now description !! k = Some v.
Proof.
  unfold convertToRule.
  destruct (JSON_parse _) as [parsed|].
  - split; [by rewrite lookup_insert_eq|]. split.
    + rewrite lookup_insert_ne by done. apply foldl_insert_is_Some.
      rewrite lookup_singleton_eq. by eexists.
    + intros ? [= <-]. split.
      * intros Hid. rewrite lookup_insert_ne by done.
        rewrite foldl_insert_notin by done. by rewrite lookup_singleton_eq.
      * intros k v Hk Hnd Hin. rewrite lookup_insert_ne by done.
        by apply foldl_insert_lookup.
  - repeat split; [by eexists|done].
Qed.

(** X7. Without an answer from the AI, as a JSON parser rejects the
    two fixed texts of [generateContent], [convertToRule] returns the
    custom rule: type [custom], name [Custom Rule], an empty
    configuration, and the description the user typed. *)
Theorem convertToRule_noAnswer this now description :
  JSON_parse "API key not configured" = None →
  JSON_parse "AI temporarily unavailable" = None →
  noAnswer this (rulePrompt description) →
  convertToRule this now description = customRule now description
  ∧ convertToRule this now description !! "description" = Some (JStr description)
  ∧ convertToRule this now description !! "type" = Some (JStr "custom").
Proof.
  intros Hp1 Hp2 Hno.
  assert (convertToRule this now description = customRule now description) as ->.
  { unfold convertToRule.
    destruct (generateContent_noAnswer _ _ Hno) as [-> | ->].
    - change (stripFences "API key not configured") with "API key not configured".
      by rewrite Hp1.
    - change (stripFences "AI temporarily unavailable") with "AI temporarily unavailable".
      by rewrite Hp2. }
  done.
Qed.

End RuleFacts.

Lemma convertToRule_noAnswer_witness :
  convertToRule (H := Demo.runtime) Sample.offline (ofZ 7) "T1 and T2 together"
  = customRule (H := Demo.runtime) (ofZ 7) "T1 and T2 together"
  ∧ convertToRule (H := Demo.runtime) Sample.offline (ofZ 7) "T1 and T2 together"
      !! "description" = Some (JStr "T1 and T2 together")
  ∧ convertToRule (H := Demo.runtime) Sample.offline (ofZ 7) "T1 and T2 together"
      !! "type" = Some (JStr "custom").
Proof.
  apply (convertToRule_noAnswer (H := Demo.runtime) Sample.offline (ofZ 7)
           "T1 and T2 together"); [reflexivity | reflexivity | exact I].
Defined.

(** ** Search results *)

Section SearchFacts.
Context `{JsRuntime}.

Lemma filter_sublist {A} (f : A → bool) (l : list A) : sublist (List.filter f l) l.
Proof.
  induction l as [|x l IH]; cbn [List.filter]; [constructor|].
  destruct (f x); by constructor.
Qed.

Lemma localSearch_spec query data :
  length (localSearch query data) ≤ 20
  ∧ sublist (localSearch query data) data
  ∧ Forall (λ item, includes (toLowerCase (JSON_stringify item)) (toLowerCase query) = true)
           (localSearch query data).
Proof.
  unfold localSearch. repeat split.
  - rewrite length_take. lia.
  - etrans; [apply sublist_take|apply filter_sublist].
  - apply Forall_take, Forall_forall. intros item Hin.
    by apply list_elem_of_In, filter_In in Hin as [_ Hin].
Qed.

Lemma aiSearch_length this query data parsed :
  aiSearch this query data = Normal parsed → length parsed ≤ 20.
Proof.
  unfold aiSearch. destruct (_ || _); [done|].
  destruct (match JSON_parse _ with Some v => Normal v | None => _ end)
    as [[| | | |items|]| |]; cbn [cbind]; try done.
  intros [= <-]. rewrite length_take. lia.
Qed.

(** X8. [searchData] never returns more than 20 results, from either
    source.  Results of the source [local] are items of the data, in
    the order of the data, and the lowercased serialisation of each
    includes the lowercased query. *)
Theorem searchData_results this query data :
  length (results (searchData this query data)) ≤ 20
  ∧ (source (searchData this query data) = local →
     sublist (results (searchData this query data)) data
     ∧ Forall (λ item, includes (toLowerCase (JSON_stringify item))
                                (toLowerCase query) = true)
              (results (searchData this query data))).
Proof.
  pose proof (localSearch_spec query data) as (Hlen & Hsub & Hall).
  unfold searchData. destruct (_ || _).
  - cbn. split; [lia|]. intros _. split; [apply sublist_nil_l|constructor].
  - destruct (aiSearch this query data) as [parsed| |] eqn:Hai; cbn; try done.
    split; [|done]. by eapply aiSearch_length.
Qed.

(** X9. [handleSearch] sets no result and no source for a blank query;
    otherwise it searches the clients, then the workers, then the
    tasks, and what it shows obeys the same bounds: at most 20
    results, and records of the data when the source is not the AI. *)
Theorem handleSearch_results this searchQuery st :
  (String.eqb (trim searchQuery) "" = true → handleSearch this searchQuery st = ([], None))
  ∧ length (handleSearch this searchQuery st).1 ≤ 20
  ∧ ((handleSearch this searchQuery st).2 ≠ Some ai →
     sublist (handleSearch this searchQuery st).1 (allData st)).
Proof.
  unfold handleSearch. destruct (String.eqb _ _) eqn:Hq.
  - cbn. repeat split; [lia|]. intros _. apply sublist_nil_l.
  - pose proof (localSearch_spec searchQuery (allData st)) as (Hlen & Hsub & _).
    cbn [fst snd]. split; [done|]. unfold searchData.
    destruct (_ || _); cbn [results source].
    + split; [cbn; lia|]. intros _. apply sublist_nil_l.
    + destruct (aiSearch this searchQuery (allData st)) as [parsed| |] eqn:Hai;
        cbn [results source]; try done.
      split; [by eapply aiSearch_length|]. by intros [].
Qed.

(** X10. Whatever makes the request fail (no key, a rejected or
    refused request, a reply without text), a search with a query that
    is not blank returns the local matches. *)
Theorem searchData_noAnswer this query data :
  String.eqb (trim query) "" = false →
  noAnswer this (searchPrompt query data) →
  searchData this query data = {| results := localSearch query data; source := local |}.
Proof.
  intros Hq Hno. unfold searchData. rewrite Hq. cbn [orb].
  destruct data as [|item data]; [done|]. cbn [length Nat.eqb].
  unfold aiSearch.
  by destruct (generateContent_noAnswer _ _ Hno) as [-> | ->].
Qed.

End SearchFacts.

Lemma searchData_noAnswer_witness :
  searchData (H := Demo.runtime) Sample.offline "ali" [Sample.alice; Sample.bob]
  = {| results := localSearch (H := Demo.runtime) "ali" [Sample.alice; Sample.bob];
       source := local |}.
Proof.
  apply (searchData_noAnswer (H := Demo.runtime) Sample.offline "ali"
           [Sample.alice; Sample.bob]); [reflexivity | exact I].
Defined.

(** ** List cells *)

Lemma split_parts c s :
  Forall (λ p, includes p (String c "") = false) (split c s).
Proof.
  induction s as [|a s IH]; cbn [split].
  - by repeat constructor.
  - destruct (Ascii.eqb a c) eqn:Hac.
    + by constructor.
    + apply Ascii.eqb_neq in Hac.
      destruct (split c s) as [|h t]; inversion IH; subst; constructor;
        try done; by apply includes_char_cons.
Qed.

Lemma trimStart_separator c s :
  includes s (String c "") = false → includes (trimStart s) (String c "") = false.
Proof.
  induction s as [|a s IH]; [done|].
  intros Hs. cbn [trimStart]. destruct (isWhiteSpace a); [|done].
  apply includes_char_cons in Hs as [_ Hs]. by apply IH.
Qed.

Lemma trimEnd_separator c s :
  includes s (String c "") = false → includes (trimEnd s) (String c "") = false.
Proof.
  induction s as [|a s IH]; [done|].
  intros [Hne Hs]%includes_char_cons. cbn [trimEnd].
  specialize (IH Hs). destruct (trimEnd s) as [|b r].
  - destruct (isWhiteSpace a); [done|]. by apply includes_char_cons.
  - by apply includes_char_cons.
Qed.

Lemma trimStart_head s :
  trimStart s = "" ∨ ∃ a r, trimStart s = String a r ∧ isWhiteSpace a = false.
Proof.
  induction s as [|a s IH]; [by left|].
  cbn [trimStart]. destruct (isWhiteSpace a) eqn:Ha; [done|].
  right. by exists a, s.
Qed.

Lemma trimEnd_head a r :
  isWhiteSpace a = false → ∃ r', trimEnd (String a r) = String a r'.
Proof.
  intros Ha. cbn [trimEnd]. rewrite Ha. destruct (trimEnd r); by eexists.
Qed.

Lemma trimEnd_idem s : trimEnd (trimEnd s) = trimEnd s.
Proof.
  induction s as [|a s IH]; [done|].
  cbn [trimEnd]. destruct (trimEnd s) as [|b r] eqn:Hs.
  - destruct (isWhiteSpace a) eqn:Ha; [done|]. cbn [trimEnd]. by rewrite Ha.
  - cbn [trimEnd] in IH |- *. by rewrite IH.
Qed.

Lemma trim_idem s : trim (trim s) = trim s.
Proof.
  unfold trim. destruct (trimStart_head s) as [->|(a & r & -> & Ha)]; [done|].
  destruct (trimEnd_head a r Ha) as [r' Hr]. rewrite Hr.
  cbn [trimStart]. rewrite Ha, <- Hr. apply trimEnd_idem.
Qed.

Lemma split_join c l :
  l ≠ [] → Forall (λ p, includes p (String c "") = false) l →
  split c (join (String c "") l) = l.
Proof.
  induction l as [|s l IH]; [done|]. intros _ Hall.
  apply Forall_cons in Hall as [Hs Hall]. destruct l as [|s' l].
  - cbn [join]. by apply split_no_separator.
  - change (join (String c "") (s :: s' :: l))
      with (s +:+ String c (join (String c "") (s' :: l))).
    rewrite split_at_separator by done. by rewrite IH.
Qed.

Lemma join_nonempty sep s l : s ≠ "" → join sep (s :: l) ≠ "".
Proof. destruct s as [|a s]; [done|]. intros _. by destruct l. Qed.

Section ListCells.
Context `{JsRuntime}.

Lemma splitText_clean s : Forall cleanEntry (splitText s).
Proof.
  unfold splitText. apply Forall_forall. intros e He.
  apply list_elem_of_In, filter_In in He as [He Hne].
  apply list_elem_of_In, list_elem_of_fmap in He as (p & -> & Hp).
  repeat split.
  - intros Heq. by rewrite Heq in Hne.
  - apply trim_idem.
  - unfold trim. apply trimEnd_separator, trimStart_separator.
    pose proof (split_parts "," s) as Hall.
    by apply (proj1 (Forall_forall _ _) Hall).
Qed.

Lemma splitText_join l :
  Forall cleanEntry l → l ≠ [] → splitText (join "," l) = l.
Proof.
  intros Hall Hne. unfold splitText. rewrite split_join.
  - induction Hall as [|s l (Hs & Ht & _) _ IH]; [done|].
    cbn [fmap list_fmap List.filter]. rewrite Ht.
    rewrite (proj2 (String.eqb_neq s "")) by done. cbn [negb].
    f_equal. destruct l; [done|]. by apply IH.
  - done.
  - eapply Forall_impl; [done|]. by intros s (_ & _ & ?).
Qed.

(** X11. Whatever text a list cell holds, the entries [normalizeData]
    keeps from it are not empty, have no white space at either end and
    contain no comma. *)
Theorem splitList_clean cell l :
  splitList cell = Normal l → Forall cleanEntry l.
Proof.
  unfold splitList. destruct (orElse cell (JStr "")); try done.
  intros [= <-]. apply splitText_clean.
Qed.

(** X12. Export and import agree on the list columns: for lists of
    clean entries, as [normalizeData] produces them, the cell that
    [exportData] writes for [RequestedTaskIDs], [Skills] and
    [RequiredSkills] is read back by [normalizeData] as the same
    list. *)
Theorem export_import_lists c w t :
  Forall cleanEntry (RequestedTaskIDs c) →
  Forall cleanEntry (Skills w) →
  Forall cleanEntry (RequiredSkills t) →
  splitList (getProperty "RequestedTaskIDs" (clientRow c)) = Normal (RequestedTaskIDs c)
  ∧ splitList (getProperty "Skills" (workerRow w)) = Normal (Skills w)
  ∧ splitList (getProperty "RequiredSkills" (taskRow t)) = Normal (RequiredSkills t).
Proof.
  assert (∀ l, Forall cleanEntry l → splitList (Some (JStr (join "," l))) = Normal l)
    as Hround.
  { intros l Hl. destruct l as [|s l]; [done|].
    unfold splitList, orElse, truthy.
    rewrite (proj2 (String.eqb_neq (join "," (s :: l)) "")); cbn [negb].
    - f_equal. by apply splitText_join.
    - apply join_nonempty. apply Forall_cons in Hl as [(? & _) _]. done. }
  intros Hc Hw Ht. repeat split.
  - exact (Hround _ Hc).
  - exact (Hround _ Hw).
  - exact (Hround _ Ht).
Qed.

End ListCells.

Lemma splitList_clean_witness :
  Forall cleanEntry ["T1"; "T 2"].
Proof.
  apply (splitList_clean (Some (JStr " T1 ,, T 2,")) ["T1"; "T 2"]).
  reflexivity.
Defined.

Lemma export_import_lists_witness :
  splitList (getProperty "RequestedTaskIDs"
               (clientRow (H := Demo.runtime) (Sample.client "C1" 3 ["T1"; "T2"])))
  = Normal ["T1"; "T2"]
  ∧ splitList (getProperty "Skills" (workerRow (H := Demo.runtime) (Sample.worker "W1" 3)))
    = Normal ["coding"]
  ∧ splitList (getProperty "RequiredSkills"
                 (taskRow (H := Demo.runtime) (Sample.task "T1" 2)))
    = Normal ["coding"].
Proof.
  apply (export_import_lists (H := Demo.runtime) (Sample.client "C1" 3 ["T1"; "T2"])
           (Sample.worker "W1" 3) (Sample.task "T1" 2));
    repeat first [apply List.Forall_nil | apply List.Forall_cons];
    by repeat split.
Defined.

(** ** Generated IDs *)

Section GeneratedIds.
Context `{JsRuntime}.

Lemma orElse_blank cell d : blank cell → orElse cell d = d.
Proof.
  intros Hb. destruct cell as [v|]; [|done]. cbn. by rewrite (Hb v).
Qed.

(** A row without an ID gets the letter of its kind and its position,
    counted from 1. *)
Lemma normalizeRow_generated fuel type index row e :
  blank (row !! idColumn type) →
  normalizeRow fuel type index row = Normal e →
  idOf e = generatedId type index
  ∧ match type, e with
    | clients, EClient _ | workers, EWorker _ | tasks, ETask _ => True
    | _, _ => False
    end.
Proof.
  intros Hb. unfold normalizeRow. destruct type; cbn [idColumn] in Hb.
  - destruct (splitList _) as [requested| |]; cbn [cbind]; try done.
    intros [= <-]. cbn [idOf ClientID]. by rewrite orElse_blank.
  - destruct (splitList _) as [skills| |]; cbn [cbind]; try done.
    destruct (parseSlots _) as [slots| |]; cbn [cbind]; try done.
    intros [= <-]. cbn [idOf WorkerID]. by rewrite orElse_blank.
  - destruct (splitList _) as [skills| |]; cbn [cbind]; try done.
    destruct (parsePhases _ _) as [phases| |]; cbn [cbind]; try done.
    intros [= <-]. cbn [idOf TaskID]. by rewrite orElse_blank.
Qed.

Lemma cmapi_from_generated fuel type rawData : ∀ i es,
  Forall (λ row, blank (row !! idColumn type)) rawData →
  cmapi_from (normalizeRow fuel type) i rawData = Normal es →
  idOf <$> es = generatedId type <$> seq i (length rawData)
  ∧ match type with
    | clients => ClientID <$> asClients es = idOf <$> es
    | workers => WorkerID <$> asWorkers es = idOf <$> es
    | tasks => TaskID <$> asTasks es = idOf <$> es
    end.
Proof.
  induction rawData as [|row rawData IH]; intros i es Hb; cbn [cmapi_from].
  - intros [= <-]. split; [done|]. by destruct type.
  - apply Forall_cons in Hb as [Hrow Hb].
    destruct (normalizeRow fuel type i row) as [e| |] eqn:He; cbn [cbind]; try done.
    destruct (cmapi_from _ (S i) rawData) as [es'| |] eqn:Hes; cbn [cbind]; try done.
    intros [= <-].
    destruct (normalizeRow_generated _ _ _ _ _ Hrow He) as [Hid Hkind].
    destruct (IH _ _ Hb Hes) as [Hids Has].
    split.
    + cbn [length seq fmap list_fmap]. f_equal; done.
    + destruct type, e; try done; cbn; by f_equal.
Qed.

Lemma generatedId_inj type : Inj (=) (=) (generatedId type).
Proof.
  intros i j Hij. unfold generatedId in Hij.
  assert (pretty (i + 1) = pretty (j + 1)) as Hp by (destruct type; by injection Hij).
  apply (inj pretty) in Hp. lia.
Qed.

(** X13. For a sheet whose rows have no ID (the ID cell is missing or
    falsy), [normalizeData] numbers the records [C1], [C2], ... (or
    [W], [T]) by position, so the IDs are pairwise distinct, and after
    the upload no error is reported on the ID column. *)
Theorem generated_ids fuel type rawData es st :
  Forall (λ row, blank (row !! idColumn type)) rawData →
  normalizeData fuel rawData type = Normal es →
  idOf <$> es = generatedId type <$> seq 0 (length rawData)
  ∧ NoDup (idOf <$> es)
  ∧ ∃ st', handleFileUpload fuel rawData type st = Normal st'
           ∧ List.filter (hasField (idColumn type)) (State.errors st') = [].
Proof.
  intros Hb Hn.
  destruct (cmapi_from_generated _ _ _ _ _ Hb Hn) as [Hids Has].
  assert (NoDup (idOf <$> es)) as Hnd.
  { rewrite Hids. apply NoDup_fmap_2; [apply generatedId_inj|apply NoDup_seq]. }
  repeat split; [done..|].
  unfold handleFileUpload. rewrite Hn. eexists. split; [done|].
  cbn [State.errors]. rewrite validateData_segments, !List.filter_app.
  destruct type; cbn [idColumn].
  - rewrite (clientErrors_duplicates (asClients es) [] (asClients es) ∅) by set_solver.
    rewrite unknownTasks_other, workerErrors_other, durationErrors_other by done.
    change (repeatedFrom ClientID (asClients es) (length []) (asClients es))
      with (repeated ClientID (asClients es)).
    rewrite repeated_NoDup; [done|]. by rewrite Has.
  - rewrite clientErrors_other, unknownTasks_other, durationErrors_other by done.
    rewrite (workerErrors_duplicates (asWorkers es) [] (asWorkers es) ∅) by set_solver.
    change (repeatedFrom WorkerID (asWorkers es) (length []) (asWorkers es))
      with (repeated WorkerID (asWorkers es)).
    rewrite repeated_NoDup; [done|]. by rewrite Has.
  - by rewrite clientErrors_other, unknownTasks_other, workerErrors_other,
      durationErrors_other.
Qed.

End GeneratedIds.

Lemma generated_ids_witness :
  idOf <$> [ EClient (Sample.client "C1" 1 []) ]
  = generatedId clients <$> seq 0 (length [ ({[ "ClientName" := JStr "Acme";
                                                "GroupTag" := JStr "GroupA";
                                                "AttributesJSON" := JStr "{}" ]} : RawRow) ]).
Proof.
  refine (proj1 (generated_ids (H := Demo.runtime) 1 clients
                   [ {[ "ClientName" := JStr "Acme"; "GroupTag" := JStr "GroupA";
                        "AttributesJSON" := JStr "{}" ]} ]
                   [ EClient (Sample.client "C1" 1 []) ]
                   {| State.clients := []; State.workers := []; State.tasks := [];
                      State.errors := []; State.rules := [];
                      State.priorityWeights :=
                        {| priorityLevel := ofZ 30; taskFulfillment := ofZ 25;
                           fairness := ofZ 20; workloadBalance := ofZ 15;
                           skillMatch := ofZ 10 |} |} _ _)).
  - apply List.Forall_cons; [|apply List.Forall_nil]. intros v Hv. vm_compute in Hv. done.
  - vm_compute. reflexivity.
Defined.

(** ** Bracketed phases *)

Lemma split_nonempty c s : split c s ≠ [].
Proof.
  destruct s as [|a s]; [done|]. cbn [split].
  destruct (Ascii.eqb a c); [done|]. by destruct (split c s).
Qed.

Lemma split_two_parts c s :
  includes s (String c "") = true → ∃ h h' t, split c s = h :: h' :: t.
Proof.
  induction s as [|a s IH]; [done|]. intros Hs. cbn [split].
  destruct (Ascii.eqb a c) eqn:Hac.
  - pose proof (split_nonempty c s). destruct (split c s) as [|h' t]; [done|].
    by exists "", h', t.
  - apply Ascii.eqb_neq in Hac.
    destruct (includes s (String c "")) eqn:Hs'.
    + destruct IH as (h & h' & t & ->); [done|]. by exists (String a h), h', t.
    + assert (includes (String a s) (String c "") = false) as Hf
        by (by apply includes_char_cons).
      congruence.
Qed.

Section BracketedPhases.
Context `{JsRuntime}.

(** X14. A [PreferredPhases] text that opens with a bracket and
    contains a [-], such as [[1-3]] or [[-1, 2]], is not read as
    JSON: it is cut at the [-], the part before it does not start with
    a digit, and the result is the empty list. *)
Theorem parsePhases_bracket_dash fuel s :
  startsWith s "[" = true → includes s "-" = true →
  parsePhases (S fuel) (JStr s) = Normal (JArr []).
Proof.
  intros Hb Hd. apply prefix_app in Hb as [r ->].
  change ("[" +:+ r) with (String "[" r) in *.
  unfold parsePhases. rewrite Hd.
  destruct (split_two_parts "-" (String "[" r) Hd) as (h & h' & t & Hsplit).
  rewrite Hsplit. cbn [fmap list_fmap].
  assert (∃ h0, h = String "[" h0) as [h0 ->].
  { cbn [split] in Hsplit. change (Ascii.eqb "[" "-") with false in Hsplit.
    destruct (split "-" r) as [|x l]; [done|]. injection Hsplit as <- _. eauto. }
  assert (parseIntString (trim (String "[" h0)) = NaN) as ->.
  { unfold trim. change (trimStart (String "[" h0)) with (String "[" h0).
    destruct (trimEnd_head "[" h0 eq_refl) as [r' ->]. reflexivity. }
  cbn [phaseLoop]. by destruct (parseIntString (trim h')).
Qed.

End BracketedPhases.

Lemma parsePhases_bracket_dash_witness :
  parsePhases (H := Demo.runtime) 1 (JStr "[1-3]") = Normal (JArr []).
Proof.
  apply (parsePhases_bracket_dash (H := Demo.runtime) 0 "[1-3]"); reflexivity.
Defined.

(** ** The score of clean data and of data with an error per record *)

Section QualityFacts.
Local Open Scope Z_scope.

Lemma div_eucl_exact a b : 0 < b → Z.div_eucl (b * a) b = (a, 0).
Proof.
  intros Hb. pose proof (Z.div_mul a b ltac:(lia)) as Hq.
  pose proof (Z.mod_mul a b ltac:(lia)) as Hr.
  unfold Z.div, Z.modulo in Hq, Hr. rewrite (Z.mul_comm b a).
  destruct (Z.div_eucl (a * b) b) as [q r]. by subst.
Qed.

Lemma new_location_exact n : new_location n 0 = loc_Exact.
Proof. unfold new_location. by destruct (Z.even n). Qed.

(** A finite number divided by itself is exactly 1. *)
Lemma div_self s m e : div (S754_finite s m e) (S754_finite s m e) = ofZ 1.
Proof.
  unfold div, SFdiv, SFdiv_core_binary. cbv zeta.
  replace (Zdigits2 (Zpos m) + e - (Zdigits2 (Zpos m) + e)) with 0 by lia.
  rewrite Z.sub_diag.
  change (Z.min (fexp prec emax 0) 0) with (-53).
  change (0 - -53) with 53.
  rewrite Z.shiftl_mul_pow2 by done.
  rewrite div_eucl_exact by done.
  rewrite new_location_exact, xorb_nilpotent.
  change (2 ^ 53) with (Zpos 4503599627370496 * 2 ^ 1).
  by rewrite round_aux_exact.
Qed.

(** X15. Records without any error or warning score 100, whatever
    their number. *)
Theorem quality_clean (records : nat) :
  (0 < records)%nat → Z.of_nat records < 2 ^ 53 →
  calculateDataQuality (ofNat records) (ofNat 0) (ofNat 0) = ofZ 100.
Proof.
  intros Hpos Hlt. unfold ofNat.
  destruct (Z.of_nat records) as [|p|p] eqn:Hp; [lia| |lia].
  rewrite ofZ_pos by done.
  destruct (canon_value false p) as (m & e & -> & _); [by apply digits_le_53|].
  unfold calculateDataQuality.
  change (SFeqb (S754_finite false m e) (ofZ 0)) with false. cbv iota.
  change (sub (S754_finite false m e) (ofZ (Z.of_nat 0))) with (S754_finite false m e).
  rewrite div_self. reflexivity.
Qed.

End QualityFacts.

Lemma quality_clean_witness :
  calculateDataQuality (ofNat 12) (ofNat 0) (ofNat 0) = (ofZ 100).
Proof. apply (quality_clean 12); [lia | reflexivity]. Defined.

Section QualityZero.
Local Open Scope Z_scope.

Lemma ofZ_signed z : signed (z <? 0) (ofZ z).
Proof.
  unfold ofZ, binary_normalize. destruct z as [|p|p]; [done| |];
    apply binary_round_signed.
Qed.

Lemma div_signed sx sy x my ey :
  signed sx x → signed (xorb sx sy) (div x (S754_finite sy my ey)).
Proof.
  destruct x as [s|s| |s m e]; cbn [signed]; try done.
  - by intros ->.
  - intros ->. unfold div, SFdiv.
    destruct (SFdiv_core_binary _ _ _ _ _ _) as [[mz ez] lz] eqn:Hcore.
    apply div_core_spec in Hcore as [Hmz _]. by apply round_aux_signed.
Qed.

Lemma mul_signed sx sy x my ey :
  signed sx x → signed (xorb sx sy) (mul x (S754_finite sy my ey)).
Proof.
  destruct x as [s|s| |s m e]; cbn [signed]; try done.
  - by intros ->.
  - intros ->. unfold mul, SFmul. by apply round_aux_signed.
Qed.

Lemma Math_max_0_nonpositive v : signed true v → Math_max (ofZ 0) v = ofZ 0.
Proof. destruct v as [[|]|s| |s m e]; cbn [signed]; try done; by intros ->. Qed.

Lemma clamp_nonpositive r :
  signed true r → Math_max (ofZ 0) (Math_min (ofZ 100) r) = ofZ 0.
Proof. destruct r as [[|]|s| |s m e]; cbn [signed]; try done; by intros ->. Qed.

Lemma sub_0_signed x : signed false x → signed true (sub (ofZ 0) x).
Proof. destruct x as [[|]|s| |s m e]; cbn [signed]; try done; by intros ->. Qed.

Lemma Math_round_nonpositive x : signed true x → signed true (Math_round x).
Proof.
  destruct x as [s|s| |s m e]; cbn [signed]; try done.
  intros ->. unfold Math_round. cbn [cond_Zopp].
  set (k := if 0 <=? e then _ else _).
  assert (k <= 0) as Hk.
  { subst k. destruct (0 <=? e) eqn:He.
    - apply Z.leb_le in He. pose proof (Z.pow_pos_nonneg 2 e). nia.
    - apply Z.leb_gt in He. pose proof (Z.pow_pos_nonneg 2 (- e) ltac:(lia) ltac:(lia)).
      assert (2 ^ (- e + 1) = 2 * 2 ^ (- e)) as -> by (rewrite Z.pow_add_r; lia).
      assert ((2 * Z.neg m + 2 ^ (- e)) / (2 * 2 ^ (- e)) < 1); [|lia].
      apply Z.div_lt_upper_bound; lia. }
  unfold binary_normalize. destruct k as [|p|p]; [done|lia|].
  apply binary_round_signed.
Qed.

(** X16. When there are at least as many errors as records, the score
    is 0, whatever the number of warnings. *)
Theorem quality_zero (records errors warnings : nat) :
  (0 < records)%nat → (records <= errors)%nat → Z.of_nat errors < 2 ^ 53 →
  calculateDataQuality (ofNat records) (ofNat errors) (ofNat warnings) = ofZ 0.
Proof.
  intros Hpos Hle Hlt. unfold ofNat, calculateDataQuality.
  assert (SFeqb (ofZ (Z.of_nat records)) (ofZ 0) = false) as ->.
  { unfold SFeqb. rewrite compare_ofZ by lia.
    by destruct (Z.of_nat records) eqn:?; [lia| |]. }
  destruct (add_sub_ofZ (Z.of_nat records) (Z.of_nat errors)) as [_ ->]; [lia..|].
  destruct (Z.of_nat records) as [|p|p] eqn:Hp; [lia| |lia].
  rewrite (ofZ_pos p) by lia.
  destruct (canon_value false p) as (m & e & -> & _); [apply digits_le_53; lia|].
  pose proof (ofZ_signed (Zpos p - Z.of_nat errors)) as Hvalid.
  pose proof (ofZ_signed (Z.of_nat warnings)) as Hwarn.
  assert ((Zpos p - Z.of_nat errors <? 0) = true ∨ Zpos p - Z.of_nat errors = 0) as Hcase
    by (destruct (Z.ltb_spec (Zpos p - Z.of_nat errors) 0); [by left|right; lia]).
  assert ((Z.of_nat warnings <? 0) = false) as Hw by (apply Z.ltb_ge; lia).
  rewrite Hw in Hwarn.
  assert (signed true (ofZ (Zpos p - Z.of_nat errors))) as Hneg.
  { destruct Hcase as [Hc|Hc]; [by rewrite Hc in Hvalid|by rewrite Hc]. }
  apply clamp_nonpositive, Math_round_nonpositive.
  rewrite Math_max_0_nonpositive.
  - apply sub_0_signed.
    apply (mul_signed false false), (div_signed false false), Hwarn.
  - apply (mul_signed true false), (div_signed true false), Hneg.
Qed.

End QualityZero.

Lemma quality_zero_witness :
  calculateDataQuality (ofNat 3) (ofNat 5) (ofNat 2) = (ofZ 0).
Proof. apply (quality_zero 3 5 2); [lia | lia | reflexivity]. Defined.

(** ** The label of the score *)

Section QualityLabel.
Local Open Scope Z_scope.

Lemma ge_ofZ a b :
  0 <= a < 2 ^ 53 → 0 <= b < 2 ^ 53 → ge (ofZ a) (ofZ b) = (b <=? a).
Proof. intros Ha Hb. unfold ge. apply (le_ofZ b a); lia. Qed.

Lemma getDataQualityInfo_ofZ j :
  0 <= j < 2 ^ 53 → getDataQualityInfo (ofZ j) = qualityBand j.
Proof.
  intros Hj. unfold getDataQualityInfo, qualityBand.
  by rewrite !ge_ofZ by lia.
Qed.

(** X17. The label shown next to the score follows the integer bands:
    for all counts, the score is an integer [j] from 0 to 100 and the
    label is [Excellent] from 90, [Good] from 75, [Fair] from 50,
    [Poor] from 25 and [Critical] below; a score that is not a number
    would be labelled [Critical], and the score never is. *)
Theorem quality_label (records errors warnings : nat) :
  Z.of_nat records < 2 ^ 53 → Z.of_nat errors < 2 ^ 53 → Z.of_nat warnings < 2 ^ 53 →
  (∃ j, 0 <= j <= 100
        ∧ calculateDataQuality (ofNat records) (ofNat errors) (ofNat warnings) = ofZ j
        ∧ getDataQualityInfo
            (calculateDataQuality (ofNat records) (ofNat errors) (ofNat warnings))
          = qualityBand j)
  ∧ status (getDataQualityInfo NaN) = "Critical".
Proof.
  intros Hr He Hw. split; [|done].
  destruct (calculateDataQuality_range (Z.of_nat records) (Z.of_nat errors)
              (Z.of_nat warnings)) as (j & Hj & Hq); [lia..|].
  exists j. unfold ofNat. rewrite Hq. repeat split; [lia..|].
  apply getDataQualityInfo_ofZ. lia.
Qed.

End QualityLabel.

Lemma quality_label_witness :
  (∃ j, (0 <= j <= 100)%Z
        ∧ calculateDataQuality (ofNat 10) (ofNat 3) (ofNat 1) = ofZ j
        ∧ getDataQualityInfo (calculateDataQuality (ofNat 10) (ofNat 3) (ofNat 1))
          = qualityBand j)
  ∧ status (getDataQualityInfo NaN) = "Critical".
Proof. apply (quality_label 10 3 1); reflexivity. Defined.

(** ** Editing a cell *)

Lemma getProperty_setProperty key value o :
  getProperty key (setProperty key value o) = Some value.
Proof.
  unfold getProperty. induction o as [|[k v] o IH]; cbn [setProperty List.find fst].
  - by rewrite String.eqb_refl.
  - destruct (String.eqb k key) eqn:Hk; cbn [List.find fst]; rewrite Hk; [done|apply IH].
Qed.

Lemma getProperty_setProperty_ne key key' value o :
  key' ≠ key → getProperty key' (setProperty key value o) = getProperty key' o.
Proof.
  intros Hne. unfold getProperty.
  induction o as [|[k v] o IH]; cbn [setProperty List.find fst].
  - by rewrite (proj2 (String.eqb_neq key key')).
  - destruct (String.eqb k key) eqn:Hk; cbn [List.find fst].
    + apply String.eqb_eq in Hk as ->.
      by rewrite (proj2 (String.eqb_neq key key')).
    + destruct (String.eqb k key'); [done|apply IH].
Qed.

Section CellEditFacts.
Context `{JsRuntime}.

Lemma editRecords_edited key entityId field newValue records :
  Forall2 (edited key entityId field (normalizeFieldValue field newValue))
          records (editRecords key entityId field newValue records).
Proof.
  unfold editRecords. induction records as [|o records IH]; constructor; [|done].
  unfold edited. destruct (hasId key entityId o); [|done].
  split; [apply getProperty_setProperty|].
  intros k Hk. by apply getProperty_setProperty_ne.
Qed.

Lemma editRecords_absent key entityId field newValue records :
  existsb (hasId key entityId) records = false →
  editRecords key entityId field newValue records = records.
Proof.
  unfold editRecords. induction records as [|o records IH]; [done|].
  cbn [existsb fmap list_fmap]. intros [Ho Hr]%orb_false_iff.
  rewrite Ho. f_equal. by apply IH.
Qed.

(** X18. An edit reaches one kind of record only: the clients when a
    client has the ID, else the workers when a worker has it, else
    the tasks; a worker or a task that shares its ID with a client is
    never edited.  In that kind, every record with the ID gets the
    normalised value in the field and keeps its other properties;
    every other record, and the number of records, stay the same. *)
Theorem handleCellEdit_scope entityId field newValue cs ws ts cs' ws' ts' :
  handleCellEdit entityId field newValue (cs, ws, ts) = (cs', ws', ts') →
  (existsb (hasId "ClientID" entityId) cs = true
   → Forall2 (edited "ClientID" entityId field (normalizeFieldValue field newValue)) cs cs'
     ∧ ws' = ws ∧ ts' = ts)
  ∧ (existsb (hasId "ClientID" entityId) cs = false
     → existsb (hasId "WorkerID" entityId) ws = true
     → cs' = cs
       ∧ Forall2 (edited "WorkerID" entityId field (normalizeFieldValue field newValue))
                 ws ws'
       ∧ ts' = ts)
  ∧ (existsb (hasId "ClientID" entityId) cs = false
     → existsb (hasId "WorkerID" entityId) ws = false
     → cs' = cs ∧ ws' = ws
       ∧ Forall2 (edited "TaskID" entityId field (normalizeFieldValue field newValue))
                 ts ts')
  ∧ length cs' = length cs ∧ length ws' = length ws ∧ length ts' = length ts.
Proof.
  assert (∀ key (l : list Object),
            length (editRecords key entityId field newValue l) = length l) as Hlen
    by (intros; apply length_fmap).
  unfold handleCellEdit.
  destruct (existsb (hasId "ClientID" entityId) cs) eqn:Hc.
  { intros [= <- <- <-]. rewrite Hlen.
    repeat split; try done. apply editRecords_edited. }
  destruct (existsb (hasId "WorkerID" entityId) ws) eqn:Hw.
  { intros [= <- <- <-]. rewrite Hlen.
    repeat split; try done. apply editRecords_edited. }
  intros Heq.
  assert (Forall2 (edited "TaskID" entityId field (normalizeFieldValue field newValue))
                  ts ts' ∧ cs' = cs ∧ ws' = ws ∧ length ts' = length ts)
    as (Hts & -> & -> & Hl).
  { destruct (existsb (hasId "TaskID" entityId) ts) eqn:Ht; injection Heq as <- <- <-.
    - rewrite Hlen. split; [apply editRecords_edited|done].
    - split; [|done].
      rewrite <- (editRecords_absent "TaskID" entityId field newValue ts Ht) at 2.
      apply editRecords_edited. }
  repeat split; done.
Qed.

(** X19. What an edit stores is normalised by the kind of the field.
    In a numeric field it is a number and never NaN: the integer read
    from the input, or 1 when the input does not start with one, and 1
    passes the range test of the validation.  In a list field, text is
    stored as the list of its comma-separated entries, none of them
    empty, untrimmed or with a comma. *)
Theorem normalizeFieldValue_kinds field value :
  (field ∈ numericFields →
   ∃ n, normalizeFieldValue field value = JNum n ∧ isNaN n = false
        ∧ n = (if isNaN (parseInt value) then ofZ 1 else parseInt value)
        ∧ (isNaN (parseInt value) = true → outOfRange n = false))
  ∧ (field ∈ listFields →
     ∀ s, value = JStr s →
          ∃ l, normalizeFieldValue field value = strings l ∧ Forall cleanEntry l).
Proof.
  split.
  - intros Hf. exists (if isNaN (parseInt value) then ofZ 1 else parseInt value).
    repeat split.
    + unfold numericFields in Hf. rewrite !elem_of_cons, elem_of_nil in Hf.
      by destruct Hf as [->|[->|[->|[->|[->|[]]]]]].
    + by destruct (parseInt value).
    + by intros ->.
  - intros Hf s ->. exists (splitText s). split; [|apply splitText_clean].
    unfold listFields in Hf. rewrite !elem_of_cons, elem_of_nil in Hf.
    by destruct Hf as [->|[->|[->|[]]]].
Qed.

End CellEditFacts.

Lemma handleCellEdit_scope_witness :
  Forall2 (edited "ClientID" "X1" "PriorityLevel"
             (normalizeFieldValue (H := Demo.runtime) "PriorityLevel" (JStr "4")))
    [clientObject (Sample.client "X1" 3 [])]
    [clientObject (Sample.client "X1" 4 [])]
  ∧ [workerObject (Sample.worker "X1" 3)] = [workerObject (Sample.worker "X1" 3)]
  ∧ ([] : list Object) = [].
Proof.
  refine (proj1 (handleCellEdit_scope (H := Demo.runtime) "X1" "PriorityLevel" (JStr "4")
                   [clientObject (Sample.client "X1" 3 [])]
                   [workerObject (Sample.worker "X1" 3)] []
                   [clientObject (Sample.client "X1" 4 [])]
                   [workerObject (Sample.worker "X1" 3)] [] _) _);
    reflexivity.
Defined.

(** ** Applying the fallback corrections *)

Section ApplyCorrectionFacts.
Context `{JsRuntime}.

Lemma correctRecords_edited key correction records :
  Forall2 (edited key (Correction.entityId correction) (Correction.field correction)
             (normalizeSuggestedValue (Correction.field correction)
                (Correction.suggestedValue correction)))
          records (correctRecords key correction records).
Proof.
  unfold correctRecords. induction records as [|o records IH]; constructor; [|done].
  unfold edited. destruct (hasId key _ o); [|done].
  split; [apply getProperty_setProperty|].
  intros k Hk. by apply getProperty_setProperty_ne.
Qed.

Lemma correctRecords_absent key correction records :
  existsb (hasId key (Correction.entityId correction)) records = false →
  correctRecords key correction records = records.
Proof.
  unfold correctRecords. induction records as [|o records IH]; [done|].
  cbn [existsb fmap list_fmap]. intros [Ho Hr]%orb_false_iff.
  rewrite Ho. f_equal. by apply IH.
Qed.

Lemma applyCorrection_edited correction cs ws ts :
  editedData (Correction.entityId correction) (Correction.field correction)
    (normalizeSuggestedValue (Correction.field correction)
       (Correction.suggestedValue correction))
    (clientObject <$> cs, workerObject <$> ws, taskObject <$> ts)
    (applyCorrection correction cs ws ts).1.
Proof.
  unfold applyCorrection, editedData. cbn [fst].
  destruct (existsb (hasId "ClientID" _) (clientObject <$> cs)) eqn:Hc.
  { split; [apply correctRecords_edited|done]. }
  destruct (existsb (hasId "WorkerID" _) (workerObject <$> ws)) eqn:Hw.
  { split; [done|]. split; [apply correctRecords_edited|done]. }
  destruct (existsb (hasId "TaskID" _) (taskObject <$> ts)) eqn:Ht.
  - split; [done|]. split; [done|]. apply correctRecords_edited.
  - split; [done|]. split; [done|].
    rewrite <- (correctRecords_absent "TaskID" correction _ Ht) at 2.
    apply correctRecords_edited.
Qed.

Lemma existsb_hasId {A} (key : string) (toObject : A → Object) (idOf : A → string)
    (l : list A) (x : A) :
  (∀ y, getProperty key (toObject y) = Some (JStr (idOf y))) →
  x ∈ l → existsb (hasId key (idOf x)) (toObject <$> l) = true.
Proof.
  intros Hkey Hx. apply existsb_exists. exists (toObject x). split.
  - apply list_elem_of_In. by apply list_elem_of_fmap_2.
  - unfold hasId. rewrite Hkey. apply String.eqb_refl.
Qed.

(** X20. Applying a fallback correction writes the advice into the
    data.  For every error of [validateData], the correction the
    fallback of [suggestCorrections] builds is read by
    [applyCorrection] with the error's entity and field and, as the
    suggested value, the advice sentence of the error; the records
    with that ID, in the first kind that has one, get the sentence as
    the value of the field (as a one-entry list in [RequestedTaskIDs]),
    never a number, at least one record is reached, and the errors
    that are set afterwards still hold the error. *)
Theorem fallback_correction_applied cs ws ts e :
  e ∈ validateData cs ws ts →
  ∃ f advice correction,
    ValidationError.field e = Some f ∧ ValidationError.suggestion e = Some advice
    ∧ asCorrection (basicCorrection e) = Some correction
    ∧ editedData (ValidationError.entityId e) f (adviceValue f advice)
        (clientObject <$> cs, workerObject <$> ws, taskObject <$> ts)
        (applyCorrection correction cs ws ts).1
    ∧ (∀ n, adviceValue f advice ≠ JNum n)
    ∧ existsb (hasId "ClientID" (ValidationError.entityId e)) (clientObject <$> cs)
      || existsb (hasId "WorkerID" (ValidationError.entityId e)) (workerObject <$> ws)
      || existsb (hasId "TaskID" (ValidationError.entityId e)) (taskObject <$> ts) = true
    ∧ e ∈ (applyCorrection correction cs ws ts).2.
Proof.
  intros He.
  assert (∀ f advice,
            ValidationError.field e = Some f → f ≠ "" →
            ValidationError.suggestion e = Some advice → advice ≠ "" →
            normalizeSuggestedValue f (JStr advice) = adviceValue f advice →
            ∃ correction,
              asCorrection (basicCorrection e) = Some correction
              ∧ editedData (ValidationError.entityId e) f (adviceValue f advice)
                  (clientObject <$> cs, workerObject <$> ws, taskObject <$> ts)
                  (applyCorrection correction cs ws ts).1) as Hread.
  { intros f advice Hf Hfne Ha Hane Hv.
    exists {| Correction.entityId := ValidationError.entityId e;
              Correction.field := f; Correction.suggestedValue := JStr advice |}.
    split.
    - unfold asCorrection, basicCorrection, getProperty. cbn. rewrite Hf, Ha. cbn.
      by rewrite (proj2 (String.eqb_neq f "")), (proj2 (String.eqb_neq advice "")).
    - rewrite <- Hv. apply applyCorrection_edited. }
  assert (existsb (hasId "ClientID" (ValidationError.entityId e)) (clientObject <$> cs)
          || existsb (hasId "WorkerID" (ValidationError.entityId e)) (workerObject <$> ws)
          || existsb (hasId "TaskID" (ValidationError.entityId e)) (taskObject <$> ts)
          = true) as Hreach.
  { apply elem_of_validateData in He
      as [(c & Hc & Hcase) | [(w & Hw & Hcase) | (t & Ht & ->)]].
    - assert (ValidationError.entityId e = ClientID c) as ->
        by (by destruct Hcase as [-> | [-> | (t & _ & ->)]]).
      by rewrite (existsb_hasId "ClientID" clientObject ClientID cs c).
    - assert (ValidationError.entityId e = WorkerID w) as ->
        by (by destruct Hcase as [-> | ->]).
      rewrite (existsb_hasId "WorkerID" workerObject WorkerID ws w) by done.
      apply orb_true_iff. left. apply orb_true_r.
    - change (ValidationError.entityId (durationError t)) with (TaskID t).
      rewrite (existsb_hasId "TaskID" taskObject TaskID ts t) by done.
      apply orb_true_r. }
  pose proof He as Hshape.
  apply elem_of_validateData in Hshape
    as [(c & _ & [Hc | [Hc | (t & _ & Hc)]]) | [(w & _ & [Hw | Hw]) | (t & _ & Ht)]].
  - destruct (Hread "ClientID" "Use unique IDs for each client") as (corr & ? & ?);
      [by subst..|].
    exists "ClientID", "Use unique IDs for each client", corr.
    repeat split; try done; by subst.
  - destruct (Hread "PriorityLevel" "Set priority between 1 and 5") as (corr & ? & ?);
      [by subst..|].
    exists "PriorityLevel", "Set priority between 1 and 5", corr.
    repeat split; try done; by subst.
  - destruct (Hread "RequestedTaskIDs" "Remove invalid task ID or add corresponding task")
      as (corr & ? & ?); [by subst..|].
    exists "RequestedTaskIDs", "Remove invalid task ID or add corresponding task", corr.
    repeat split; try done; by subst.
  - destruct (Hread "WorkerID" "Use unique IDs for each worker") as (corr & ? & ?);
      [by subst..|].
    exists "WorkerID", "Use unique IDs for each worker", corr.
    repeat split; try done; by subst.
  - destruct (Hread "QualificationLevel" "Set qualification between 1 and 5")
      as (corr & ? & ?); [by subst..|].
    exists "QualificationLevel", "Set qualification between 1 and 5", corr.
    repeat split; try done; by subst.
  - destruct (Hread "Duration" "Set duration to positive number") as (corr & ? & ?);
      [by subst..|].
    exists "Duration", "Set duration to positive number", corr.
    repeat split; try done; by subst.
Qed.

End ApplyCorrectionFacts.

Lemma fallback_correction_applied_witness :
  ∃ f advice correction,
    ValidationError.field (priorityError (H := Demo.runtime) (Sample.client "C1" 7 []))
    = Some f
    ∧ ValidationError.suggestion (priorityError (H := Demo.runtime) (Sample.client "C1" 7 []))
      = Some advice
    ∧ asCorrection (basicCorrection (priorityError (H := Demo.runtime)
                                       (Sample.client "C1" 7 [])))
      = Some correction
    ∧ editedData "C1" f (adviceValue f advice)
        (clientObject <$> [Sample.client "C1" 7 []], workerObject <$> [],
         taskObject <$> [])
        (applyCorrection (H := Demo.runtime) correction [Sample.client "C1" 7 []] [] []).1
    ∧ (∀ n, adviceValue f advice ≠ JNum n)
    ∧ existsb (hasId "ClientID" "C1") (clientObject <$> [Sample.client "C1" 7 []])
      || existsb (hasId "WorkerID" "C1") (workerObject <$> [])
      || existsb (hasId "TaskID" "C1") (taskObject <$> []) = true
    ∧ priorityError (H := Demo.runtime) (Sample.client "C1" 7 [])
      ∈ (applyCorrection (H := Demo.runtime) correction [Sample.client "C1" 7 []] [] []).2.
Proof.
  apply (fallback_correction_applied (H := Demo.runtime) [Sample.client "C1" 7 []] [] []
           (priorityError (H := Demo.runtime) (Sample.client "C1" 7 []))).
  vm_compute. left.
Defined.

(** ** Uploading a sheet of text *)

Section TextUpload.
Context `{JsRuntime}.







End TextUpload.


(** ** Export, then import *)

Section ExportImport.
Context `{JsRuntime}.

Lemma splitList_join l :
  Forall cleanEntry l → splitList (Some (JStr (join "," l))) = Normal l.
Proof.
  intros Hl. destruct l as [|s l]; [done|].
  unfold splitList, orElse, truthy.
  rewrite (proj2 (String.eqb_neq (join "," (s :: l)) "")); cbn [negb].
  - f_equal. by apply splitText_join.
  - apply join_nonempty. apply Forall_cons in Hl as [(? & _) _]. done.
Qed.

Lemma orElse_string s d : s ≠ "" → orElse (Some (JStr s)) d = JStr s.
Proof. intros Hs. cbn. by rewrite (proj2 (String.eqb_neq s "")). Qed.

Lemma parseInt_readBack n d :
  numberReadBack n → parseInt (orElse (Some (JNum n)) d) = n.
Proof. intros [Ht Hp]. unfold orElse. rewrite Ht. exact Hp. Qed.

(** X22. A client written by [exportData] and read back by
    [normalizeData] is the same client, provided that its ID, name and
    group are not empty, its requested task IDs are clean entries, its
    priority is read back as a number and its attributes parse back
    from their serialisation. *)
Theorem export_import_client fuel index c :
  ClientID c ≠ "" → ClientName c ≠ "" → GroupTag c ≠ "" →
  Forall cleanEntry (RequestedTaskIDs c) →
  numberReadBack (PriorityLevel c) → jsonReadBack (AttributesJSON c) →
  normalizeRow fuel clients index (sheetRow (clientRow c)) = Normal (EClient c).
Proof.
  intros Hid Hname Hgroup Hreq Hprio Hattr. destruct c as [id name prio req group attr].
  cbn [ClientID ClientName GroupTag RequestedTaskIDs PriorityLevel AttributesJSON] in *.
  unfold normalizeRow, sheetRow, clientRow, clientObject.
  cbn [ClientID ClientName GroupTag RequestedTaskIDs PriorityLevel AttributesJSON].
  set (row := list_to_map _).
  assert (row !! "RequestedTaskIDs" = Some (JStr (join "," req))) as -> by done.
  assert (row !! "ClientID" = Some (JStr id)) as -> by done.
  assert (row !! "ClientName" = Some (JStr name)) as -> by done.
  assert (row !! "PriorityLevel" = Some (JNum prio)) as -> by done.
  assert (row !! "GroupTag" = Some (JStr group)) as -> by done.
  assert (row !! "AttributesJSON" = Some (JStr (JSON_stringify attr))) as -> by done.
  rewrite splitList_join by done. cbn [cbind].
  rewrite !orElse_string by done. rewrite parseInt_readBack by done.
  unfold parseAttributes. unfold jsonReadBack in Hattr. by rewrite Hattr.
Qed.

Lemma bracketed_nonempty s : bracketed s → s ≠ "".
Proof. by intros Hb ->. Qed.

Lemma parseSlots_readBack v :
  bracketed (JSON_stringify v) → jsonReadBack v →
  parseSlots (orElse (Some (JStr (JSON_stringify v))) (JStr "[]")) = Normal v.
Proof.
  intros Hb Hv. rewrite orElse_string by (by apply bracketed_nonempty).
  unfold parseSlots. unfold bracketed in Hb. rewrite Hb.
  unfold jsonReadBack in Hv. by rewrite Hv.
Qed.

(** X23. A worker written by [exportData] and read back by
    [normalizeData] is the same worker, provided that its ID, name and
    group are not empty, its skills are clean entries, its two numbers
    are read back as numbers, and the serialisation of its slots is in
    brackets and parses back to them. *)
Theorem export_import_worker fuel index w :
  WorkerID w ≠ "" → WorkerName w ≠ "" → WorkerGroup w ≠ "" →
  Forall cleanEntry (Skills w) →
  numberReadBack (MaxLoadPerPhase w) → numberReadBack (QualificationLevel w) →
  bracketed (JSON_stringify (AvailableSlots w)) → jsonReadBack (AvailableSlots w) →
  normalizeRow fuel workers index (sheetRow (workerRow w)) = Normal (EWorker w).
Proof.
  intros Hid Hname Hgroup Hskills Hload Hqual Hb Hslots.
  destruct w as [id name skills slots load group qual].
  cbn [WorkerID WorkerName WorkerGroup Skills MaxLoadPerPhase QualificationLevel
       AvailableSlots] in *.
  unfold normalizeRow, sheetRow, workerRow, workerObject.
  cbn [WorkerID WorkerName WorkerGroup Skills MaxLoadPerPhase QualificationLevel
       AvailableSlots].
  set (row := list_to_map _).
  assert (row !! "Skills" = Some (JStr (join "," skills))) as -> by done.
  assert (row !! "AvailableSlots" = Some (JStr (JSON_stringify slots))) as -> by done.
  assert (row !! "WorkerID" = Some (JStr id)) as -> by done.
  assert (row !! "WorkerName" = Some (JStr name)) as -> by done.
  assert (row !! "MaxLoadPerPhase" = Some (JNum load)) as -> by done.
  assert (row !! "WorkerGroup" = Some (JStr group)) as -> by done.
  assert (row !! "QualificationLevel" = Some (JNum qual)) as -> by done.
  rewrite splitList_join by done. cbn [cbind].
  rewrite parseSlots_readBack by done. cbn [cbind].
  rewrite !orElse_string by done. by rewrite !parseInt_readBack by done.
Qed.

(** X24. A task written by [exportData] and read back by
    [normalizeData] is the same task under the same provisos and one
    more: the serialisation of its preferred phases must not contain a
    [-], which would make import read it as a range. *)
Theorem export_import_task fuel index t :
  TaskID t ≠ "" → TaskName t ≠ "" → Category t ≠ "" →
  Forall cleanEntry (RequiredSkills t) →
  numberReadBack (Duration t) → numberReadBack (MaxConcurrent t) →
  includes (JSON_stringify (PreferredPhases t)) "-" = false →
  bracketed (JSON_stringify (PreferredPhases t)) → jsonReadBack (PreferredPhases t) →
  normalizeRow fuel tasks index (sheetRow (taskRow t)) = Normal (ETask t).
Proof.
  intros Hid Hname Hcat Hskills Hdur Hmax Hdash Hb Hphases.
  destruct t as [id name cat dur skills phases conc].
  cbn [TaskID TaskName Category RequiredSkills Duration MaxConcurrent PreferredPhases] in *.
  unfold normalizeRow, sheetRow, taskRow, taskObject.
  cbn [TaskID TaskName Category RequiredSkills Duration MaxConcurrent PreferredPhases].
  set (row := list_to_map _).
  assert (row !! "RequiredSkills" = Some (JStr (join "," skills))) as -> by done.
  assert (row !! "PreferredPhases" = Some (JStr (JSON_stringify phases))) as -> by done.
  assert (row !! "TaskID" = Some (JStr id)) as -> by done.
  assert (row !! "TaskName" = Some (JStr name)) as -> by done.
  assert (row !! "Category" = Some (JStr cat)) as -> by done.
  assert (row !! "Duration" = Some (JNum dur)) as -> by done.
  assert (row !! "MaxConcurrent" = Some (JNum conc)) as -> by done.
  rewrite splitList_join by done. cbn [cbind].
  assert (parsePhases fuel (orElse (Some (JStr (JSON_stringify phases))) (JStr "[]"))
          = Normal phases) as ->.
  { rewrite <- (parseSlots_readBack phases Hb Hphases).
    rewrite orElse_string by (by apply bracketed_nonempty).
    unfold parsePhases. by rewrite Hdash. }
  cbn [cbind]. rewrite !orElse_string by done. by rewrite !parseInt_readBack by done.
Qed.

End ExportImport.

Lemma export_import_client_witness :
  normalizeRow (H := Demo.runtime) 1 clients 0
    (sheetRow (clientRow (H := Demo.runtime) (Sample.client "C1" 3 ["T1"; "T2"])))
  = Normal (EClient (Sample.client "C1" 3 ["T1"; "T2"])).
Proof.
  apply (export_import_client (H := Demo.runtime) 1 0 (Sample.client "C1" 3 ["T1"; "T2"]));
    try done.
  repeat first [apply List.Forall_nil | apply List.Forall_cons]; by repeat split.
Defined.

Lemma export_import_worker_witness :
  normalizeRow (H := Demo.runtime) 1 workers 0
    (sheetRow (workerRow (H := Demo.runtime)
                 {| WorkerID := "W1"; WorkerName := "Ada"; Skills := ["coding"];
                    AvailableSlots := JArr []; MaxLoadPerPhase := ofZ 2;
                    WorkerGroup := "GroupA"; QualificationLevel := ofZ 3 |}))
  = Normal (EWorker {| WorkerID := "W1"; WorkerName := "Ada"; Skills := ["coding"];
                       AvailableSlots := JArr []; MaxLoadPerPhase := ofZ 2;
                       WorkerGroup := "GroupA"; QualificationLevel := ofZ 3 |}).
Proof.
  apply (export_import_worker (H := Demo.runtime) 1 0
           {| WorkerID := "W1"; WorkerName := "Ada"; Skills := ["coding"];
              AvailableSlots := JArr []; MaxLoadPerPhase := ofZ 2;
              WorkerGroup := "GroupA"; QualificationLevel := ofZ 3 |}); try done.
  repeat first [apply List.Forall_nil | apply List.Forall_cons]; by repeat split.
Defined.

Lemma export_import_task_witness :
  normalizeRow (H := Demo.runtime) 1 tasks 0
    (sheetRow (taskRow (H := Demo.runtime)
                 {| TaskID := "T1"; TaskName := "Build"; Category := "ETL";
                    Duration := ofZ 2; RequiredSkills := ["coding"];
                    PreferredPhases := JArr []; MaxConcurrent := ofZ 1 |}))
  = Normal (ETask {| TaskID := "T1"; TaskName := "Build"; Category := "ETL";
                     Duration := ofZ 2; RequiredSkills := ["coding"];
                     PreferredPhases := JArr []; MaxConcurrent := ofZ 1 |}).
Proof.
  apply (export_import_task (H := Demo.runtime) 1 0
           {| TaskID := "T1"; TaskName := "Build"; Category := "ETL";
              Duration := ofZ 2; RequiredSkills := ["coding"];
              PreferredPhases := JArr []; MaxConcurrent := ofZ 1 |}); try done.
  repeat first [apply List.Forall_nil | apply List.Forall_cons]; by repeat split.
Defined.

(** ** Ranges with more or less than two numbers *)

Section RangeEdges.
Context `{JsRuntime}.

Lemma le_NaN_l x : le NaN x = false.
Proof. by destruct x. Qed.

Lemma le_NaN_r x : le x NaN = false.
Proof. by destruct x as [[|]|[|]| |[|] m e]. Qed.

(** X25. Of a [PreferredPhases] text with several [-], only the two
    parts before the second [-] count: [1-3-5] is read as [1-3].  And
    when one of the two parts does not start with a number, as in
    [3-] or [a-4], the result is the empty list. *)
Theorem parsePhases_parts fuel sa sb :
  includes sa "-" = false → includes sb "-" = false →
  (∀ rest, parsePhases fuel (JStr (sa +:+ "-" +:+ sb +:+ "-" +:+ rest))
           = parsePhases fuel (JStr (sa +:+ "-" +:+ sb)))
  ∧ (parseIntString (trim sa) = NaN ∨ parseIntString (trim sb) = NaN →
     parsePhases (S fuel) (JStr (sa +:+ "-" +:+ sb)) = Normal (JArr [])).
Proof.
  intros Ha Hb.
  assert (∀ rest, split "-" (sa +:+ "-" +:+ sb +:+ "-" +:+ rest)
                  = sa :: sb :: split "-" rest) as Hlong.
  { intros rest.
    change (sa +:+ "-" +:+ sb +:+ "-" +:+ rest)
      with (sa +:+ String "-" (sb +:+ String "-" rest)).
    by rewrite !split_at_separator. }
  assert (split "-" (sa +:+ "-" +:+ sb) = [sa; sb]) as Hshort.
  { change (sa +:+ "-" +:+ sb) with (sa +:+ String "-" sb).
    rewrite split_at_separator by done. by rewrite split_no_separator. }
  split.
  - intros rest. unfold parsePhases. rewrite Hlong, Hshort.
    change (sa +:+ "-" +:+ sb +:+ "-" +:+ rest)
      with (sa +:+ String "-" (sb +:+ String "-" rest)).
    change (sa +:+ "-" +:+ sb) with (sa +:+ String "-" sb).
    by rewrite !includes_separator.
  - intros Hnan. unfold parsePhases. rewrite Hshort.
    change (sa +:+ "-" +:+ sb) with (sa +:+ String "-" sb).
    rewrite includes_separator. cbn [fmap list_fmap phaseLoop].
    destruct Hnan as [-> | ->]; by rewrite ?le_NaN_l, ?le_NaN_r.
Qed.

End RangeEdges.

Lemma parsePhases_parts_witness :
  (∀ rest, parsePhases (H := Demo.runtime) 5 (JStr ("3" +:+ "-" +:+ "" +:+ "-" +:+ rest))
           = parsePhases (H := Demo.runtime) 5 (JStr ("3" +:+ "-" +:+ "")))
  ∧ (parseIntString (trim "3") = NaN ∨ parseIntString (trim "") = NaN →
     parsePhases (H := Demo.runtime) 6 (JStr ("3" +:+ "-" +:+ "")) = Normal (JArr [])).
Proof.
  apply (parsePhases_parts (H := Demo.runtime) 5 "3" ""); reflexivity.
Defined.

(** ** The search as you type *)

Lemma span_app p run rest :
  allChars p run = true → startsWithout p rest = true →
  span p (run +:+ rest) = (run, rest).
Proof.
  intros Hrun Hrest. induction run as [|c run IH].
  - change ("" +:+ rest) with rest. destruct rest as [|d rest]; [done|].
    cbn in Hrest |- *. by destruct (p d).
  - cbn [allChars] in Hrun. apply andb_prop in Hrun as [Hc Hrun].
    change (String c run +:+ rest) with (String c (run +:+ rest)).
    cbn [span]. by rewrite Hc, IH.
Qed.

Lemma stripPrefix_app p s : stripPrefix p (p +:+ s) = Some s.
Proof.
  induction p as [|a p IH]; [by destruct s|].
  change (String a p +:+ s) with (String a (p +:+ s)).
  cbn [stripPrefix]. by rewrite Ascii.eqb_refl.
Qed.

Lemma isOperator_not_space c : isOperator c = true → isWhiteSpace c = false.
Proof.
  unfold isOperator. rewrite !orb_true_iff, !Ascii.eqb_eq. by intros [[->| ->]| ->].
Qed.

Lemma isDigit_not_space c : isDigit c = true → isWhiteSpace c = false.
Proof.
  unfold isDigit, isWhiteSpace. destruct (codeOf c) as [|n]; [done|].
  intros [H1 H2]%andb_prop. apply N.leb_le in H1, H2.
  rewrite !orb_false_iff, andb_false_iff, !N.leb_gt, !N.eqb_neq. lia.
Qed.

(** On a query that starts with the word, an operator and a number,
    the match is at the start and its groups are the operator and the
    number. *)
Lemma matchComparison_start word space1 operator space2 digits rest :
  allChars isWhiteSpace space1 = true → isOperator operator = true →
  allChars isWhiteSpace space2 = true →
  allChars isDigit digits = true → digits ≠ "" → startsWithout isDigit rest = true →
  matchComparison word (word +:+ space1 +:+ String operator (space2 +:+ digits +:+ rest))
  = Some (operator, digits).
Proof.
  intros Hs1 Hop Hs2 Hd Hne Hrest.
  assert (comparisonHere (space1 +:+ String operator (space2 +:+ digits +:+ rest))
          = Some (operator, digits)) as Hhere.
  { unfold comparisonHere. rewrite span_app; [|done|].
    - cbn [snd]. fold (isOperator operator). rewrite Hop.
      rewrite (span_app isWhiteSpace space2 (digits +:+ rest)); [|done|].
      + cbn [snd]. rewrite span_app by done. cbn [fst].
        by rewrite (proj2 (String.eqb_neq digits "")).
      + destruct digits as [|c digits]; [done|]. cbn [allChars] in Hd.
        apply andb_prop in Hd as [Hc _].
        change (String c digits +:+ rest) with (String c (digits +:+ rest)).
        cbn [startsWithout]. by rewrite isDigit_not_space.
    - cbn [startsWithout]. by rewrite isOperator_not_space. }
  destruct word as [|a word];
    [change ("" +:+ ?x) with x|
     change (String a word +:+ ?x) with (String a (word +:+ x))];
    cbn [matchComparison].
  - destruct (_ +:+ _); cbn [matchComparison stripPrefix]; by rewrite Hhere.
  - change (String a (word +:+ ?x)) with (String a word +:+ x).
    by rewrite stripPrefix_app, Hhere.
Qed.

Section SearchChangeFacts.
Context `{JsRuntime}.
Local Open Scope Z_scope.

Lemma allData_entities st :
  allData st = (λ item, JObj (entityObject item)) <$> allEntities st.
Proof.
  unfold allData, allEntities. rewrite !fmap_app, <- !list_fmap_compose. done.
Qed.

Lemma compareBy_ofZ operator x y :
  isOperator operator = true → 0 <= x < 2 ^ 53 → 0 <= y < 2 ^ 53 →
  compareBy operator (ofZ x) (ofZ y) = compareZ operator x y.
Proof.
  intros Hop Hx Hy. unfold compareBy, compareZ, gt, lt, SFltb, SFeqb.
  rewrite !compare_ofZ by done. rewrite (Z.compare_antisym x y).
  unfold isOperator in Hop.
  destruct (Ascii.eqb operator ">"), (Ascii.eqb operator "<"),
    (Ascii.eqb operator "=") ; try done;
    destruct (Z.compare_spec x y);
    repeat match goal with
           | |- context [?a <? ?b] => destruct (Z.ltb_spec a b)
           | |- context [?a =? ?b] => destruct (Z.eqb_spec a b)
           end; cbn; try done; lia.
Qed.

(** X26. The search as you type shows nothing for a blank query, and
    otherwise at most 10 records of the data, in the order clients,
    workers, tasks; when fewer than 10 are shown, every record whose
    lowercased serialisation includes the lowercased query is among
    them. *)
Theorem handleSearchChange_results value st :
  ((String.eqb (trim value) "" = true → handleSearchChange value st = (value, [], None))
   ∧ (length (handleSearchChange value st).1.2 <= 10)%nat
   ∧ sublist (handleSearchChange value st).1.2 (allData st))
  ∧ (String.eqb (trim value) "" = false →
     (length (handleSearchChange value st).1.2 < 10)%nat →
     ∀ item, item ∈ allEntities st →
       includes (toLowerCase (JSON_stringify (JObj (entityObject item))))
                (toLowerCase value) = true →
       JObj (entityObject item) ∈ (handleSearchChange value st).1.2).
Proof.
  unfold handleSearchChange. destruct (String.eqb (trim value) "") eqn:Hq.
  - split; [|done]. cbn. repeat split; [lia|apply sublist_nil_l].
  - cbn [fst snd]. rewrite length_fmap, length_take, allData_entities. split.
    + split; [done|]. split; [lia|].
      apply fmap_sublist. etrans; [apply sublist_take|apply filter_sublist].
    + intros _ Hlen item Hitem Htext.
      rewrite take_ge by lia.
      apply (list_elem_of_fmap_2 (λ item, JObj (entityObject item))).
      apply list_elem_of_In, filter_In. split; [by apply list_elem_of_In|].
      unfold searchMatches. by rewrite Htext.
Qed.

(** X27. A query that starts with [duration] (or [priority]), an
    operator among [>], [<], [=] and a number, with optional white
    space around the operator, selects besides the textual matches
    the tasks (or clients) with an ID whose duration (or priority),
    read as an integer, compares in that way with the number. *)
Theorem comparison_query space1 operator space2 digits rest n :
  allChars isWhiteSpace space1 = true → isOperator operator = true →
  allChars isWhiteSpace space2 = true →
  allChars isDigit digits = true → digits ≠ "" → startsWithout isDigit rest = true →
  parseIntString digits = ofZ n → 0 <= n < 2 ^ 53 →
  (∀ value t d,
     toLowerCase value
     = "duration" +:+ space1 +:+ String operator (space2 +:+ digits +:+ rest) →
     TaskID t ≠ "" → parseInt (JNum (Duration t)) = ofZ d → 0 <= d < 2 ^ 53 →
     searchMatches value (ETask t)
     = includes (toLowerCase (JSON_stringify (JObj (taskObject t)))) (toLowerCase value)
       || compareZ operator d n)
  ∧ (∀ value c p,
       toLowerCase value
       = "priority" +:+ space1 +:+ String operator (space2 +:+ digits +:+ rest) →
       ClientID c ≠ "" → parseInt (JNum (PriorityLevel c)) = ofZ p → 0 <= p < 2 ^ 53 →
       searchMatches value (EClient c)
       = includes (toLowerCase (JSON_stringify (JObj (clientObject c)))) (toLowerCase value)
         || compareZ operator p n).
Proof.
  intros Hs1 Hop Hs2 Hd Hne Hrest Hn Hnb. split.
  - intros value t d Hvalue Hid Hdur Hdb. unfold searchMatches. cbn [entityObject].
    destruct (includes _ (toLowerCase value)); [done|]. cbn [orb truthy].
    rewrite (proj2 (String.eqb_neq (TaskID t) "")) by done. cbn [negb].
    rewrite Hvalue, matchComparison_start by done.
    rewrite Hn, Hdur. by apply compareBy_ofZ.
  - intros value c p Hvalue Hid Hprio Hpb. unfold searchMatches. cbn [entityObject].
    destruct (includes _ (toLowerCase value)); [done|]. cbn [orb truthy].
    rewrite (proj2 (String.eqb_neq (ClientID c) "")) by done. cbn [negb].
    rewrite Hvalue, matchComparison_start by done.
    rewrite Hn, Hprio. by apply compareBy_ofZ.
Qed.

End SearchChangeFacts.

Lemma comparison_query_witness :
  (∀ value t d,
     toLowerCase value = "duration" +:+ " " +:+ String ">" (" " +:+ "2" +:+ "") →
     TaskID t ≠ "" → parseInt (H := Demo.runtime) (JNum (Duration t)) = ofZ d →
     (0 <= d < 2 ^ 53)%Z →
     searchMatches (H := Demo.runtime) value (ETask t)
     = includes (toLowerCase (JSON_stringify (JsRuntime := Demo.runtime)
                                (JObj (taskObject t))))
                (toLowerCase value)
       || compareZ ">" d 2)
  ∧ (∀ value c p,
       toLowerCase value = "priority" +:+ " " +:+ String ">" (" " +:+ "2" +:+ "") →
       ClientID c ≠ "" → parseInt (H := Demo.runtime) (JNum (PriorityLevel c)) = ofZ p →
       (0 <= p < 2 ^ 53)%Z →
       searchMatches (H := Demo.runtime) value (EClient c)
       = includes (toLowerCase (JSON_stringify (JsRuntime := Demo.runtime)
                                  (JObj (clientObject c))))
                  (toLowerCase value)
         || compareZ ">" p 2).
Proof.
  apply (comparison_query (H := Demo.runtime) " " ">" " " "2" "" 2);
    try reflexivity; try done.
Defined.

(** ** Queries on skills *)

Lemma span_all p s : allChars p s = true → span p s = (s, "").
Proof.
  induction s as [|c s IH]; [done|]. cbn [allChars span].
  intros [Hc Hs]%andb_prop. by rewrite Hc, IH.
Qed.

Lemma stripPrefix_prefix p s r : stripPrefix p s = Some r → String.prefix p s = true.
Proof.
  revert s. induction p as [|a p IH]; intros [|b s]; cbn; try done.
  destruct (Ascii.eqb_spec a b) as [->|Hne]; [|done].
  intros Hs. destruct (ascii_dec b b); [by eapply IH|done].
Qed.

Lemma matchComparison_absent word s :
  includes s word = false → matchComparison word s = None.
Proof.
  induction s as [|c s IH]; cbn [includes matchComparison].
  - rewrite orb_false_r. intros Hp.
    destruct (stripPrefix word "") eqn:Hs; [|done].
    apply stripPrefix_prefix in Hs. congruence.
  - intros [Hp Hs]%orb_false_iff.
    destruct (stripPrefix word (String c s)) eqn:Hstrip.
    + apply stripPrefix_prefix in Hstrip. congruence.
    + by apply IH.
Qed.

(** The optional [s] of [skills?] is not taken from white space. *)
Lemma plural_of_space c r :
  isWhiteSpace c = true →
  match String c r with
  | String "s" r' => skillHere r'
  | _ => skillHere (String c r)
  end = skillHere (String c r).
Proof.
  intros Hc. by destruct c as [[] [] [] [] [] [] [] []].
Qed.

Lemma skillHere_text space text :
  space ≠ "" → allChars isWhiteSpace space = true →
  text ≠ "" → startsWithout isWhiteSpace text = true →
  allChars (λ c, negb (isLineTerminator c)) text = true →
  skillHere (space +:+ text) = Some text.
Proof.
  intros Hne Hspace Htne Hstart Hline. unfold skillHere.
  rewrite span_app by done. destruct space as [|c space]; [done|].
  destruct text as [|d text]; [done|]. by rewrite span_all.
Qed.

Lemma matchSkill_start plural space text :
  plural = "" ∨ plural = "s" →
  space ≠ "" → allChars isWhiteSpace space = true →
  text ≠ "" → startsWithout isWhiteSpace text = true →
  allChars (λ c, negb (isLineTerminator c)) text = true →
  matchSkill ("skill" +:+ plural +:+ space +:+ text) = Some text.
Proof.
  intros Hplural Hne Hspace Htne Hstart Hline.
  pose proof (skillHere_text space text Hne Hspace Htne Hstart Hline) as Hhere.
  destruct Hplural as [-> | ->].
  - change ("skill" +:+ "" +:+ space +:+ text)
      with (String "s" (String "k" (String "i" (String "l" (String "l" (space +:+ text)))))).
    cbn [matchSkill stripPrefix]. change (Ascii.eqb ?a ?a) with true. cbv iota.
    destruct space as [|c space]; [done|].
    change (String c space +:+ text) with (String c (space +:+ text)) in *.
    cbn [allChars] in Hspace. apply andb_prop in Hspace as [Hc _].
    rewrite (plural_of_space c (space +:+ text) Hc). by rewrite Hhere.
  - change ("skill" +:+ "s" +:+ space +:+ text)
      with (String "s" (String "k" (String "i" (String "l" (String "l"
              (String "s" (space +:+ text))))))).
    cbn [matchSkill stripPrefix]. change (Ascii.eqb ?a ?a) with true. cbv iota.
    by rewrite Hhere.
Qed.

Lemma lastOnLine_class p s c :
  allChars p s = true → lastOnLine s = Some c → p c = true.
Proof.
  induction s as [|d s IH]; [done|]. cbn [allChars lastOnLine].
  intros [Hd Hs]%andb_prop. destruct (lastOnLine s) as [e|].
  - intros [= ->]. by apply IH.
  - destruct (isLineTerminator d); [done|]. by intros [= <-].
Qed.

Lemma matchSkill_blank plural c1 space c :
  plural = "" ∨ plural = "s" →
  isWhiteSpace c1 = true → allChars isWhiteSpace space = true →
  lastOnLine space = Some c →
  matchSkill ("skill" +:+ plural +:+ String c1 space) = Some (String c "")
  ∧ trim (String c "") = "".
Proof.
  intros Hplural Hc1 Hspace Hlast.
  assert (skillHere (String c1 space) = Some (String c "")) as Hhere.
  { unfold skillHere. rewrite span_all by (cbn [allChars]; by rewrite Hc1).
    by rewrite Hlast. }
  split.
  - destruct Hplural as [-> | ->].
    + change ("skill" +:+ "" +:+ String c1 space)
        with (String "s" (String "k" (String "i" (String "l" (String "l"
                (String c1 space)))))).
      cbn [matchSkill stripPrefix]. change (Ascii.eqb ?a ?a) with true. cbv iota.
      rewrite (plural_of_space c1 space Hc1). by rewrite Hhere.
    + change ("skill" +:+ "s" +:+ String c1 space)
        with (String "s" (String "k" (String "i" (String "l" (String "l"
                (String "s" (String c1 space))))))).
      cbn [matchSkill stripPrefix]. change (Ascii.eqb ?a ?a) with true. cbv iota.
      by rewrite Hhere.
  - pose proof (lastOnLine_class isWhiteSpace space c Hspace Hlast) as Hc.
    unfold trim. cbn [trimStart]. by rewrite Hc.
Qed.

Lemma includes_empty s : includes s "" = true.
Proof. by destruct s. Qed.

Section SkillQueries.
Context `{JsRuntime}.

(** X28. A query that starts with [skill] or [skills], white space
    and a text selects, besides the textual matches, the workers with
    an ID that have a skill whose lowercased name includes the text,
    trimmed; and the tasks with an ID that require such a skill, when
    the query has no [duration]. *)
Theorem skill_query plural space text value :
  plural = "" ∨ plural = "s" →
  space ≠ "" → allChars isWhiteSpace space = true →
  text ≠ "" → startsWithout isWhiteSpace text = true →
  allChars (λ c, negb (isLineTerminator c)) text = true →
  toLowerCase value = "skill" +:+ plural +:+ space +:+ text →
  (∀ w, WorkerID w ≠ "" →
        searchMatches value (EWorker w)
        = includes (toLowerCase (JSON_stringify (JObj (workerObject w))))
                   (toLowerCase value)
          || existsb (λ skill, includes (toLowerCase skill) (trim text)) (Skills w))
  ∧ (∀ t, TaskID t ≠ "" → includes (toLowerCase value) "duration" = false →
          searchMatches value (ETask t)
          = includes (toLowerCase (JSON_stringify (JObj (taskObject t))))
                     (toLowerCase value)
            || existsb (λ skill, includes (toLowerCase skill) (trim text))
                       (RequiredSkills t)).
Proof.
  intros Hplural Hne Hspace Htne Hstart Hline Hvalue.
  pose proof (matchSkill_start plural space text Hplural Hne Hspace Htne Hstart Hline)
    as Hmatch.
  split.
  - intros w Hid. unfold searchMatches, hasSkill. cbn [entityObject].
    destruct (includes _ (toLowerCase value)); [done|]. cbn [orb truthy].
    rewrite (proj2 (String.eqb_neq (WorkerID w) "")) by done. cbn [negb].
    by rewrite Hvalue, Hmatch.
  - intros t Hid Hdur. unfold searchMatches, hasSkill. cbn [entityObject].
    destruct (includes _ (toLowerCase value)); [done|]. cbn [orb truthy].
    rewrite (proj2 (String.eqb_neq (TaskID t) "")) by done. cbn [negb].
    rewrite (matchComparison_absent "duration" _ Hdur).
    by rewrite Hvalue, Hmatch.
Qed.

(** X29. A query that is [skill] or [skills] followed only by white
    space, with a character other than a line break after the first
    blank, asks for the empty text: it selects every worker with an
    ID that has at least one skill. *)
Theorem skill_query_blank plural c1 space c value w :
  plural = "" ∨ plural = "s" →
  isWhiteSpace c1 = true → allChars isWhiteSpace space = true →
  lastOnLine space = Some c →
  toLowerCase value = "skill" +:+ plural +:+ String c1 space →
  WorkerID w ≠ "" →
  searchMatches value (EWorker w)
  = includes (toLowerCase (JSON_stringify (JObj (workerObject w)))) (toLowerCase value)
    || negb (bool_decide (Skills w = [])).
Proof.
  intros Hplural Hc1 Hspace Hlast Hvalue Hid.
  destruct (matchSkill_blank plural c1 space c Hplural Hc1 Hspace Hlast)
    as [Hmatch Htrim].
  unfold searchMatches, hasSkill. cbn [entityObject].
  destruct (includes _ (toLowerCase value)); [done|]. cbn [orb truthy].
  rewrite (proj2 (String.eqb_neq (WorkerID w) "")) by done. cbn [negb].
  rewrite Hvalue, Hmatch, Htrim.
  destruct (Skills w) as [|skill skills]; [done|].
  cbn [existsb]. by rewrite includes_empty.
Qed.

End SkillQueries.

Lemma skill_query_witness :
  (∀ w, WorkerID w ≠ "" →
        searchMatches (H := Demo.runtime) "Skills Cod" (EWorker w)
        = includes (toLowerCase (JSON_stringify (JsRuntime := Demo.runtime)
                                   (JObj (workerObject w))))
                   (toLowerCase "Skills Cod")
          || existsb (λ skill, includes (toLowerCase skill) (trim "cod")) (Skills w))
  ∧ (∀ t, TaskID t ≠ "" → includes (toLowerCase "Skills Cod") "duration" = false →
          searchMatches (H := Demo.runtime) "Skills Cod" (ETask t)
          = includes (toLowerCase (JSON_stringify (JsRuntime := Demo.runtime)
                                     (JObj (taskObject t))))
                     (toLowerCase "Skills Cod")
            || existsb (λ skill, includes (toLowerCase skill) (trim "cod"))
                       (RequiredSkills t)).
Proof.
  apply (skill_query (H := Demo.runtime) "s" " " "cod" "Skills Cod");
    try reflexivity; try done. by right.
Defined.

Lemma skill_query_blank_witness :
  searchMatches (H := Demo.runtime) "skills  " (EWorker (Sample.worker "W1" 3))
  = includes (toLowerCase (JSON_stringify (JsRuntime := Demo.runtime)
                             (JObj (workerObject (Sample.worker "W1" 3)))))
             (toLowerCase "skills  ")
    || negb (bool_decide (Skills (Sample.worker "W1" 3) = [])).
Proof.
  apply (skill_query_blank (H := Demo.runtime) "s" " " " " " " "skills  "
           (Sample.worker "W1" 3)); try reflexivity; try done. by right.
Defined.

(** ** An answer inside a code fence *)

Lemma backtick_free_cons c s :
  includes (String c s) "`" = false → c ≠ "`"%char ∧ includes s "`" = false.
Proof. intros Hs. by apply (includes_char_cons "`" c s). Qed.

Lemma prefix_backtick c s p :
  c ≠ "`"%char → String.prefix (String "`" p) (String c s) = false.
Proof.
  intros Hc. destruct (String.prefix _ _) eqn:Hp; [|done].
  apply prefix_app in Hp as [post Hpost].
  change (String "`" p +:+ post) with (String "`" (p +:+ post)) in Hpost. congruence.
Qed.

(** Text without a backquote is left as it is, and the fence that
    closes it is removed. *)
Lemma stripFences_body body :
  includes body "`" = false →
  stripFences_from 0 (body +:+ "```") = body.
Proof.
  induction body as [|c body IH]; [done|].
  intros [Hc Hbody]%backtick_free_cons.
  change (String c body +:+ "```") with (String c (body +:+ "```")).
  cbn [stripFences_from]. rewrite !prefix_backtick by done. by rewrite IH.
Qed.

Lemma stripFences_fenced body :
  includes body "`" = false → stripFences ("```json" +:+ body +:+ "```") = body.
Proof.
  intros Hbody. unfold stripFences.
  change ("```json" +:+ body +:+ "```")
    with (String "`" (String "`" (String "`" (String "j" (String "s" (String "o"
            (String "n" (body +:+ "```")))))))).
  cbn. assert (String.prefix "" (body +:+ "```") = true) as ->
    by (by destruct (body +:+ "```")).
  by apply stripFences_body.
Qed.

Section FencedAnswer.
Context `{JsRuntime}.

(** X30. When the AI answers with a JSON array inside a code fence
    opened by three backquotes and [json], the fence is removed and
    the array is what the method returns: for [suggestCorrections]
    all its items, whatever the number of errors, and for [searchData]
    its first 20 items, with the source [ai]. *)
Theorem fenced_answer this key body items :
  apiKey this = Some key → key ≠ "" →
  (∀ prompt, fetch this key prompt = FetchOk (Some ("```json" +:+ body +:+ "```"))) →
  includes body "`" = false →
  JSON_parse (trim body) = Some (JArr items) →
  (∀ errors, errors ≠ [] → suggestCorrections this errors = items)
  ∧ (∀ query data, String.eqb (trim query) "" = false → data ≠ [] →
       searchData this query data = {| results := take 20 items; source := ai |}).
Proof.
  intros Hkey Hne Hfetch Hbody Hparse.
  assert (∀ prompt, generateContent this prompt = "```json" +:+ body +:+ "```") as Hgen.
  { intros prompt. unfold generateContent. rewrite Hkey.
    destruct key as [|c key]; [done|]. by rewrite Hfetch. }
  split.
  - intros errors Herrors. unfold suggestCorrections, aiCorrections.
    destruct errors as [|e errors]; [done|]. cbn [length Nat.eqb].
    by rewrite Hgen, stripFences_fenced, Hparse.
  - intros query data Hq Hdata. unfold searchData, aiSearch.
    rewrite Hq. destruct data as [|item data]; [done|]. cbn [length Nat.eqb orb].
    rewrite Hgen. cbn [String.eqb Ascii.eqb orb].
    change (String.eqb ("```json" +:+ body +:+ "```") "API key not configured") with false.
    change (String.eqb ("```json" +:+ body +:+ "```") "AI temporarily unavailable")
      with false.
    cbn [orb]. by rewrite stripFences_fenced, Hparse.
Qed.

End FencedAnswer.

Lemma fenced_answer_witness :
  (∀ errors, errors ≠ [] →
     suggestCorrections (H := Demo.runtime)
       {| apiKey := Some "k";
          fetch := λ _ _, FetchOk (Some ("```json" +:+ (newline +:+ "[]" +:+ newline)
                                         +:+ "```")) |} errors = [])
  ∧ (∀ query data, String.eqb (trim query) "" = false → data ≠ [] →
       searchData (H := Demo.runtime)
         {| apiKey := Some "k";
            fetch := λ _ _, FetchOk (Some ("```json" +:+ (newline +:+ "[]" +:+ newline)
                                           +:+ "```")) |} query data
       = {| results := take 20 []; source := ai |}).
Proof.
  apply (fenced_answer (H := Demo.runtime)
           {| apiKey := Some "k";
              fetch := λ _ _, FetchOk (Some ("```json" +:+ (newline +:+ "[]" +:+ newline)
                                             +:+ "```")) |}
           "k" (newline +:+ "[]" +:+ newline) []); try reflexivity; done.
Defined.
